(** * go-athena: query lifecycle and compressed-download result retrieval

    A shallow embedding of [conn.go] and [rows_gzip.go].  Go strings and byte
    slices are [string]s (sequences of 8-bit characters), Go [int]s and runes
    are [Z], a nil [error] is [None].  Calls to the remote engine are recorded
    in a log and answered by an environment. *)

From Stdlib Require Import ZArith List String Ascii Bool Lia.
Import ListNotations.
Local Open Scope string_scope.
Local Open Scope Z_scope.

(** ** Errors and results *)

Inductive error : Type :=
| ErrInvalidResultMode
| context_Canceled
| context_DeadlineExceeded
| errors_New (text : string)
| bufio_ErrTooLong
| io_EOF
| external_error (text : string).

(** A Go pair [(T, error)] of which only one side is meaningful. *)
Inductive result (A : Type) : Type :=
| Ok (a : A)
| Err (e : error).
Arguments Ok {A} a.
Arguments Err {A} e.

(** ** Byte strings *)

Definition byte_val (c : ascii) : Z := Z.of_N (N_of_ascii c).
Definition byte_of (z : Z) : ascii := ascii_of_N (Z.to_N z).
Definition len (s : string) : Z := Z.of_nat (String.length s).

Definition SOH : ascii := "001"%char.
Definition LF : ascii := "010"%char.
Definition CR : ascii := "013"%char.

Fixpoint drop (n : nat) (s : string) : string :=
  match n, s with
  | O, _ => s
  | S n', String _ s' => drop n' s'
  | S _, EmptyString => EmptyString
  end.

Fixpoint take (n : nat) (s : string) : string :=
  match n, s with
  | O, _ => EmptyString
  | S n', String c s' => String c (take n' s')
  | S _, EmptyString => EmptyString
  end.

(** ** unicode/utf8 *)

Module utf8.

Definition RuneError : Z := 65533.
Definition locb : Z := 128.
Definition hicb : Z := 191.

Inductive lead : Type :=
| ascii_byte
| invalid_byte
| multi (size : nat) (lo hi : Z).

(** The table [first] of the package together with its accept ranges: the
    class of a leading byte, and for a multi-byte sequence its size and the
    range allowed for the second byte. *)
Definition first (p0 : Z) : lead :=
  if p0 <? 128 then ascii_byte
  else if p0 <? 194 then invalid_byte
  else if p0 <? 224 then multi 2 locb hicb
  else if p0 =? 224 then multi 3 160 hicb
  else if p0 <? 237 then multi 3 locb hicb
  else if p0 =? 237 then multi 3 locb 159
  else if p0 <? 240 then multi 3 locb hicb
  else if p0 =? 240 then multi 4 144 hicb
  else if p0 <? 244 then multi 4 locb hicb
  else if p0 =? 244 then multi 4 locb 143
  else invalid_byte.

Definition cont (b : Z) : bool := (locb <=? b) && (b <=? hicb).

(** [DecodeRune p] is the first rune of [p] and its width in bytes;
    [(RuneError, 0)] on empty input and [(RuneError, 1)] on a byte that does
    not start a well-formed encoding. *)
Definition DecodeRune (p : string) : Z * Z :=
  match p with
  | EmptyString => (RuneError, 0)
  | String c0 p1 =>
    let p0 := byte_val c0 in
    match first p0 with
    | ascii_byte => (p0, 1)
    | invalid_byte => (RuneError, 1)
    | multi sz lo hi =>
      if len p <? Z.of_nat sz then (RuneError, 1) else
      match p1 with
      | EmptyString => (RuneError, 1)
      | String c1 p2 =>
        let b1 := byte_val c1 in
        if (b1 <? lo) || (hi <? b1) then (RuneError, 1) else
        if (sz <=? 2)%nat then
          (Z.lor (Z.shiftl (Z.land p0 31) 6) (Z.land b1 63), 2)
        else
        match p2 with
        | EmptyString => (RuneError, 1)
        | String c2 p3 =>
          let b2 := byte_val c2 in
          if negb (cont b2) then (RuneError, 1) else
          if (sz <=? 3)%nat then
            (Z.lor (Z.lor (Z.shiftl (Z.land p0 15) 12)
                          (Z.shiftl (Z.land b1 63) 6))
                   (Z.land b2 63), 3)
          else
          match p3 with
          | EmptyString => (RuneError, 1)
          | String c3 _ =>
            let b3 := byte_val c3 in
            if negb (cont b3) then (RuneError, 1) else
            (Z.lor (Z.lor (Z.lor (Z.shiftl (Z.land p0 7) 18)
                                 (Z.shiftl (Z.land b1 63) 12))
                          (Z.shiftl (Z.land b2 63) 6))
                   (Z.land b3 63), 4)
          end
        end
      end
    end
  end.

Definition bytes (l : list Z) : string :=
  fold_right (fun z s => String (byte_of z) s) EmptyString l.

(** The conversion [string(r)] of a rune: its UTF-8 encoding, and the
    encoding of [RuneError] for a value that is not a valid code point. *)
Definition string_of_rune (r : Z) : string :=
  if (r <? 0) || (1114111 <? r) || ((55296 <=? r) && (r <=? 57343)) then
    bytes [239; 191; 189]
  else if r <=? 127 then bytes [r]
  else if r <=? 2047 then
    bytes [Z.lor 192 (Z.shiftr r 6); Z.lor 128 (Z.land r 63)]
  else if r <=? 65535 then
    bytes [Z.lor 224 (Z.shiftr r 12);
           Z.lor 128 (Z.land (Z.shiftr r 6) 63);
           Z.lor 128 (Z.land r 63)]
  else
    bytes [Z.lor 240 (Z.shiftr r 18);
           Z.lor 128 (Z.land (Z.shiftr r 12) 63);
           Z.lor 128 (Z.land (Z.shiftr r 6) 63);
           Z.lor 128 (Z.land r 63)].

(** The runes of a string as [range] and the regexp package read them:
    every ill-formed byte counts as one [RuneError]. *)
Fixpoint runes_skip (skip : nat) (s : string) : list Z :=
  match s with
  | EmptyString => []
  | String _ s' =>
    match skip with
    | S k => runes_skip k s'
    | O => let (r, w) := DecodeRune s in r :: runes_skip (Z.to_nat w - 1) s'
    end
  end.

Definition runes (s : string) : list Z := runes_skip 0 s.

End utf8.

(** ** io.Reader and bufio.Scanner *)

(** A reader is given by the bytes it delivers, by how it ends ([None] for
    a clean end of input, where [Read] answers [io.EOF]; [Some e] for a
    failed read), and by how it hands the bytes over: [rd_cuts] are the
    sizes of the pieces it has ready, in order (after the last one it gives
    as much as is asked for), and [rd_eager] says that the end is reported
    together with the last bytes rather than by a read of its own.  Reads
    that deliver nothing and report nothing are left out: [strings.Reader]
    and [gzip.Reader], the readers of these sources, always make
    progress. *)
Record Reader : Type := mkReaderCut {
  rd_data : string;
  rd_err : option error;
  rd_cuts : list nat;
  rd_eager : bool
}.

(** A reader that gives as much as is asked for and reports its end by a
    read of its own. *)
Definition mkReader (content : string) (err : option error) : Reader :=
  mkReaderCut content err [] false.

(** [strings.NewReader]: [Read] copies what fits and answers [io.EOF] once
    nothing is left. *)
Definition strings_NewReader (s : string) : Reader := mkReader s None.

(** The error of a read at the end of the input. *)
Definition rd_end (r : Reader) : error :=
  match rd_err r with
  | Some e => e
  | None => io_EOF
  end.

(** [r.Read(p)] with [len(p) = n], [n] positive: the bytes, the error and
    the reader afterwards. *)
Definition Read (r : Reader) (n : nat) : string * option error * Reader :=
  match rd_data r with
  | EmptyString => (EmptyString, Some (rd_end r), r)
  | _ =>
    let '(size, cuts) :=
      match rd_cuts r with
      | [] => (n, [])
      | c :: cuts' =>
        if (Nat.max 1 c <=? n)%nat then (Nat.max 1 c, cuts')
        else (n, (Nat.max 1 c - n)%nat :: cuts')
      end in
    let rest := drop size (rd_data r) in
    (take size (rd_data r),
     match rest with
     | EmptyString => if rd_eager r then Some (rd_end r) else None
     | _ => None
     end,
     mkReaderCut rest (rd_err r) cuts (rd_eager r))
  end.

(** An error other than [io.EOF]. *)
Definition notEOF (e : option error) : option error :=
  match e with
  | Some io_EOF => None
  | _ => e
  end.

(** [io.ReadAll]: the bytes read and the error, nil at a clean end. *)
Definition io_ReadAll (r : Reader) : string * option error :=
  (rd_data r, notEOF (rd_err r)).

Module bufio.

Definition MaxScanTokenSize : Z := 64 * 1024.
Definition startBufSize : Z := 4096.

(** The scanner with the default split function [ScanLines]: [sc_r] is the
    reader with what it has still to deliver, [sc_cap] is [len(s.buf)],
    [sc_start] is [s.start], [sc_buf] holds [s.buf[s.start:s.end]],
    [sc_token] the last token and [sc_err] the sticky error [s.err], which
    is [io.EOF] after a clean end. *)
Record Scanner : Type := mkScanner {
  sc_r : Reader;
  sc_cap : Z;
  sc_start : Z;
  sc_buf : string;
  sc_token : string;
  sc_err : option error
}.

Definition NewScanner (r : Reader) : Scanner :=
  mkScanner r 0 0 EmptyString EmptyString None.

Definition sc_end (s : Scanner) : Z := sc_start s + len (sc_buf s).

(** [bytes.IndexByte s '\n'] *)
Fixpoint index_newline (s : string) : option nat :=
  match s with
  | EmptyString => None
  | String c s' =>
    if Ascii.eqb c LF then Some O
    else match index_newline s' with
         | Some i => Some (S i)
         | None => None
         end
  end.

Fixpoint dropCR (s : string) : string :=
  match s with
  | EmptyString => EmptyString
  | String c EmptyString => if Ascii.eqb c CR then EmptyString else s
  | String c s' => String c (dropCR s')
  end.

(** [ScanLines]: how far to advance and the token, [None] for a nil token
    (the split function never fails). *)
Definition ScanLines (data : string) (atEOF : bool) : nat * option string :=
  if atEOF && (len data =? 0) then (O, None)
  else
    match index_newline data with
    | Some i =>
      (* We have a full newline-terminated line. *)
      (S i, Some (dropCR (take i data)))
    | None =>
      (* If we're at EOF, we have a final, non-terminated line. *)
      if atEOF then (String.length data, Some (dropCR data))
      (* Request more data. *)
      else (O, None)
    end.

Definition setErr (err : option error) (e : error) : option error :=
  match err with
  | None | Some io_EOF => Some e
  | Some _ => err
  end.

(** Shift the data to the beginning of the buffer if there is lots of empty
    space or space is needed. *)
Definition shift (s : Scanner) : Scanner :=
  if (0 <? sc_start s)
     && ((sc_end s =? sc_cap s) || (sc_cap s / 2 <? sc_start s))
  then mkScanner (sc_r s) (sc_cap s) 0 (sc_buf s) (sc_token s) (sc_err s)
  else s.

(** Is the buffer full?  If so, resize; [None] when it has its full size. *)
Definition grow (s : Scanner) : option Scanner :=
  if sc_end s =? sc_cap s then
    if MaxScanTokenSize <=? sc_cap s then None
    else
      let newSize := if sc_cap s * 2 =? 0 then startBufSize
                     else sc_cap s * 2 in
      Some (mkScanner (sc_r s) (Z.min newSize MaxScanTokenSize) 0
                      (sc_buf s) (sc_token s) (sc_err s))
  else Some s.

(** Read some input into the free part of the buffer. *)
Definition fill (s : Scanner) : Scanner :=
  let '(chunk, err, r) := Read (sc_r s) (Z.to_nat (sc_cap s - sc_end s)) in
  mkScanner r (sc_cap s) (sc_start s) (sc_buf s ++ chunk) (sc_token s)
            (match err with
             | Some e => setErr (sc_err s) e
             | None => sc_err s
             end).

(** The loop of [Scan]; [fuel] bounds the number of reads. *)
Fixpoint scanLoop (fuel : nat) (s : Scanner) : option (bool * Scanner) :=
  match fuel with
  | O => None
  | S fuel' =>
    let atEOF := match sc_err s with
                 | Some _ => true
                 | None => false
                 end in
    (* See if we can get a token with what we already have. *)
    let '(s, found) :=
      if (0 <? len (sc_buf s)) || atEOF then
        let '(advance, token) := ScanLines (sc_buf s) atEOF in
        (mkScanner (sc_r s) (sc_cap s) (sc_start s + Z.of_nat advance)
                   (drop advance (sc_buf s))
                   (match token with
                    | Some t => t
                    | None => EmptyString
                    end)
                   (sc_err s),
         match token with
         | Some _ => true
         | None => false
         end)
      else (s, false) in
    if found then Some (true, s)
    (* If we've already hit EOF or an I/O error, we are done. *)
    else if atEOF then
      Some (false, mkScanner (sc_r s) (sc_cap s) 0 EmptyString (sc_token s)
                             (sc_err s))
    else
      (* Must read more data. *)
      let s := shift s in
      match grow s with
      | None =>
        Some (false, mkScanner (sc_r s) (sc_cap s) (sc_start s) (sc_buf s)
                               (sc_token s)
                               (setErr (sc_err s) bufio_ErrTooLong))
      | Some s => scanLoop fuel' (fill s)
      end
  end.

(** One call of [Scan]: every turn of the loop but the last two takes at
    least one byte from the reader. *)
Definition Scan (s : Scanner) : option (bool * Scanner) :=
  scanLoop (2 + String.length (rd_data (sc_r s))) s.

Definition Err (s : Scanner) : option error := notEOF (sc_err s).
Definition Text (s : Scanner) : string := sc_token s.
Definition Bytes (s : Scanner) : string := sc_token s.

End bufio.

(** ** rows_gzip.go: the record decoder *)

(** The inner loop of [getRecordsFromGzip] over the bytes [b] of one line.
    [fuel] bounds the number of iterations; [None] when it runs out. *)
Fixpoint decodeRecord (fuel : nat) (b : string) (field : string)
    (record : list string) : option (list string) :=
  match fuel with
  | O => None
  | S fuel' =>
    let (r, width) := utf8.DecodeRune b in
    let '(record, field) :=
      if r =? byte_val SOH then (record ++ [field], EmptyString)%list
      else (record, field ++ utf8.string_of_rune r) in
    if len b <=? width then Some (record ++ [field])%list
    else decodeRecord fuel' (drop (Z.to_nat width) b) field record
  end.

(** The scanning loop of [getRecordsFromGzip]. *)
Fixpoint recordsLoop (fuel : nat) (scanner : bufio.Scanner)
    (records : list (list string)) : option (result (list (list string))) :=
  match fuel with
  | O => None
  | S fuel' =>
    match bufio.Scan scanner with
    | None => None
    | Some (more, scanner) =>
      if negb more then Some (Ok records) else
      match bufio.Err scanner with
      | Some err => Some (Err err)
      | None =>
        let b := bufio.Bytes scanner in
        match decodeRecord (S (String.length b)) b EmptyString [] with
        | None => None
        | Some record => recordsLoop fuel' scanner (records ++ [record])%list
        end
      end
    end
  end.

Definition getRecordsFromGzip (reader : Reader)
  : option (result (list (list string))) :=
  recordsLoop (2 + String.length (rd_data reader))
              (bufio.NewScanner reader) [].

(** The scanning loop of [getObjectKeysForGzip]. *)
Fixpoint keysLoop (fuel : nat) (scanner : bufio.Scanner) (start : Z)
    (keys : list string) : option (result (list string)) :=
  match fuel with
  | O => None
  | S fuel' =>
    match bufio.Scan scanner with
    | None => None
    | Some (more, scanner) =>
      if negb more then Some (Ok keys) else
      match bufio.Err scanner with
      | Some err => Some (Err err)
      | None =>
        let k := bufio.Text scanner in
        let k := if (0 <? start) && (start <? len k)
                 then drop (Z.to_nat start) k else k in
        keysLoop fuel' scanner start (keys ++ [k])%list
      end
    end
  end.

Definition getObjectKeysForGzip (reader : Reader) (start : Z)
  : option (result (list string)) :=
  keysLoop (2 + String.length (rd_data reader))
           (bufio.NewScanner reader) start [].


(** ** regexp: the fragment the query patterns use *)

Module regexp.

Inductive syntax : Type :=
| NoMatch
| EmptyMatch
| Literal (r : Z) (foldCase : bool)
| AnyCharNotNL
| PerlSpace
| Concat (a b : syntax)
| Alternate (a b : syntax)
| Star (a : syntax).

Definition Plus (a : syntax) : syntax := Concat a (Star a).

(** A compiled pattern: whether it starts with [^] (and no multi-line flag),
    and the expression after it. *)
Record Regexp : Type := mkRegexp {
  beginText : bool;
  body : syntax
}.

Definition is_upper (r : Z) : bool := (65 <=? r) && (r <=? 90).
Definition is_lower (r : Z) : bool := (97 <=? r) && (r <=? 122).

(** Case folding of an ASCII letter under the flag [i], by the orbits of
    [unicode.SimpleFold]: the other case of the letter, and beyond ASCII the
    Kelvin sign for K and the long s for S. *)
Definition foldEq (lit r : Z) : bool :=
  (r =? lit)
  || (is_upper lit && (r =? lit + 32))
  || (is_lower lit && (r =? lit - 32))
  || (((lit =? 75) || (lit =? 107)) && (r =? 8490))
  || (((lit =? 83) || (lit =? 115)) && (r =? 383)).

Definition matchRune (lit : Z) (foldCase : bool) (r : Z) : bool :=
  if foldCase then foldEq lit r else r =? lit.

(** [\s] is the class of tab, newline, form feed, carriage return, space. *)
Definition isSpace (r : Z) : bool :=
  (r =? 9) || (r =? 10) || (r =? 12) || (r =? 13) || (r =? 32).

Fixpoint nullable (e : syntax) : bool :=
  match e with
  | NoMatch => false
  | EmptyMatch => true
  | Literal _ _ => false
  | AnyCharNotNL => false
  | PerlSpace => false
  | Concat a b => nullable a && nullable b
  | Alternate a b => nullable a || nullable b
  | Star _ => true
  end.

(** The words an expression matches. *)
Inductive denotes : syntax -> list Z -> Prop :=
| denotes_EmptyMatch : denotes EmptyMatch []
| denotes_Literal (l : Z) (f : bool) (r : Z) :
    matchRune l f r = true -> denotes (Literal l f) [r]
| denotes_AnyCharNotNL (r : Z) :
    (r =? 10) = false -> denotes AnyCharNotNL [r]
| denotes_PerlSpace (r : Z) :
    isSpace r = true -> denotes PerlSpace [r]
| denotes_Concat (a b : syntax) (u v : list Z) :
    denotes a u -> denotes b v -> denotes (Concat a b) (u ++ v)%list
| denotes_Alternate_l (a b : syntax) (u : list Z) :
    denotes a u -> denotes (Alternate a b) u
| denotes_Alternate_r (a b : syntax) (u : list Z) :
    denotes b u -> denotes (Alternate a b) u
| denotes_Star_nil (a : syntax) : denotes (Star a) []
| denotes_Star_more (a : syntax) (u v : list Z) :
    denotes a u -> denotes (Star a) v -> denotes (Star a) (u ++ v)%list.

Definition ifb (b : bool) : syntax := if b then EmptyMatch else NoMatch.

(** What remains to be matched after the rune [r]. *)
Fixpoint deriv (r : Z) (e : syntax) : syntax :=
  match e with
  | NoMatch => NoMatch
  | EmptyMatch => NoMatch
  | Literal l f => ifb (matchRune l f r)
  | AnyCharNotNL => ifb (negb (r =? 10))
  | PerlSpace => ifb (isSpace r)
  | Concat a b =>
    Alternate (Concat (deriv r a) b) (if nullable a then deriv r b else NoMatch)
  | Alternate a b => Alternate (deriv r a) (deriv r b)
  | Star a => Concat (deriv r a) (Star a)
  end.

(** Some prefix of [w] matches [e]. *)
Fixpoint matchPrefix (e : syntax) (w : list Z) : bool :=
  nullable e ||
  match w with
  | [] => false
  | r :: w' => matchPrefix (deriv r e) w'
  end.

Fixpoint matchAnywhere (e : syntax) (w : list Z) : bool :=
  matchPrefix e w ||
  match w with
  | [] => false
  | _ :: w' => matchAnywhere e w'
  end.

(** [MatchString]: the string contains a match of the pattern. *)
Definition MatchString (re : Regexp) (s : string) : bool :=
  if beginText re then matchPrefix (body re) (utf8.runes s)
  else matchAnywhere (body re) (utf8.runes s).

Definition lits (foldCase : bool) (s : string) (k : syntax) : syntax :=
  fold_right (fun r e => Concat (Literal r foldCase) e) k
             (map byte_val (list_ascii_of_string s)).

Definition word (foldCase : bool) (s : string) : syntax :=
  lits foldCase s EmptyMatch.

End regexp.

(** ** conn.go: query classification *)

(** [(?i)^(ALTER|CREATE|DESCRIBE|DROP|MSCK|SHOW)] *)
Definition ddlQueryPattern : regexp.Regexp :=
  regexp.mkRegexp true
    (regexp.Alternate (regexp.word true "ALTER")
    (regexp.Alternate (regexp.word true "CREATE")
    (regexp.Alternate (regexp.word true "DESCRIBE")
    (regexp.Alternate (regexp.word true "DROP")
    (regexp.Alternate (regexp.word true "MSCK")
                      (regexp.word true "SHOW")))))).

(** [(?i)^SELECT] *)
Definition selectQueryPattern : regexp.Regexp :=
  regexp.mkRegexp true (regexp.word true "SELECT").

(** [(?i)^CREATE.+AS\s+SELECT] *)
Definition ctasQueryPattern : regexp.Regexp :=
  regexp.mkRegexp true
    (regexp.lits true "CREATE"
    (regexp.Concat (regexp.Plus regexp.AnyCharNotNL)
    (regexp.lits true "AS"
    (regexp.Concat (regexp.Plus regexp.PerlSpace)
                   (regexp.word true "SELECT"))))).

Inductive queryType : Type :=
| queryTypeUnknown
| queryTypeDDL
| queryTypeSelect
| queryTypeCTAS.

Definition queryType_eqb (a b : queryType) : bool :=
  match a, b with
  | queryTypeUnknown, queryTypeUnknown
  | queryTypeDDL, queryTypeDDL
  | queryTypeSelect, queryTypeSelect
  | queryTypeCTAS, queryTypeCTAS => true
  | _, _ => false
  end.

Definition getQueryType (query : string) : queryType :=
  if regexp.MatchString ddlQueryPattern query then queryTypeDDL
  else if regexp.MatchString ctasQueryPattern query then queryTypeCTAS
  else if regexp.MatchString selectQueryPattern query then queryTypeSelect
  else queryTypeUnknown.

Definition isDDLQuery (query : string) : bool :=
  queryType_eqb (getQueryType query) queryTypeDDL.

Definition isSelectQuery (query : string) : bool :=
  queryType_eqb (getQueryType query) queryTypeSelect.

Definition isCTASQuery (query : string) : bool :=
  queryType_eqb (getQueryType query) queryTypeCTAS.

(** ** Result modes and the per-call context *)

(** Modelled from the spec: the declaration of [ResultMode] is not among the
    sources.  The spec gives the closed enum of three modes; a value of the
    underlying integer type that is none of the three constants is
    [ResultModeOther]. *)
Inductive ResultMode : Type :=
| ResultModeAPI
| ResultModeDL
| ResultModeGzipDL
| ResultModeOther (n : Z).

Definition ResultMode_eqb (a b : ResultMode) : bool :=
  match a, b with
  | ResultModeAPI, ResultModeAPI
  | ResultModeDL, ResultModeDL
  | ResultModeGzipDL, ResultModeGzipDL => true
  | ResultModeOther n, ResultModeOther m => n =? m
  | _, _ => false
  end.

Definition isCreatingCTASTable (isSelect : bool) (resultMode : ResultMode)
  : bool :=
  isSelect && ResultMode_eqb resultMode ResultModeGzipDL.

Definition isValidResultMode (mode : ResultMode) : bool :=
  match mode with
  | ResultModeAPI | ResultModeDL | ResultModeGzipDL => true
  | _ => false
  end.

(** Modelled from the spec: the accessors [getResultMode], [getTimeout] and
    [getCatalog] are not among the sources.  By the spec the per-call context
    carries optional overrides of the result mode, the timeout and the
    catalog; each accessor returns the override and whether it is present. *)
Record context : Type := mkContext {
  ctx_resultMode : option ResultMode;
  ctx_timeout : option Z;
  ctx_catalog : option string
}.

Definition getResultMode (ctx : context) : option ResultMode :=
  ctx_resultMode ctx.
Definition getTimeout (ctx : context) : option Z := ctx_timeout ctx.
Definition getCatalog (ctx : context) : option string := ctx_catalog ctx.

Record conn : Type := mkConn {
  db : string;
  OutputLocation : string;
  workgroup : string;
  pollFrequency : Z;
  resultMode : ResultMode;
  timeout : Z;
  catalog : string
}.

Definition set_OutputLocation (c : conn) (l : string) : conn :=
  mkConn (db c) l (workgroup c) (pollFrequency c) (resultMode c)
         (timeout c) (catalog c).

(** ** The remote engine *)

Inductive QueryExecutionState : Type :=
| QueryExecutionStateQueued
| QueryExecutionStateRunning
| QueryExecutionStateSucceeded
| QueryExecutionStateFailed
| QueryExecutionStateCancelled
| QueryExecutionStateOther (s : string).

(** The status of a [GetQueryExecution] response; the reason is a pointer
    and may be nil. *)
Record QueryExecutionStatus : Type := mkStatus {
  State : QueryExecutionState;
  StateChangeReason : option string
}.

Record StartQueryExecutionInput : Type := mkStartInput {
  QueryString : string;
  Database : string;
  Catalog : option string;
  ResultOutputLocation : string;
  WorkGroup : string
}.

(** What the driver does to the outside, in order. *)
Inductive event : Type :=
| EvStartQueryExecution (input : StartQueryExecutionInput)
| EvGetQueryExecution (queryID : string)
| EvStopQueryExecution (queryID : string)
| EvTimeAfter (d : Z)
| EvCtxDone
| EvNewV4.

Definition World : Type := list event.

Definition is_start (e : event) : bool :=
  match e with EvStartQueryExecution _ => true | _ => false end.
Definition is_get (e : event) : bool :=
  match e with EvGetQueryExecution _ => true | _ => false end.
Definition is_stop (e : event) : bool :=
  match e with EvStopQueryExecution _ => true | _ => false end.
Definition is_select (e : event) : bool :=
  match e with EvTimeAfter _ | EvCtxDone => true | _ => false end.
Definition is_uuid (e : event) : bool :=
  match e with EvNewV4 => true | _ => false end.

Definition count (p : event -> bool) (w : World) : nat :=
  List.length (filter p w).

(** The environment answers the n-th call of each kind (counted from 0).
    [env_select n] is the outcome of the n-th wait between two status
    checks: [Some e] when the caller's context is done first, with [e] what
    [ctx.Err] then returns, [None] when the poll timer fires first. *)
Record Env : Type := mkEnv {
  env_StartQueryExecution : nat -> StartQueryExecutionInput -> result string;
  env_GetQueryExecution : nat -> string -> result QueryExecutionStatus;
  env_StopQueryExecution : nat -> string -> option error;
  env_select : nat -> option error;
  env_uuid : nat -> string
}.

(** ** Computations over the log *)

Inductive outcome (A : Type) : Type :=
| Returned (a : A)
| Panicked (msg : string)
| OutOfFuel.
Arguments Returned {A} a.
Arguments Panicked {A} msg.
Arguments OutOfFuel {A}.

Definition M (A : Type) : Type := World -> outcome A * World.

Definition ret {A} (a : A) : M A := fun w => (Returned a, w).

Definition bind {A B} (m : M A) (k : A -> M B) : M B :=
  fun w =>
    match m w with
    | (Returned a, w') => k a w'
    | (Panicked msg, w') => (Panicked msg, w')
    | (OutOfFuel, w') => (OutOfFuel, w')
    end.

Definition panic {A} (msg : string) : M A := fun w => (Panicked msg, w).
Definition out_of_fuel {A} : M A := fun w => (OutOfFuel, w).

(** Perform a call: answer it from the log so far, then record it. *)
Definition call {A} (answer : World -> A) (e : event) : M A :=
  fun w => (Returned (answer w), (w ++ [e])%list).

Declare Scope go_scope.
Delimit Scope go_scope with go.
Notation "x <- m ;; k" := (bind m (fun x => k))
  (at level 61, m at next level, right associativity) : go_scope.
Local Open Scope go_scope.

Section Driver.

Variable env : Env.

Definition StartQueryExecution (input : StartQueryExecutionInput)
  : M (result string) :=
  call (fun w => env_StartQueryExecution env (count is_start w) input)
       (EvStartQueryExecution input).

Definition GetQueryExecution (queryID : string)
  : M (result QueryExecutionStatus) :=
  call (fun w => env_GetQueryExecution env (count is_get w) queryID)
       (EvGetQueryExecution queryID).

Definition StopQueryExecution (queryID : string) : M (option error) :=
  call (fun w => env_StopQueryExecution env (count is_stop w) queryID)
       (EvStopQueryExecution queryID).

(** The [select] of [waitOnQuery] between [ctx.Done] and [time.After d]. *)
Definition select_Done_or_After (d : Z) : M (option error) :=
  fun w =>
    match env_select env (count is_select w) with
    | Some e => (Returned (Some e), (w ++ [EvCtxDone])%list)
    | None => (Returned None, (w ++ [EvTimeAfter d])%list)
    end.

(** [uuid.NewV4().String()] *)
Definition uuid_NewV4 : M string :=
  call (fun w => env_uuid env (count is_uuid w)) EvNewV4.

(** [startQuery] starts a query and returns its ID. *)
Definition startQuery (c : conn) (ctx : context) (query : string)
  : M (result string) :=
  let catalog := match getCatalog ctx with
                 | Some cat => cat
                 | None => catalog c
                 end in
  let catalogPtr := if String.eqb catalog "" then None else Some catalog in
  StartQueryExecution
    (mkStartInput query (db c) catalogPtr (OutputLocation c) (workgroup c)).

(** [waitOnQuery] polls until the query finishes; [fuel] bounds the number
    of status checks. *)
Fixpoint waitOnQuery (fuel : nat) (c : conn) (ctx : context)
    (queryID : string) : M (option error) :=
  match fuel with
  | O => out_of_fuel
  | S fuel' =>
    statusResp <- GetQueryExecution queryID ;;
    match statusResp with
    | Err err => ret (Some err)
    | Ok status =>
      match State status with
      | QueryExecutionStateCancelled => ret (Some context_Canceled)
      | QueryExecutionStateFailed =>
        match StateChangeReason status with
        | None => panic "nil pointer dereference"
        | Some reason => ret (Some (errors_New reason))
        end
      | QueryExecutionStateSucceeded => ret None
      | _ =>
        done <- select_Done_or_After (pollFrequency c) ;;
        match done with
        | Some ctxErr =>
          _ <- StopQueryExecution queryID ;;
          ret (Some ctxErr)
        | None => waitOnQuery fuel' c ctx queryID
        end
      end
    end
  end.

(** The closure [dropCTASTable] returns. *)
Definition dropCTASTable (fuel : nat) (c : conn) (ctx : context)
    (table : string) : M (option error) :=
  let query := "DROP TABLE " ++ table in
  r <- startQuery c ctx query ;;
  match r with
  | Err err => ret (Some err)
  | Ok queryID => waitOnQuery fuel c ctx queryID
  end.

(** [strings.Replace(s, "-", "", -1)] *)
Fixpoint remove_dashes (s : string) : string :=
  match s with
  | EmptyString => EmptyString
  | String c s' =>
    if Ascii.eqb c "-"%char then remove_dashes s'
    else String c (remove_dashes s')
  end.

(** [strings.Split(s, "?")] *)
Fixpoint split_question (s : string) : list string :=
  match s with
  | EmptyString => [EmptyString]
  | String c s' =>
    if Ascii.eqb c "?"%char then EmptyString :: split_question s'
    else match split_question s' with
         | h :: t => String c h :: t
         | [] => [String c EmptyString]
         end
  end.

(** The result-mode block of [runQuery]: the override of the context is
    validated and replaces the default of the connection, and everything
    but a SELECT is forced to the API mode. *)
Definition runQuery_resultMode (c : conn) (ctx : context) (query : string)
  : result ResultMode :=
  let isSelect := isSelectQuery query in
  match getResultMode ctx with
  | Some rmode =>
    if negb (isValidResultMode rmode) then Err ErrInvalidResultMode
    else Ok (if negb isSelect then ResultModeAPI else rmode)
  | None => Ok (if negb isSelect then ResultModeAPI else resultMode c)
  end.

(** The result-mode block of [prepareContext]. *)
Definition prepareContext_resultMode (c : conn) (ctx : context)
    (query : string) : ResultMode :=
  let isSelect := isSelectQuery query in
  let resultMode := match getResultMode ctx with
                    | Some rmode => rmode
                    | None => resultMode c
                    end in
  if negb isSelect then ResultModeAPI else resultMode.

(** The fields of the [rowsConfig] that [runQuery] builds (the client and
    its configuration are the environment). *)
Record rowsConfig : Type := mkRowsConfig {
  cfg_QueryID : string;
  cfg_SkipHeader : bool;
  cfg_ResultMode : ResultMode;
  cfg_OutputLocation : string;
  cfg_Timeout : Z;
  cfg_AfterDownload : option (M (option error));
  cfg_CTASTable : string;
  cfg_DB : string;
  cfg_Catalog : string
}.

Record stmtAthena : Type := mkStmt {
  stmt_prepareKey : string;
  stmt_numInput : Z;
  stmt_ctasTable : string;
  stmt_afterDownload : option (M (option error));
  stmt_conn : conn;
  stmt_resultMode : ResultMode
}.

(** The CTAS block shared by [runQuery] and [prepareContext]: the table
    name, the rewritten query and the cleanup. *)
Definition ctasBlock (fuel : nat) (c : conn) (ctx : context)
    (isSelect : bool) (resultMode : ResultMode) (query : string)
  : M (string * string * option (M (option error))) :=
  if isCreatingCTASTable isSelect resultMode then
    u <- uuid_NewV4 ;;
    let ctasTable := "tmp_ctas_" ++ remove_dashes u in
    let query := "CREATE TABLE " ++ ctasTable
                 ++ " WITH (format='TEXTFILE') AS " ++ query in
    ret (ctasTable, query, Some (dropCTASTable fuel c ctx ctasTable))
  else ret (EmptyString, query, None).

Section RunQuery.

(** The functions [checkOutputLocation], [getOutputLocation] and [newRows]
    are declared outside these sources and stay parameters. *)
Variable Rows : Type.
Variable checkOutputLocation : ResultMode -> string -> bool.
Variable getOutputLocation : string -> M (string * option error).
Variable newRows : rowsConfig -> M (result Rows).

Definition runQuery (fuel : nat) (c : conn) (ctx : context) (query : string)
  : M (conn * result Rows) :=
  (* result mode *)
  let isSelect := isSelectQuery query in
  match runQuery_resultMode c ctx query with
  | Err err => ret (c, Err err)
  | Ok resultMode =>
    (* timeout *)
    let timeout := match getTimeout ctx with
                   | Some to => to
                   | None => timeout c
                   end in
    (* catalog *)
    let catalog := match getCatalog ctx with
                   | Some cat => cat
                   | None => catalog c
                   end in
    (* output location (with empty value) *)
    located <-
      (if checkOutputLocation resultMode (OutputLocation c) then
         l <- getOutputLocation (workgroup c) ;;
         ret (set_OutputLocation c (fst l), snd l)
       else ret (c, None)) ;;
    match located with
    | (c, Some err) => ret (c, Err err)
    | (c, None) =>
      (* mode ctas *)
      ctas <- ctasBlock fuel c ctx isSelect resultMode query ;;
      let '(ctasTable, query, afterDownload) := ctas in
      started <- startQuery c ctx query ;;
      match started with
      | Err err => ret (c, Err err)
      | Ok queryID =>
        waited <- waitOnQuery fuel c ctx queryID ;;
        match waited with
        | Some err => ret (c, Err err)
        | None =>
          rows <- newRows (mkRowsConfig queryID (negb (isDDLQuery query))
                             resultMode (OutputLocation c) timeout
                             afterDownload ctasTable (db c) catalog) ;;
          ret (c, rows)
        end
      end
    end
  end.

End RunQuery.

Definition prepareContext (fuel : nat) (c : conn) (ctx : context)
    (query : string) : M (result stmtAthena) :=
  (* resultMode *)
  let isSelect := isSelectQuery query in
  let resultMode := prepareContext_resultMode c ctx query in
  (* ctas *)
  ctas <- ctasBlock fuel c ctx isSelect resultMode query ;;
  let '(ctasTable, query, afterDownload) := ctas in
  let numInput := Z.of_nat (List.length (split_question query)) - 1 in
  (* prepare *)
  u <- uuid_NewV4 ;;
  let prepareKey := "tmp_prepare_" ++ remove_dashes u in
  let newQuery := "PREPARE " ++ prepareKey ++ " FROM " ++ query in
  started <- startQuery c ctx newQuery ;;
  match started with
  | Err err => ret (Err err)
  | Ok queryID =>
    waited <- waitOnQuery fuel c ctx queryID ;;
    match waited with
    | Some err => ret (Err err)
    | None =>
      ret (Ok (mkStmt prepareKey numInput ctasTable afterDownload c
                      resultMode))
    end
  end.

End Driver.

(** ** rows_gzip.go: the compressed-download cursor *)

(** Computations that touch no log: they return or panic. *)
Definition obind {A B} (m : outcome A) (k : A -> outcome B) : outcome B :=
  match m with
  | Returned a => k a
  | Panicked msg => Panicked msg
  | OutOfFuel => OutOfFuel
  end.

Declare Scope out_scope.
Delimit Scope out_scope with out.
Notation "x <- m ;; k" := (obind m (fun x => k))
  (at level 61, m at next level, right associativity) : out_scope.

Definition of_fuel {A} (o : option A) : outcome A :=
  match o with
  | Some a => Returned a
  | None => OutOfFuel
  end.

(** The slice expression [s[low:high]] of a string, which panics unless
    [0 <= low <= high <= len(s)]. *)
Definition slice (s : string) (low high : Z) : outcome string :=
  if (0 <=? low) && (low <=? high) && (high <=? len s)
  then Returned (take (Z.to_nat (high - low)) (drop (Z.to_nat low) s))
  else Panicked "slice bounds out of range".

Definition CATALOG_AWS_DATA_CATALOG : string := "AwsDataCatalog".

(** [types.Column]: name and type are pointers. *)
Record Column : Type := mkColumn {
  col_Name : option string;
  col_Type : option string
}.

(** The two fields of [downloadedRows] this file uses. *)
Record downloadedRows : Type := mkDownloadedRows {
  data : list (list string);
  cursor : Z
}.

Record rowsGzipDL : Type := mkRowsGzipDL {
  r_queryID : string;
  r_resultMode : ResultMode;
  r_downloadedRows : option downloadedRows;
  r_ctasTable : string;
  r_db : string;
  r_catalog : string;
  r_ctasTableColumns : list Column
}.

Definition set_downloadedRows (r : rowsGzipDL) (d : option downloadedRows)
  : rowsGzipDL :=
  mkRowsGzipDL (r_queryID r) (r_resultMode r) d (r_ctasTable r) (r_db r)
               (r_catalog r) (r_ctasTableColumns r).

Definition set_ctasTableColumns (r : rowsGzipDL) (cols : list Column)
  : rowsGzipDL :=
  mkRowsGzipDL (r_queryID r) (r_resultMode r) (r_downloadedRows r)
               (r_ctasTable r) (r_db r) (r_catalog r) cols.

(** The object store, the gzip decoder and the catalog, as the download
    sees them: reads that do not change what they read. *)
Record Store : Type := mkStore {
  s3_GetObject : string -> string -> result Reader;
  gzip_NewReader : string -> result Reader;
  athena_GetTableMetadata : string -> string -> string -> result (list Column)
}.

Section Download.

Variable store : Store.
Local Open Scope out_scope.

(** The body of the loop of [downloadCompressedData] for one object key;
    [inl err] is the early return of the function. *)
Definition downloadObject (r : rowsGzipDL) (bucketName objectKey : string)
  : outcome (error + rowsGzipDL) :=
  match s3_GetObject store bucketName objectKey with
  | Err err => Returned (inl err)
  | Ok body =>
    (* Read the object content *)
    match io_ReadAll body with
    | (_, Some err) => Returned (inl err)
    | (content, None) =>
      (* decompress gzip *)
      match gzip_NewReader store content with
      | Err err => Returned (inl err)
      | Ok gzipReader =>
        got <- of_fuel (getRecordsFromGzip gzipReader) ;;
        match got with
        | Err err => Returned (inl err)
        | Ok datas =>
          let rows := match r_downloadedRows r with
                      | None => mkDownloadedRows [] 0
                      | Some d => d
                      end in
          Returned (inr (set_downloadedRows r
            (Some (mkDownloadedRows (data rows ++ datas)%list
                                    (cursor rows)))))
        end
      end
    end
  end.

Fixpoint downloadObjects (r : rowsGzipDL) (bucketName : string)
    (objectKeys : list string) : outcome (rowsGzipDL * option error) :=
  match objectKeys with
  | [] => Returned (r, None)
  | objectKey :: rest =>
    step <- downloadObject r bucketName objectKey ;;
    match step with
    | inl err => Returned (r, Some err)
    | inr r' => downloadObjects r' bucketName rest
    end
  end.

Definition manifestKey (queryID : string) : string :=
  "tables/" ++ queryID ++ "-manifest.csv".

Definition downloadCompressedData (r : rowsGzipDL) (location : string)
  : outcome (rowsGzipDL * option error) :=
  tail <- slice location (len location - 1) (len location) ;;
  location <- (if String.eqb tail "/"
               then slice location 0 (len location - 1)
               else Returned location) ;;
  (* remove the first 5 characters "s3://" from location *)
  bucketName <- slice location 5 (len location) ;;
  (* get gz file path *)
  match s3_GetObject store bucketName (manifestKey (r_queryID r)) with
  | Err err => Returned (r, Some err)
  | Ok body =>
    (* Read the manifest file content *)
    match io_ReadAll body with
    | (_, Some err) => Returned (r, Some err)
    | (content, None) =>
      let start := len location + 1 in
      keys <- of_fuel (getObjectKeysForGzip (strings_NewReader content)
                                            start) ;;
      match keys with
      | Err err => Returned (r, Some err)
      | Ok objectKeys => downloadObjects r bucketName objectKeys
      end
    end
  end.

(** What [getTableAsync] does to the cursor and sends on the channel. *)
Definition getTableAsync (r : rowsGzipDL) : rowsGzipDL * option error :=
  let catalog := if String.eqb (r_catalog r) ""
                 then CATALOG_AWS_DATA_CATALOG else r_catalog r in
  match athena_GetTableMetadata store catalog (r_db r) (r_ctasTable r) with
  | Err err => (r, Some err)
  | Ok columns => (set_ctasTableColumns r columns, None)
  end.

(** The two goroutines of [init]. *)
Inductive worker : Type :=
| Download
| GetTable.

Definition other (w : worker) : worker :=
  match w with
  | Download => GetTable
  | GetTable => Download
  end.

(** What the two [select]s of [init] observe: the deadline of the context
    before any result, one result and then the deadline, or both results,
    [first] being the goroutine whose result arrives first.  After a first
    result that is an error the second [select] does not happen. *)
Inductive schedule : Type :=
| DeadlineFirst
| DeadlineSecond (first : worker)
| BothReceived (first : worker).

(** The cursor once the result of [w] is received: each goroutine writes
    its own field. *)
Definition merge (w : worker) (dl gt : rowsGzipDL) (r : rowsGzipDL)
  : rowsGzipDL :=
  match w with
  | Download => set_downloadedRows r (r_downloadedRows dl)
  | GetTable => set_ctasTableColumns r (r_ctasTableColumns gt)
  end.

Definition sent (w : worker) (dl gt : option error) : option error :=
  match w with
  | Download => dl
  | GetTable => gt
  end.

Local Open Scope go_scope.

(** [init]: a panic of the download goroutine ends the program; otherwise
    the loop receives up to two results, and the cleanup runs after two
    results without error. *)
Definition init (sched : schedule) (r : rowsGzipDL) (cfg : rowsConfig)
  : M (rowsGzipDL * option error) :=
  match downloadCompressedData r (cfg_OutputLocation cfg) with
  | Panicked msg => panic msg
  | OutOfFuel => out_of_fuel
  | Returned (dl, dlErr) =>
    let (gt, gtErr) := getTableAsync r in
    let dropTable r :=
      (* drop ctas table *)
      match cfg_AfterDownload cfg with
      | Some afterDownload =>
        e <- afterDownload ;;
        ret (r, e)
      | None => ret (r, None)
      end in
    match sched with
    | DeadlineFirst => ret (r, Some context_DeadlineExceeded)
    | DeadlineSecond first =>
      let r := merge first dl gt r in
      match sent first dlErr gtErr with
      | Some e => ret (r, Some e)
      | None => ret (r, Some context_DeadlineExceeded)
      end
    | BothReceived first =>
      let r := merge first dl gt r in
      match sent first dlErr gtErr with
      | Some e => ret (r, Some e)
      | None =>
        let r := merge (other first) dl gt r in
        match sent (other first) dlErr gtErr with
        | Some e => ret (r, Some e)
        | None => dropTable r
        end
      end
    end
  end.

Definition newRowsGzipDL (sched : schedule) (cfg : rowsConfig)
  : M (rowsGzipDL * option error) :=
  let r := mkRowsGzipDL (cfg_QueryID cfg) (cfg_ResultMode cfg) None
                        (cfg_CTASTable cfg) (cfg_DB cfg) (cfg_Catalog cfg)
                        [] in
  init sched r cfg.

End Download.

Section Cursor.

(** [convertRowFromTableInfo] is declared outside these sources and stays a
    parameter: from the columns, a row and the destination it gives the
    filled destination and an error or nil. *)
Variable Dest : Type.
Variable convertRowFromTableInfo :
  list Column -> list string -> Dest -> Dest * option error.

Definition nextCTAS (r : rowsGzipDL) (dest : Dest)
  : outcome (rowsGzipDL * Dest * option error) :=
  match r_downloadedRows r with
  | None => Panicked "nil pointer dereference"
  | Some d =>
    if Z.of_nat (List.length (data d)) <=? cursor d
    then Returned (r, dest, Some io_EOF)
    else
      match (if cursor d <? 0 then None
             else nth_error (data d) (Z.to_nat (cursor d))) with
      | None => Panicked "index out of range"
      | Some row =>
        match convertRowFromTableInfo (r_ctasTableColumns r) row dest with
        | (dest, Some err) => Returned (r, dest, Some err)
        | (dest, None) =>
          Returned (set_downloadedRows r
                      (Some (mkDownloadedRows (data d) (cursor d + 1))),
                    dest, None)
        end
      end
  end.

Definition Next (r : rowsGzipDL) (dest : Dest)
  : outcome (rowsGzipDL * Dest * option error) :=
  nextCTAS r dest.

(** Successive calls of [Next], one per destination, as long as none
    panics: the results in order and the final cursor. *)
Fixpoint NextMany (r : rowsGzipDL) (dests : list Dest)
  : outcome (rowsGzipDL * list (option error)) :=
  match dests with
  | [] => Returned (r, [])
  | dest :: rest =>
    obind (Next r dest) (fun '(r', _, e) =>
    obind (NextMany r' rest) (fun '(r'', es) =>
    Returned (r'', e :: es)))
  end.

End Cursor.

(** ** Notions used to state the properties *)

(** A state on which the [switch] of [waitOnQuery] does not return. *)
Definition pending (s : QueryExecutionState) : bool :=
  match s with
  | QueryExecutionStateSucceeded
  | QueryExecutionStateFailed
  | QueryExecutionStateCancelled => false
  | _ => true
  end.

(** [k] rounds of a status check followed by a full poll interval. *)
Fixpoint polls (queryID : string) (d : Z) (k : nat) : list event :=
  match k with
  | O => []
  | S k' => EvGetQueryExecution queryID :: EvTimeAfter d :: polls queryID d k'
  end.

Definition with_stop (env : Env) (stop : nat -> string -> option error)
  : Env :=
  mkEnv (env_StartQueryExecution env) (env_GetQueryExecution env) stop
        (env_select env) (env_uuid env).

(** [newRows] guarded against a call in a mode other than [mode]. *)
Definition onlyMode {Rows : Type} (mode : ResultMode)
    (newRows : rowsConfig -> M (result Rows)) (cfg : rowsConfig)
  : M (result Rows) :=
  if ResultMode_eqb (cfg_ResultMode cfg) mode then newRows cfg
  else panic "newRows called in another mode".

(** The rows a cursor holds, none while its buffer is not allocated. *)
Definition buffer (r : rowsGzipDL) : list (list string) :=
  match r_downloadedRows r with
  | Some d => data d
  | None => []
  end.

(** The object under [key] is fetched and read to its end without error,
    however its body hands the bytes over: [content] are its bytes. *)
Definition readsAs (store : Store) (bucketName key content : string)
  : Prop :=
  exists body,
    s3_GetObject store bucketName key = Ok body
    /\ io_ReadAll body = (content, None).

(** The object under [key] can be fetched, read and decompressed, and
    decodes to [rows]. *)
Definition decodesTo (store : Store) (bucketName key : string)
    (rows : list (list string)) : Prop :=
  exists content gzipReader,
    readsAs store bucketName key content
    /\ gzip_NewReader store content = Ok gzipReader
    /\ getRecordsFromGzip gzipReader = Some (Ok rows).

(** The location once a trailing slash is removed, and the bucket name
    [downloadCompressedData] derives from it. *)
Definition trimmed (location : string) : string :=
  if String.eqb (drop (String.length location - 1) location) "/"
  then take (String.length location - 1) location
  else location.

Definition bucketOf (location : string) : string :=
  drop 5 (trimmed location).

(** The cursor offset does not exceed the length of the buffer. *)
Definition cursorInRange (r : rowsGzipDL) : Prop :=
  match r_downloadedRows r with
  | Some d => cursor d <= Z.of_nat (List.length (data d))
  | None => True
  end.

(** ** Scenarios for concrete runs *)

Module Scenario.

Definition c0 : conn :=
  mkConn "default" "s3://results" "primary" 5 ResultModeGzipDL 60 "".

Definition noOverride : context := mkContext None None None.

Definition badOverride : context :=
  mkContext (Some (ResultModeOther 99)) None None.

(** Every query starts and is seen to have succeeded at the first check. *)
Definition quick : Env :=
  mkEnv (fun _ _ => Ok "q-1")
        (fun _ _ => Ok (mkStatus QueryExecutionStateSucceeded None))
        (fun _ _ => None)
        (fun _ => None)
        (fun _ => "6ba7b810-9dad-11d1-80b4-00c04fd430c8").

(** The status checks answer Queued, Running, Running, Succeeded. *)
Definition fourPolls : Env :=
  mkEnv (fun _ _ => Ok "q-1")
        (fun n _ =>
           Ok (mkStatus
                 (nth n [QueryExecutionStateQueued;
                         QueryExecutionStateRunning;
                         QueryExecutionStateRunning]
                      QueryExecutionStateSucceeded) None))
        (fun _ _ => None)
        (fun _ => None)
        (fun _ => "6ba7b810-9dad-11d1-80b4-00c04fd430c8").

(** The query fails (or is cancelled) remotely. *)
Definition failing (s : QueryExecutionState) : Env :=
  mkEnv (fun _ _ => Ok "q-1")
        (fun _ _ => Ok (mkStatus s (Some "SYNTAX_ERROR: line 1")))
        (fun _ _ => None)
        (fun _ => None)
        (fun _ => "6ba7b810-9dad-11d1-80b4-00c04fd430c8").

(** The query keeps running and the caller's deadline ends the third
    wait; the stop request itself fails. *)
Definition deadline : Env :=
  mkEnv (fun _ _ => Ok "q-1")
        (fun _ _ => Ok (mkStatus QueryExecutionStateRunning None))
        (fun _ _ => Some (external_error "stop failed"))
        (fun n => if (n =? 2)%nat then Some context_DeadlineExceeded
                  else None)
        (fun _ => "6ba7b810-9dad-11d1-80b4-00c04fd430c8").

Definition noRows (cfg : rowsConfig) : M (result unit) := ret (Ok tt).
Definition noLocation (workgroup : string) : M (string * option error) :=
  ret (EmptyString, None).
Definition neverCheck (mode : ResultMode) (location : string) : bool := false.

(** A store with the manifest of the query q-1 and the two objects it
    lists, of three and of two records; the objects are kept uncompressed
    and [gzip_NewReader] hands their bytes on, reporting the end together
    with the last of them as [gzip.Reader] does. *)
Definition line (fields : list string) : string :=
  String.concat (String SOH EmptyString) fields ++ String LF EmptyString.

Definition twoObjects : Store :=
  mkStore
    (fun bucket key =>
       if negb (String.eqb bucket "results") then
         Err (external_error "NoSuchBucket")
       else if String.eqb key "tables/q-1-manifest.csv" then
         Ok (mkReader (line ["s3://results/t1"] ++ line ["s3://results/t2"])
                      None)
       else if String.eqb key "t1" then
         Ok (mkReader (line ["1"; "a"] ++ line ["2"; "b"] ++ line ["3"; "c"])
                      None)
       else if String.eqb key "t2" then
         Ok (mkReader (line ["4"; "d"] ++ line ["5"; "e"]) None)
       else Err (external_error "NoSuchKey"))
    (fun content => Ok (mkReaderCut content None [] true))
    (fun _ _ _ => Ok [mkColumn (Some "id") (Some "int");
                      mkColumn (Some "name") (Some "string")]).

(** A store in which no object can be fetched. *)
Definition noObjects : Store :=
  mkStore (fun _ _ => Err (external_error "NoSuchKey"))
          (fun content => Ok (mkReaderCut content None [] true))
          (fun _ _ _ => Ok [mkColumn (Some "id") (Some "int")]).

(** A store whose catalog does not know the table. *)
Definition noTable : Store :=
  mkStore (s3_GetObject twoObjects) (gzip_NewReader twoObjects)
          (fun _ _ _ => Err (external_error "EntityNotFound")).

Definition r0 : rowsGzipDL :=
  mkRowsGzipDL "q-1" ResultModeGzipDL None "tmp_ctas_1" "default" "" [].

Definition cfg0 (afterDownload : option (M (option error))) : rowsConfig :=
  mkRowsConfig "q-1" false ResultModeGzipDL "s3://results/" 60 afterDownload
               "tmp_ctas_1" "default" "".

(** A conversion that copies the row. *)
Definition copyRow (columns : list Column) (row : list string)
    (dest : list string) : list string * option error :=
  (row, None).

End Scenario.

(** ** conn.go: the entry points *)

Definition with_select (env : Env) (sel : nat -> option error) : Env :=
  mkEnv (env_StartQueryExecution env) (env_GetQueryExecution env)
        (env_StopQueryExecution env) sel (env_uuid env).

(** [context.Background()]: no override, and never done. *)
Definition context_Background : context := mkContext None None None.

Section EntryPoints.

Variable env : Env.

(** [Prepare] runs [prepareContext] under the background context, whose
    [Done] channel is never ready: every wait ends with the poll timer. *)
Definition Prepare (fuel : nat) (c : conn) (query : string)
  : M (result stmtAthena) :=
  prepareContext (with_select env (fun _ => None)) fuel c context_Background
                 query.

(** The method [Close] of [stmtAthena] is declared outside these sources
    and stays a parameter, as does the clock: [ctxErr w] is what [ctx.Err]
    returns once the driver has done what the log [w] says, [None] while
    the context is not done. *)
Variable stmtClose : stmtAthena -> M (option error).
Variable ctxErr : World -> option error.

(** [PrepareContext]: a statement is [None] where the Go interface value
    is nil, and calling [Close] on it panics. *)
Definition PrepareContext (fuel : nat) (c : conn) (ctx : context)
    (query : string) : M (result stmtAthena) :=
  fun w =>
    match ctxErr w with
    | Some err => (Returned (Err err), w)
    | None =>
      match prepareContext env fuel c ctx query w with
      | (Returned prepared, w') =>
        match ctxErr w' with
        | None => (Returned prepared, w')
        | Some err =>
          match prepared with
          | Err _ => (Panicked "nil pointer dereference", w')
          | Ok stmt =>
            bind (stmtClose stmt) (fun _ => ret (Err err)) w'
          end
        end
      | (Panicked msg, w') => (Panicked msg, w')
      | (OutOfFuel, w') => (OutOfFuel, w')
      end
    end.

Section Queries.

Variable Rows : Type.
Variable NamedValue : Type.
Variable checkOutputLocation : ResultMode -> string -> bool.
Variable getOutputLocation : string -> M (string * option error).
Variable newRows : rowsConfig -> M (result Rows).

Definition QueryContext (fuel : nat) (c : conn) (ctx : context)
    (query : string) (args : list NamedValue) : M (conn * result Rows) :=
  if 0 <? Z.of_nat (List.length args) then
    panic "Athena doesn't support prepared statements. Format your own arguments."
  else
    runQuery env Rows checkOutputLocation getOutputLocation newRows
             fuel c ctx query.

(** [ExecContext] returns a nil result and the error of [runQuery]. *)
Definition ExecContext (fuel : nat) (c : conn) (ctx : context)
    (query : string) (args : list NamedValue) : M (conn * option error) :=
  if 0 <? Z.of_nat (List.length args) then
    panic "Athena doesn't support prepared statements. Format your own arguments."
  else
    ran <- runQuery env Rows checkOutputLocation getOutputLocation newRows
                    fuel c ctx query ;;
    ret (fst ran, match snd ran with
                  | Ok _ => None
                  | Err err => Some err
                  end).

End Queries.

End EntryPoints.

(** ** rows_gzip.go: the columns of the cursor *)

(** [Columns]: the names of the columns; a column without a name is a nil
    pointer and its dereference panics. *)
Fixpoint columnNames (cols : list Column) (columns : list string)
  : outcome (list string) :=
  match cols with
  | [] => Returned columns
  | col :: rest =>
    match col_Name col with
    | None => Panicked "nil pointer dereference"
    | Some name => columnNames rest (columns ++ [name])%list
    end
  end.

Definition Columns (r : rowsGzipDL) : outcome (list string) :=
  columnNames (r_ctasTableColumns r) [].

Definition columnTypeDatabaseTypeNameForCTAS (r : rowsGzipDL) (index : Z)
  : outcome string :=
  match (if index <? 0 then None
         else nth_error (r_ctasTableColumns r) (Z.to_nat index)) with
  | None => Panicked "index out of range"
  | Some column =>
    match col_Type column with
    | None => Returned EmptyString
    | Some t => Returned t
    end
  end.

Definition ColumnTypeDatabaseTypeName (r : rowsGzipDL) (index : Z)
  : outcome string :=
  columnTypeDatabaseTypeNameForCTAS r index.

Definition Close (r : rowsGzipDL) : rowsGzipDL * option error := (r, None).

Section Draining.

Variable Dest : Type.
Variable convertRowFromTableInfo :
  list Column -> list string -> Dest -> Dest * option error.

(** Up to [n] calls of [Next] on one destination, each made only when the
    one before returned no error, the way a caller drains a cursor: the
    cursor and the destination at the end, and the error that ended the
    calls, if any. *)
Fixpoint NextUntil (n : nat) (r : rowsGzipDL) (dest : Dest)
  : outcome (rowsGzipDL * Dest * option error) :=
  match n with
  | O => Returned (r, dest, None)
  | S n' =>
    obind (Next Dest convertRowFromTableInfo r dest) (fun '(r', dest', e) =>
    match e with
    | Some err => Returned (r', dest', Some err)
    | None => NextUntil n' r' dest'
    end)
  end.

End Draining.

(** ** Further notions used to state properties *)

(** The UTF-8 text of a sequence of runes. *)
Definition encodeRunes (rs : list Z) : string :=
  fold_right (fun r s => utf8.string_of_rune r ++ s) EmptyString rs.

(** A code point that [string(r)] encodes as itself. *)
Definition validRune (r : Z) : Prop :=
  0 <= r <= 1114111 /\ ~ (55296 <= r <= 57343).

(** Well-formed UTF-8 text without the field separator U+0001 and without
    a newline. *)
Definition goodRune (r : Z) : Prop := validRune r /\ r <> 1 /\ r <> 10.

Definition fieldText (s : string) : Prop :=
  exists rs, s = encodeRunes rs /\ Forall goodRune rs.

(** Well-formed UTF-8 text without the field separator. *)
Definition separatorFree (s : string) : Prop :=
  exists rs, s = encodeRunes rs /\ Forall (fun r => validRune r /\ r <> 1) rs.

Fixpoint endsWith (c : ascii) (s : string) : bool :=
  match s with
  | EmptyString => false
  | String c' EmptyString => Ascii.eqb c' c
  | String _ s' => endsWith c s'
  end.

Fixpoint contains (c : ascii) (s : string) : bool :=
  match s with
  | EmptyString => false
  | String c' s' => Ascii.eqb c' c || contains c s'
  end.

(** A record as the compressed export writes it: the fields joined by
    U+0001, then a newline. *)
Definition joinFields (fields : list string) : string :=
  String.concat (String SOH EmptyString) fields.

Definition encodeRecord (fields : list string) : string :=
  joinFields fields ++ String LF EmptyString.

Definition encodeRecords (rows : list (list string)) : string :=
  fold_right (fun row s => encodeRecord row ++ s) EmptyString rows.

(** A row that the export can write on one line and the scanner can read
    back: fields of text, a line that is not empty, does not end in a
    carriage return and fits the buffer of the scanner. *)
Definition exportableRow (row : list string) : Prop :=
  Forall fieldText row
  /\ joinFields row <> EmptyString
  /\ endsWith CR (joinFields row) = false
  /\ len (joinFields row) < bufio.MaxScanTokenSize.

(** The first line of [s] does not fit the buffer of the scanner: its
    newline lies beyond the buffer, or there is none and the buffer is
    full before the scanner learns of the end of the input.  A reader that
    reports its end together with the last bytes lets an unterminated line
    of exactly the size of the buffer through. *)
Definition tooLong (eager : bool) (s : string) : Prop :=
  match bufio.index_newline s with
  | Some i => bufio.MaxScanTokenSize <= Z.of_nat i
  | None => if eager then bufio.MaxScanTokenSize < len s
            else bufio.MaxScanTokenSize <= len s
  end.

(** The lines of a text as the scanner cuts them: one for each newline and
    one for what follows the last newline unless that is empty, each
    without the carriage return at its end. *)
Fixpoint linesFrom (cur s : string) : list string :=
  match s with
  | EmptyString =>
    match cur with
    | EmptyString => []
    | _ => [bufio.dropCR cur]
    end
  | String c s' =>
    if Ascii.eqb c LF then bufio.dropCR cur :: linesFrom EmptyString s'
    else linesFrom (cur ++ String c EmptyString) s'
  end.

Definition linesOf (s : string) : list string := linesFrom EmptyString s.

(** The runes of a line cut into fields at U+0001. *)
Fixpoint splitRunes (rs cur : list Z) : list (list Z) :=
  match rs with
  | [] => [cur]
  | r :: rs' =>
    if r =? 1 then cur :: splitRunes rs' []
    else splitRunes rs' (cur ++ [r])%list
  end.

(** The record of a line: its runes as [utf8.DecodeRune] reads them, one
    U+FFFD for each ill-formed byte, cut at U+0001, each field encoded
    again; the empty line reads as one U+FFFD. *)
Definition recordOf (line : string) : list string :=
  map encodeRunes
      (splitRunes (match line with
                   | EmptyString => [utf8.RuneError]
                   | _ => utf8.runes line
                   end) []).

(** A line of a manifest: no newline inside, no carriage return at the end,
    and short enough for the scanner. *)
Definition manifestLine (s : string) : Prop :=
  contains LF s = false
  /\ endsWith CR s = false
  /\ len s < bufio.MaxScanTokenSize.

Definition encodeLines (lines : list string) : string :=
  fold_right (fun l s => l ++ String LF s) EmptyString lines.

(** What [getObjectKeysForGzip] keeps of a line. *)
Definition objectKeyOf (start : Z) (k : string) : string :=
  if (0 <? start) && (start <? len k) then drop (Z.to_nat start) k else k.

(** Fetching or decoding the object under [key] fails with [err]: at the
    request, while its body is read, at the gzip header, or in the
    decoder. *)
Definition objectFails (store : Store) (bucketName key : string)
    (err : error) : Prop :=
  s3_GetObject store bucketName key = Err err
  \/ (exists body content,
        s3_GetObject store bucketName key = Ok body
        /\ io_ReadAll body = (content, Some err))
  \/ (exists content,
        readsAs store bucketName key content
        /\ gzip_NewReader store content = Err err)
  \/ (exists content gzipReader,
        readsAs store bucketName key content
        /\ gzip_NewReader store content = Ok gzipReader
        /\ getRecordsFromGzip gzipReader = Some (Err err)).

(** The input a scanner has not yet turned into tokens: what its buffer
    holds and what its reader has still to deliver. *)
Definition unscanned (s : bufio.Scanner) : string :=
  bufio.sc_buf s ++ rd_data (bufio.sc_r s).

(** The states a scanner is in between two calls of [Scan] that returned
    true: the window lies within the buffer, the buffer has at most its
    full size, and the sticky error is set only by the read that found the
    end of the input; a reader that reports its end by a read of its own
    did so into a buffer with room left. *)
Definition scanning (s : bufio.Scanner) : Prop :=
  0 <= bufio.sc_start s
  /\ bufio.sc_end s <= bufio.sc_cap s
  /\ bufio.sc_cap s <= bufio.MaxScanTokenSize
  /\ match bufio.sc_err s with
     | None => True
     | Some e => rd_data (bufio.sc_r s) = EmptyString
                 /\ e = rd_end (bufio.sc_r s)
                 /\ (rd_eager (bufio.sc_r s) = false ->
                     bufio.sc_end s < bufio.sc_cap s)
     end.

(** A reader that reports its end with the last bytes has bytes left as
    long as the scanner has not seen the end. *)
Definition eagerLive (s : bufio.Scanner) : Prop :=
  rd_eager (bufio.sc_r s) = true -> bufio.sc_err s = None ->
  rd_data (bufio.sc_r s) <> EmptyString.

(** No token cut off before [tail] shows an error of the reader: the
    reader ends cleanly, or it reports its end by a read of its own and
    has not done so, or [tail] alone fills the buffer. *)
Definition quiet (s : bufio.Scanner) (tail : string) : Prop :=
  notEOF (rd_err (bufio.sc_r s)) = None
  \/ (rd_eager (bufio.sc_r s) = false /\ bufio.sc_err s = None)
  \/ bufio.MaxScanTokenSize <= len tail.

(** Every line of the input fits the buffer of the scanner. *)
Inductive shortLines : string -> Prop :=
| shortLines_last (l : string) :
    contains LF l = false -> len l < bufio.MaxScanTokenSize ->
    shortLines l
| shortLines_more (l rest : string) :
    contains LF l = false -> len l < bufio.MaxScanTokenSize ->
    shortLines rest ->
    shortLines (l ++ String LF rest).

(** How often the byte [c] occurs in [s]. *)
Fixpoint occurrences (c : ascii) (s : string) : nat :=
  match s with
  | EmptyString => O
  | String c' s' =>
    if Ascii.eqb c' c then S (occurrences c s') else occurrences c s'
  end.

Fixpoint replicate (n : nat) (c : ascii) : string :=
  match n with
  | O => EmptyString
  | S n' => String c (replicate n' c)
  end.

(** ** Further scenarios *)

Module Scenario2.

(** The query keeps running and the caller never gives up. *)
Definition running : Env :=
  mkEnv (fun _ _ => Ok "q-1")
        (fun _ _ => Ok (mkStatus QueryExecutionStateRunning None))
        (fun _ _ => None)
        (fun _ => None)
        (fun _ => "6ba7b810-9dad-11d1-80b4-00c04fd430c8").

(** The second status check fails. *)
Definition flaky : Env :=
  mkEnv (fun _ _ => Ok "q-1")
        (fun n _ => if (n =? 1)%nat then Err (external_error "throttled")
                    else Ok (mkStatus QueryExecutionStateRunning None))
        (fun _ _ => None)
        (fun _ => None)
        (fun _ => "6ba7b810-9dad-11d1-80b4-00c04fd430c8").

(** The query fails and the engine gives no reason. *)
Definition noReason : Env :=
  mkEnv (fun _ _ => Ok "q-1")
        (fun _ _ => Ok (mkStatus QueryExecutionStateFailed None))
        (fun _ _ => None)
        (fun _ => None)
        (fun _ => "6ba7b810-9dad-11d1-80b4-00c04fd430c8").

(** The query keeps running and the deadline of the caller passes during
    the second status check: the client is given the context of the caller
    and fails the request. *)
Definition deadlineInCheck : Env :=
  mkEnv (fun _ _ => Ok "q-1")
        (fun n _ =>
           if (n =? 1)%nat then
             Err (external_error
                    "operation error Athena: GetQueryExecution, context deadline exceeded")
           else Ok (mkStatus QueryExecutionStateRunning None))
        (fun _ _ => None)
        (fun _ => None)
        (fun _ => "6ba7b810-9dad-11d1-80b4-00c04fd430c8").

(** The manifest of the query q-1 is empty: the export wrote no object. *)
Definition emptyManifest : Store :=
  mkStore
    (fun bucket key =>
       if String.eqb key "tables/q-1-manifest.csv"
       then Ok (mkReader EmptyString None)
       else Err (external_error "NoSuchKey"))
    (fun content => Ok (mkReaderCut content None [] true))
    (fun _ _ _ => Ok [mkColumn (Some "id") (Some "int")]).

(** The second object of the manifest is not there. *)
Definition secondMissing : Store :=
  mkStore
    (fun bucket key =>
       if String.eqb key "t2" then Err (external_error "NoSuchKey")
       else s3_GetObject Scenario.twoObjects bucket key)
    (gzip_NewReader Scenario.twoObjects)
    (athena_GetTableMetadata Scenario.twoObjects).

End Scenario2.
(** *** The loops of the decoder terminate *)

Lemma DecodeRune_width (b : string) :
  0 <= snd (utf8.DecodeRune b) <= 4 /\
  (b <> EmptyString -> 1 <= snd (utf8.DecodeRune b)).
Proof.
  unfold utf8.DecodeRune.
  repeat match goal with
         | |- context [match ?x with _ => _ end] => destruct x
         end; simpl; split; try lia; intros; try lia; congruence.
Qed.

Lemma length_drop (n : nat) (s : string) :
  String.length (drop n s) = (String.length s - n)%nat.
Proof.
  revert s; induction n as [|n IH]; intros [|c s]; simpl; auto.
Qed.

Lemma decodeRecord_total (fuel : nat) :
  forall b field record,
    (String.length b < fuel)%nat ->
    exists rec', decodeRecord fuel b field record = Some rec'.
Proof.
  induction fuel as [|fuel IH]; intros b field record Hlt; [lia|].
  simpl. destruct (utf8.DecodeRune b) as [r width] eqn:Hd.
  destruct (DecodeRune_width b) as [Hw Hne]. rewrite Hd in Hw, Hne. simpl in Hw, Hne.
  destruct (r =? byte_val SOH);
    (destruct (len b <=? width) eqn:Hle; [eexists; reflexivity|]).
  all: apply IH; rewrite length_drop; apply Z.leb_gt in Hle; unfold len in Hle;
    (assert (Hb : b <> EmptyString) by (intros ->; simpl in Hle; lia));
    specialize (Hne Hb); lia.
Qed.

Lemma index_newline_lt (s : string) (i : nat) :
  bufio.index_newline s = Some i -> (i < String.length s)%nat.
Proof.
  revert i; induction s as [|c s IH]; simpl; intros i H; [discriminate|].
  destruct (Ascii.eqb c LF); [inversion H; lia|].
  destruct (bufio.index_newline s) as [j|]; [|discriminate].
  inversion H; subst. specialize (IH j eq_refl). lia.
Qed.

(** **** Strings *)

Lemma take_drop (n : nat) (s : string) : (take n s ++ drop n s)%string = s.
Proof.
  revert s; induction n as [|n IH]; intros [|c s]; cbn; try reflexivity.
  now rewrite IH.
Qed.

Lemma length_take (n : nat) (s : string) :
  String.length (take n s) = Nat.min n (String.length s).
Proof.
  revert s; induction n as [|n IH]; intros [|c s]; cbn; try reflexivity.
  now rewrite IH.
Qed.

Lemma length_sapp (a b : string) :
  String.length (a ++ b)%string = (String.length a + String.length b)%nat.
Proof. induction a as [|c a IH]; cbn; [reflexivity|now rewrite IH]. Qed.

Lemma sapp_nil_r (s : string) : (s ++ EmptyString)%string = s.
Proof. induction s as [|c s IH]; cbn; [reflexivity|now rewrite IH]. Qed.

Lemma sapp_assoc (a b c : string) :
  ((a ++ b) ++ c)%string = (a ++ (b ++ c))%string.
Proof. induction a as [|x a IH]; cbn; [reflexivity|now rewrite IH]. Qed.

Lemma drop_all (s : string) : drop (String.length s) s = EmptyString.
Proof. induction s as [|c s IH]; [reflexivity|exact IH]. Qed.

(** The first newline cuts a string in one way only. *)
Lemma index_newline_split (s : string) (i : nat) :
  bufio.index_newline s = Some i ->
  s = (take i s ++ String LF (drop (S i) s))%string
  /\ bufio.index_newline (take i s) = None.
Proof.
  revert i; induction s as [|c s IH]; intros i; cbn; [discriminate|].
  destruct (Ascii.eqb c LF) eqn:Hc.
  - intros [= <-]. apply Ascii.eqb_eq in Hc. subst c. split; reflexivity.
  - destruct (bufio.index_newline s) as [j|]; [|discriminate].
    intros [= <-]. destruct (IH j eq_refl) as [Hs Hn]. split.
    + change (String c s
              = String c (take j s ++ String LF (drop (S j) s))%string).
      now rewrite <- Hs.
    + cbn [take bufio.index_newline]. now rewrite Hc, Hn.
Qed.

Lemma index_newline_line (line rest : string) :
  bufio.index_newline line = None ->
  bufio.index_newline (line ++ String LF rest)%string
  = Some (String.length line).
Proof.
  induction line as [|c line IH]; cbn.
  - intros _. reflexivity.
  - destruct (Ascii.eqb c LF); [discriminate|].
    destruct (bufio.index_newline line); [discriminate|].
    intros _. now rewrite IH.
Qed.

(** **** What a read delivers *)

Lemma Read_spec (r : Reader) (n : nat) (chunk : string)
    (err : option error) (r' : Reader) :
  Read r n = (chunk, err, r') ->
  rd_data r = (chunk ++ rd_data r')%string
  /\ rd_err r' = rd_err r
  /\ rd_eager r' = rd_eager r
  /\ (String.length chunk <= n)%nat
  /\ ((0 < n)%nat -> rd_data r <> EmptyString -> chunk <> EmptyString)
  /\ match err with
     | Some e => rd_data r' = EmptyString /\ e = rd_end r
     | None => rd_data r <> EmptyString
               /\ (rd_eager r = true -> rd_data r' <> EmptyString)
     end
  /\ (rd_eager r = false -> rd_data r <> EmptyString -> err = None).
Proof.
  unfold Read. destruct (rd_data r) as [|c content] eqn:Hdata.
  - intros [= <- <- <-]. cbn [String.append String.length].
    repeat split; try reflexivity; try congruence; try lia.
  - set (pick := match rd_cuts r with
                 | [] => (n, [])
                 | c0 :: cuts' =>
                   if (Nat.max 1 c0 <=? n)%nat then (Nat.max 1 c0, cuts')
                   else (n, (Nat.max 1 c0 - n)%nat :: cuts')
                 end).
    assert (Hsize : (fst pick <= n)%nat
                    /\ ((0 < n)%nat -> (0 < fst pick)%nat)).
    { subst pick. destruct (rd_cuts r) as [|c0 cuts']; cbn [fst]; [lia|].
      destruct (Nat.leb_spec (Nat.max 1 c0) n); cbn [fst]; lia. }
    destruct pick as [size cuts]. cbn [fst] in Hsize.
    destruct Hsize as [Hle Hpos].
    intros [= <- <- <-]. cbn [rd_data rd_err rd_eager].
    rewrite take_drop. split; [reflexivity|]. split; [reflexivity|].
    split; [reflexivity|]. split.
    { rewrite length_take. lia. }
    split.
    { intros Hn _ Hempty. specialize (Hpos Hn).
      destruct size; [lia|]. discriminate Hempty. }
    split.
    + destruct (drop size (String c content)) eqn:Hrest.
      * destruct (rd_eager r) eqn:He.
        -- split; reflexivity.
        -- split; [discriminate|]. discriminate.
      * split; [discriminate|]. intros _. discriminate.
    + intros He _. rewrite He.
      destruct (drop size (String c content)); reflexivity.
Qed.

(** **** One turn of the loop of [Scan] *)

Lemma scanLoop_newline (fuel : nat) (s : bufio.Scanner) (i : nat) :
  bufio.index_newline (bufio.sc_buf s) = Some i ->
  bufio.scanLoop (S fuel) s
  = Some (true,
          bufio.mkScanner (bufio.sc_r s) (bufio.sc_cap s)
            (bufio.sc_start s + Z.of_nat (S i))
            (drop (S i) (bufio.sc_buf s))
            (bufio.dropCR (take i (bufio.sc_buf s))) (bufio.sc_err s)).
Proof.
  intros Hi. cbn [bufio.scanLoop]. unfold bufio.ScanLines. rewrite Hi.
  destruct (bufio.sc_buf s) as [|c b] eqn:Hb; [discriminate Hi|].
  assert (Hlen : (0 <? len (String c b)) = true).
  { apply Z.ltb_lt. unfold len. cbn [String.length]. lia. }
  assert (Hz : (len (String c b) =? 0) = false).
  { apply Z.eqb_neq. unfold len. cbn [String.length]. lia. }
  rewrite Hlen, Hz, andb_false_r. cbn [orb]. reflexivity.
Qed.

Lemma scanLoop_atEOF (fuel : nat) (s : bufio.Scanner) (e : error) :
  bufio.index_newline (bufio.sc_buf s) = None ->
  bufio.sc_err s = Some e ->
  bufio.scanLoop (S fuel) s
  = match bufio.sc_buf s with
    | EmptyString =>
      Some (false,
            bufio.mkScanner (bufio.sc_r s) (bufio.sc_cap s) 0 EmptyString
                            EmptyString (bufio.sc_err s))
    | _ =>
      Some (true,
            bufio.mkScanner (bufio.sc_r s) (bufio.sc_cap s)
              (bufio.sc_start s + len (bufio.sc_buf s)) EmptyString
              (bufio.dropCR (bufio.sc_buf s)) (bufio.sc_err s))
    end.
Proof.
  intros Hi He. cbn [bufio.scanLoop]. unfold bufio.ScanLines.
  rewrite Hi, He, orb_true_r. cbn [andb].
  destruct (bufio.sc_buf s) as [|c b] eqn:Hb.
  - reflexivity.
  - assert (Hz : (len (String c b) =? 0) = false).
    { apply Z.eqb_neq. unfold len. cbn [String.length]. lia. }
    rewrite Hz. rewrite drop_all. reflexivity.
Qed.

Lemma scanLoop_more (fuel : nat) (s : bufio.Scanner) :
  bufio.index_newline (bufio.sc_buf s) = None ->
  bufio.sc_err s = None ->
  bufio.scanLoop (S fuel) s
  = let s1 := bufio.shift
                (bufio.mkScanner (bufio.sc_r s) (bufio.sc_cap s)
                   (bufio.sc_start s) (bufio.sc_buf s)
                   (if 0 <? len (bufio.sc_buf s) then EmptyString
                    else bufio.sc_token s) None) in
    match bufio.grow s1 with
    | None =>
      Some (false,
            bufio.mkScanner (bufio.sc_r s1) (bufio.sc_cap s1)
              (bufio.sc_start s1) (bufio.sc_buf s1) (bufio.sc_token s1)
              (Some bufio_ErrTooLong))
    | Some s2 => bufio.scanLoop fuel (bufio.fill s2)
    end.
Proof.
  destruct s as [r cap start buf token err].
  cbn [bufio.sc_r bufio.sc_cap bufio.sc_start bufio.sc_buf bufio.sc_token
       bufio.sc_err].
  intros Hi ->. cbn [bufio.scanLoop]. unfold bufio.ScanLines.
  cbn [bufio.sc_r bufio.sc_cap bufio.sc_start bufio.sc_buf bufio.sc_token
       bufio.sc_err].
  rewrite Hi, orb_false_r. cbn [andb].
  destruct (0 <? len buf) eqn:Hlen.
  - cbn [drop Z.of_nat
         bufio.sc_r bufio.sc_cap bufio.sc_start bufio.sc_buf bufio.sc_token
         bufio.sc_err].
    rewrite Z.add_0_r. cbv zeta.
    destruct (bufio.grow _) as [s2|]; [reflexivity|].
    unfold bufio.shift. destruct (_ && _); reflexivity.
  - cbv zeta. destruct (bufio.grow _) as [s2|]; [reflexivity|].
    unfold bufio.shift. destruct (_ && _); reflexivity.
Qed.

Lemma len_nonneg (s : string) : 0 <= len s.
Proof. unfold len. lia. Qed.

Lemma len_sapp (a b : string) : len (a ++ b)%string = len a + len b.
Proof. unfold len. rewrite length_sapp. lia. Qed.

(** A turn of the loop that finds no token and no end of the input: either
    the buffer has its full size and is full, and [Scan] gives up, or one
    read is appended to the buffer and the loop goes on. *)
Lemma scanLoop_reads (fuel : nat) (s : bufio.Scanner) :
  scanning s ->
  bufio.index_newline (bufio.sc_buf s) = None ->
  bufio.sc_err s = None ->
  (bufio.sc_start s = 0
   /\ len (bufio.sc_buf s) = bufio.MaxScanTokenSize
   /\ exists s',
        bufio.scanLoop (S fuel) s = Some (false, s')
        /\ bufio.sc_err s' = Some bufio_ErrTooLong)
  \/ (exists (n : nat) (chunk : string) (err : option error) (s3 : bufio.Scanner),
        (0 < n)%nat
        /\ Read (bufio.sc_r s) n = (chunk, err, bufio.sc_r s3)
        /\ bufio.scanLoop (S fuel) s = bufio.scanLoop fuel s3
        /\ bufio.sc_buf s3 = (bufio.sc_buf s ++ chunk)%string
        /\ bufio.sc_err s3 = err
        /\ 0 <= bufio.sc_start s3
        /\ bufio.sc_start s3 + len (bufio.sc_buf s) < bufio.sc_cap s3
        /\ bufio.sc_end s3 <= bufio.sc_cap s3
        /\ bufio.sc_cap s3 <= bufio.MaxScanTokenSize).
Proof.
  intros (Hstart & Hend & Hcap & _) Hi He.
  rewrite (scanLoop_more fuel s Hi He). cbv zeta.
  destruct s as [r cap start buf token err].
  unfold bufio.sc_end in *.
  cbn [bufio.sc_r bufio.sc_cap bufio.sc_start bufio.sc_buf bufio.sc_token
       bufio.sc_err] in *.
  subst err. pose proof (len_nonneg buf) as Hlen.
  change bufio.MaxScanTokenSize with 65536 in *.
  unfold bufio.shift, bufio.sc_end.
  cbn [bufio.sc_r bufio.sc_cap bufio.sc_start bufio.sc_buf bufio.sc_token
       bufio.sc_err].
  set (token' := if 0 <? len buf then EmptyString else token).
  assert (Hfill : forall start' cap',
    0 <= start' -> start' + len buf < cap' -> cap' <= 65536 ->
    exists (n : nat) (chunk : string) (err : option error)
           (s3 : bufio.Scanner),
      (0 < n)%nat
      /\ Read r n = (chunk, err, bufio.sc_r s3)
      /\ bufio.scanLoop fuel
           (bufio.fill (bufio.mkScanner r cap' start' buf token' None))
         = bufio.scanLoop fuel s3
      /\ bufio.sc_buf s3 = (buf ++ chunk)%string
      /\ bufio.sc_err s3 = err
      /\ 0 <= bufio.sc_start s3
      /\ bufio.sc_start s3 + len buf < bufio.sc_cap s3
      /\ bufio.sc_start s3 + len (bufio.sc_buf s3) <= bufio.sc_cap s3
      /\ bufio.sc_cap s3 <= 65536).
  { intros start' cap' H0 H1 H2. unfold bufio.fill, bufio.sc_end.
    cbn [bufio.sc_r bufio.sc_cap bufio.sc_start bufio.sc_buf bufio.sc_token
         bufio.sc_err].
    destruct (Read r (Z.to_nat (cap' - (start' + len buf))))
      as [[chunk err] r'] eqn:Hread.
    exists (Z.to_nat (cap' - (start' + len buf))), chunk, err.
    exists (bufio.mkScanner r' cap' start' (buf ++ chunk) token' err).
    cbn [bufio.sc_r bufio.sc_cap bufio.sc_start bufio.sc_buf bufio.sc_token
         bufio.sc_err].
    split; [lia|]. split; [exact Hread|].
    split; [destruct err; reflexivity|].
    split; [reflexivity|]. split; [reflexivity|].
    split; [exact H0|]. split; [exact H1|]. split; [|exact H2].
    destruct (Read_spec _ _ _ _ _ Hread) as (_ & _ & _ & Hchunk & _).
    rewrite len_sapp. unfold len at 2. lia. }
  destruct ((0 <? start) && ((start + len buf =? cap) || (cap / 2 <? start)))
    eqn:Hshift.
  - (* shifted *)
    apply andb_true_iff in Hshift. destruct Hshift as [Hpos _].
    apply Z.ltb_lt in Hpos. right. unfold bufio.grow, bufio.sc_end.
    cbn [bufio.sc_r bufio.sc_cap bufio.sc_start bufio.sc_buf bufio.sc_token
         bufio.sc_err].
    destruct (Z.eqb_spec (0 + len buf) cap) as [Hfull|Hfull]; [lia|].
    apply Hfill; lia.
  - unfold bufio.grow, bufio.sc_end.
    cbn [bufio.sc_r bufio.sc_cap bufio.sc_start bufio.sc_buf bufio.sc_token
         bufio.sc_err].
    destruct (Z.eqb_spec (start + len buf) cap) as [Hfull|Hfull].
    + assert (Hs0 : start = 0).
      { cbn [orb] in Hshift. rewrite andb_true_r in Hshift.
        apply Z.ltb_ge in Hshift. lia. }
      subst start. change bufio.MaxScanTokenSize with 65536.
      destruct (Z.leb_spec 65536 cap) as [Hmax|Hmax].
      * left. split; [reflexivity|]. split; [lia|].
        eexists. split; reflexivity.
      * right. apply Hfill; [lia| |].
        -- destruct (Z.eqb_spec (cap * 2) 0); unfold bufio.startBufSize; lia.
        -- lia.
    + right. apply Hfill; lia.
Qed.

(** **** [Scan] returns *)

Lemma NewScanner_scanning (r : Reader) : scanning (bufio.NewScanner r).
Proof.
  unfold scanning, bufio.sc_end. cbn. change bufio.MaxScanTokenSize with 65536.
  repeat split; lia.
Qed.

(** The scanner after a read that was appended to the buffer. *)
Lemma scanning_read (s s3 : bufio.Scanner) (n : nat) (chunk : string)
    (err : option error) :
  Read (bufio.sc_r s) n = (chunk, err, bufio.sc_r s3) ->
  bufio.sc_buf s3 = (bufio.sc_buf s ++ chunk)%string ->
  bufio.sc_err s3 = err ->
  0 <= bufio.sc_start s3 ->
  bufio.sc_start s3 + len (bufio.sc_buf s) < bufio.sc_cap s3 ->
  bufio.sc_end s3 <= bufio.sc_cap s3 ->
  bufio.sc_cap s3 <= bufio.MaxScanTokenSize ->
  scanning s3 /\ eagerLive s3.
Proof.
  intros Hread Hbuf Herr H0 Hroom H1 H2.
  destruct (Read_spec _ _ _ _ _ Hread)
    as (Hdata & Hre & Heg & _ & _ & He & Hlazy).
  split.
  - unfold scanning. split; [exact H0|]. split; [exact H1|].
    split; [exact H2|].
    rewrite Herr. destruct err as [e|]; [|exact I].
    destruct He as [Hd ->]. split; [exact Hd|]. split.
    + unfold rd_end. now rewrite Hre.
    + intros Hnot. rewrite Heg in Hnot.
      assert (Hempty : rd_data (bufio.sc_r s) = EmptyString).
      { destruct (rd_data (bufio.sc_r s)) eqn:Hrd; [reflexivity|].
        specialize (Hlazy Hnot ltac:(discriminate)). discriminate. }
      rewrite Hempty in Hdata. destruct chunk; [|discriminate].
      unfold bufio.sc_end. rewrite Hbuf, sapp_nil_r. exact Hroom.
  - unfold eagerLive. rewrite Herr, Heg. intros Heager Hnone. rewrite Hnone in He.
    destruct He as [_ He]. exact (He Heager).
Qed.

Lemma scanLoop_total (fuel : nat) :
  forall s,
    scanning s ->
    (match bufio.sc_err s with
     | None => 2 + String.length (rd_data (bufio.sc_r s))
     | Some _ => 1
     end <= fuel)%nat ->
    exists res, bufio.scanLoop fuel s = Some res.
Proof.
  induction fuel as [|fuel IH]; intros s Hs Hfuel.
  - destruct (bufio.sc_err s); lia.
  - destruct (bufio.index_newline (bufio.sc_buf s)) as [i|] eqn:Hi.
    + rewrite (scanLoop_newline fuel s i Hi). eexists; reflexivity.
    + destruct (bufio.sc_err s) as [e|] eqn:He.
      * rewrite (scanLoop_atEOF fuel s e Hi He).
        destruct (bufio.sc_buf s); eexists; reflexivity.
      * destruct (scanLoop_reads fuel s Hs Hi He)
          as [(_ & _ & s' & Hstop & _)
             | (n & chunk & err & s3 & Hn & Hread & Hloop & Hbuf & Herr
                & H0 & Hroom & H1 & H2)].
        -- rewrite Hstop. eexists; reflexivity.
        -- rewrite Hloop. apply IH.
           ++ exact (proj1 (scanning_read s s3 n chunk err Hread Hbuf Herr
                              H0 Hroom H1 H2)).
           ++ destruct (Read_spec _ _ _ _ _ Hread)
                as (Hdata & _ & _ & _ & Hne & Hend & _).
              rewrite Herr. destruct err as [e|]; [lia|].
              destruct Hend as [Hd _]. specialize (Hne Hn Hd).
              rewrite Hdata, length_sapp in Hfuel.
              destruct chunk; [congruence|]. cbn [String.length] in Hfuel.
              lia.
Qed.

Lemma Scan_total (s : bufio.Scanner) :
  scanning s -> exists res, bufio.Scan s = Some res.
Proof.
  intros Hs. apply scanLoop_total; [exact Hs|].
  destruct (bufio.sc_err s); lia.
Qed.

(** **** What a token is *)

(** A [Scan] that returns true has cut the next line off the input: the
    token is that line without its carriage return, and either a newline
    followed it, and line and newline fitted the buffer, or it was the
    unterminated rest, found in the buffer when the input was at its
    end. *)
Lemma scanLoop_true (fuel : nat) :
  forall s s',
    scanning s ->
    bufio.scanLoop fuel s = Some (true, s') ->
    scanning s'
    /\ rd_err (bufio.sc_r s') = rd_err (bufio.sc_r s)
    /\ rd_eager (bufio.sc_r s') = rd_eager (bufio.sc_r s)
    /\ 0 < bufio.sc_start s'
    /\ (eagerLive s -> eagerLive s')
    /\ exists line,
         bufio.sc_token s' = bufio.dropCR line
         /\ bufio.index_newline line = None
         /\ ((unscanned s = (line ++ String LF (unscanned s'))%string
              /\ len line < bufio.MaxScanTokenSize
              /\ (rd_eager (bufio.sc_r s) = false ->
                  bufio.sc_err s = None -> bufio.sc_err s' = None))
             \/ (unscanned s = line /\ line <> EmptyString
                 /\ unscanned s' = EmptyString
                 /\ bufio.sc_err s' <> None
                 /\ len line <= bufio.MaxScanTokenSize
                 /\ (rd_eager (bufio.sc_r s) = false ->
                     len line < bufio.MaxScanTokenSize))).
Proof.
  induction fuel as [|fuel IH]; intros s s' Hs; [discriminate|].
  destruct (bufio.index_newline (bufio.sc_buf s)) as [i|] eqn:Hi.
  - rewrite (scanLoop_newline fuel s i Hi). intros Heq.
    assert (Hs' : s' = bufio.mkScanner (bufio.sc_r s) (bufio.sc_cap s)
                         (bufio.sc_start s + Z.of_nat (S i))
                         (drop (S i) (bufio.sc_buf s))
                         (bufio.dropCR (take i (bufio.sc_buf s)))
                         (bufio.sc_err s)) by congruence.
    clear Heq. subst s'.
    unfold scanning, bufio.sc_end in Hs. destruct Hs as (H0 & H1 & H2 & H3).
    pose proof (index_newline_lt _ _ Hi) as Hlt.
    destruct (index_newline_split _ _ Hi) as [Hsplit Hnone].
    assert (Hend : bufio.sc_start s + Z.of_nat (S i)
                   + len (drop (S i) (bufio.sc_buf s))
                   = bufio.sc_start s + len (bufio.sc_buf s)).
    { unfold len. rewrite length_drop. lia. }
    unfold scanning, unscanned, eagerLive, bufio.sc_end.
    cbn [bufio.sc_r bufio.sc_cap bufio.sc_start bufio.sc_buf bufio.sc_token
         bufio.sc_err].
    rewrite Hend.
    split; [|split; [reflexivity|split; [reflexivity|split; [lia|]]]].
    + split; [lia|]. split; [exact H1|]. split; [exact H2|exact H3].
    + split; [auto|].
      exists (take i (bufio.sc_buf s)). split; [reflexivity|].
      split; [exact Hnone|]. left. split; [|split; [|auto]].
      * rewrite Hsplit at 1. rewrite sapp_assoc. reflexivity.
      * unfold len in *. rewrite length_take. lia.
  - destruct (bufio.sc_err s) as [e|] eqn:He.
    + rewrite (scanLoop_atEOF fuel s e Hi He).
      destruct (bufio.sc_buf s) as [|c b] eqn:Hb; [discriminate|].
      intros Heq.
      assert (Hs' : s' = bufio.mkScanner (bufio.sc_r s) (bufio.sc_cap s)
                           (bufio.sc_start s + len (String c b)) EmptyString
                           (bufio.dropCR (String c b)) (bufio.sc_err s))
        by congruence.
      clear Heq. subst s'.
      unfold scanning, bufio.sc_end in Hs. destruct Hs as (H0 & H1 & H2 & H3).
      rewrite He in H3. destruct H3 as (Hd & Hend & Hroom).
      unfold scanning, unscanned, eagerLive, bufio.sc_end.
      cbn [bufio.sc_r bufio.sc_cap bufio.sc_start bufio.sc_buf
           bufio.sc_token bufio.sc_err].
      rewrite Hb in H1, Hroom. rewrite Hd, He.
      assert (Hpos : 0 < len (String c b))
        by (unfold len; cbn [String.length]; lia).
      change (len EmptyString) with 0.
      split; [|split; [reflexivity|split; [reflexivity|split; [lia|]]]].
      * split; [lia|]. split; [lia|]. split; [exact H2|].
        split; [reflexivity|]. split; [exact Hend|].
        intros Hlazy. specialize (Hroom Hlazy). lia.
      * split; [discriminate|].
        exists (String c b). split; [reflexivity|]. split; [exact Hi|].
        right. rewrite sapp_nil_r.
        split; [exact Hb|]. split; [discriminate|]. split; [reflexivity|].
        split; [discriminate|]. split; [lia|].
        intros Hlazy. specialize (Hroom Hlazy). lia.
    + destruct (scanLoop_reads fuel s Hs Hi He)
        as [(_ & _ & s1 & Hstop & _)
           | (n & chunk & err & s3 & Hn & Hread & Hloop & Hbuf & Herr
              & H0 & Hroom & H1 & H2)].
      * rewrite Hstop. discriminate.
      * rewrite Hloop. intros Htrue.
        destruct (scanning_read s s3 n chunk err Hread Hbuf Herr H0 Hroom
                    H1 H2) as [Hs3 Hlive3].
        destruct (IH s3 s' Hs3 Htrue)
          as (Hs' & Hre & Heg & Hst & Hlive & line & Htok & Hnone & HL).
        destruct (Read_spec _ _ _ _ _ Hread)
          as (Hdata & Hre' & Heg' & _ & _ & Hend & Hlazy).
        split; [exact Hs'|]. split; [congruence|]. split; [congruence|].
        split; [exact Hst|]. split; [auto|]. exists line.
        split; [exact Htok|]. split; [exact Hnone|].
        assert (Hun : unscanned s3 = unscanned s).
        { unfold unscanned. rewrite Hbuf, Hdata, sapp_assoc. reflexivity. }
        rewrite Hun, Heg' in HL.
        destruct HL as [(Hu & Hlen & Hkeep) | (Hu & Hne & Hu' & He' & Hlen)].
        -- left. split; [exact Hu|]. split; [exact Hlen|].
           intros Hnot _. apply Hkeep; [exact Hnot|].
           rewrite Herr. destruct err as [e|]; [|reflexivity].
           destruct Hend as [Hd' _].
           assert (Hempty : rd_data (bufio.sc_r s) = EmptyString).
           { destruct (rd_data (bufio.sc_r s)) eqn:Hrd; [reflexivity|].
             specialize (Hlazy Hnot ltac:(discriminate)). discriminate. }
           (* the read found the end: the buffer holds a line and a
              newline that the turn before did not see *)
           exfalso. rewrite Hempty in Hdata. destruct chunk; [|discriminate].
           assert (Hsame : unscanned s = bufio.sc_buf s).
           { unfold unscanned. now rewrite Hempty, sapp_nil_r. }
           rewrite Hsame in Hu. rewrite Hu in Hi.
           rewrite (index_newline_line line _ Hnone) in Hi. discriminate.
        -- right. repeat split; tauto.
Qed.

Lemma Scan_true (s s' : bufio.Scanner) :
  scanning s ->
  bufio.Scan s = Some (true, s') ->
  scanning s'
  /\ rd_err (bufio.sc_r s') = rd_err (bufio.sc_r s)
  /\ rd_eager (bufio.sc_r s') = rd_eager (bufio.sc_r s)
  /\ 0 < bufio.sc_start s'
  /\ (eagerLive s -> eagerLive s')
  /\ exists line,
       bufio.sc_token s' = bufio.dropCR line
       /\ bufio.index_newline line = None
       /\ ((unscanned s = (line ++ String LF (unscanned s'))%string
            /\ len line < bufio.MaxScanTokenSize
            /\ (rd_eager (bufio.sc_r s) = false ->
                bufio.sc_err s = None -> bufio.sc_err s' = None))
           \/ (unscanned s = line /\ line <> EmptyString
               /\ unscanned s' = EmptyString
               /\ bufio.sc_err s' <> None
               /\ len line <= bufio.MaxScanTokenSize
               /\ (rd_eager (bufio.sc_r s) = false ->
                   len line < bufio.MaxScanTokenSize))).
Proof. intros Hs. apply scanLoop_true. exact Hs. Qed.

(** A [Scan] that returns false found the input at its end with nothing
    left, or a full buffer of the full size without a newline. *)
Lemma scanLoop_false (fuel : nat) :
  forall s s',
    scanning s ->
    bufio.scanLoop fuel s = Some (false, s') ->
    unscanned s = EmptyString
    \/ (exists buf more,
          unscanned s = (buf ++ more)%string
          /\ bufio.index_newline buf = None
          /\ len buf = bufio.MaxScanTokenSize).
Proof.
  induction fuel as [|fuel IH]; intros s s' Hs; [discriminate|].
  destruct (bufio.index_newline (bufio.sc_buf s)) as [i|] eqn:Hi.
  - rewrite (scanLoop_newline fuel s i Hi). discriminate.
  - destruct (bufio.sc_err s) as [e|] eqn:He.
    + rewrite (scanLoop_atEOF fuel s e Hi He).
      destruct (bufio.sc_buf s) as [|c b] eqn:Hb; [|discriminate].
      intros _. left. destruct Hs as (_ & _ & _ & H3). rewrite He in H3.
      destruct H3 as [Hd _]. unfold unscanned. now rewrite Hb, Hd.
    + destruct (scanLoop_reads fuel s Hs Hi He)
        as [(_ & Hfull & _)
           | (n & chunk & err & s3 & Hn & Hread & Hloop & Hbuf & Herr
              & H0 & Hroom & H1 & H2)].
      * intros _. right. exists (bufio.sc_buf s), (rd_data (bufio.sc_r s)).
        split; [reflexivity|]. split; assumption.
      * rewrite Hloop. intros Hfalse.
        destruct (scanning_read s s3 n chunk err Hread Hbuf Herr H0 Hroom
                    H1 H2) as [Hs3 _].
        destruct (Read_spec _ _ _ _ _ Hread) as (Hdata & _).
        assert (Hun : unscanned s3 = unscanned s).
        { unfold unscanned. rewrite Hbuf, Hdata, sapp_assoc. reflexivity. }
        rewrite <- Hun. exact (IH s3 s' Hs3 Hfalse).
Qed.

(** A [Scan] that returns true has consumed at least one byte. *)
Lemma Scan_true_shrinks (s s' : bufio.Scanner) :
  scanning s ->
  bufio.Scan s = Some (true, s') ->
  (String.length (unscanned s') < String.length (unscanned s))%nat.
Proof.
  intros Hs Htrue.
  destruct (Scan_true s s' Hs Htrue)
    as (_ & _ & _ & _ & _ & line & _ & _
        & [(H & _) | (H & Hne & H' & _)]).
  - rewrite H, length_sapp. cbn [String.length]. lia.
  - rewrite H, H'. destruct line; [congruence|]. cbn [String.length]. lia.
Qed.

Lemma recordsLoop_total (fuel : nat) :
  forall scanner records,
    scanning scanner ->
    (String.length (unscanned scanner) < fuel)%nat ->
    exists res, recordsLoop fuel scanner records = Some res.
Proof.
  induction fuel as [|fuel IH]; intros scanner records Hs Hlt; [lia|].
  cbn [recordsLoop].
  destruct (Scan_total scanner Hs) as [[more scanner'] Hscan]. rewrite Hscan.
  destruct more; cbn [negb]; [|eexists; reflexivity].
  destruct (bufio.Err scanner'); [eexists; reflexivity|].
  pose proof (Scan_true_shrinks _ _ Hs Hscan) as Hshrink.
  destruct (Scan_true _ _ Hs Hscan) as (Hs' & _).
  destruct (decodeRecord_total (S (String.length (bufio.Bytes scanner')))
              (bufio.Bytes scanner') EmptyString [] ltac:(lia)) as [rec' Hrec].
  rewrite Hrec. apply IH; [exact Hs'|lia].
Qed.

Lemma keysLoop_total (fuel : nat) :
  forall scanner start keys,
    scanning scanner ->
    (String.length (unscanned scanner) < fuel)%nat ->
    exists res, keysLoop fuel scanner start keys = Some res.
Proof.
  induction fuel as [|fuel IH]; intros scanner start keys Hs Hlt; [lia|].
  cbn [keysLoop].
  destruct (Scan_total scanner Hs) as [[more scanner'] Hscan]. rewrite Hscan.
  destruct more; cbn [negb]; [|eexists; reflexivity].
  destruct (bufio.Err scanner'); [eexists; reflexivity|].
  pose proof (Scan_true_shrinks _ _ Hs Hscan) as Hshrink.
  destruct (Scan_true _ _ Hs Hscan) as (Hs' & _).
  apply IH; [exact Hs'|lia].
Qed.

Theorem getRecordsFromGzip_total (reader : Reader) :
  exists res, getRecordsFromGzip reader = Some res.
Proof.
  apply recordsLoop_total; [apply NewScanner_scanning|].
  unfold unscanned. cbn. lia.
Qed.

Theorem getObjectKeysForGzip_total (reader : Reader) (start : Z) :
  exists res, getObjectKeysForGzip reader start = Some res.
Proof.
  apply keysLoop_total; [apply NewScanner_scanning|].
  unfold unscanned. cbn. lia.
Qed.

(** C2. The decoder on the two inputs of the spec: the line of three fields
    separated by U+0001 decodes to the one row [a; b; c]; an empty line
    decodes to one row of one field, but the field holds the three bytes of
    the replacement character U+FFFD instead of being the empty string,
    because [DecodeRune] answers [(RuneError, 0)] on the empty line and the
    loop appends that rune to the field.  An empty input gives no row. *)
Theorem getRecordsFromGzip_spec_inputs :
  getRecordsFromGzip
    (strings_NewReader
       (String "a" (String SOH (String "b" (String SOH
          (String "c" (String LF EmptyString)))))))
  = Some (Ok [["a"; "b"; "c"]])
  /\ getRecordsFromGzip (strings_NewReader (String LF EmptyString))
     = Some (Ok [[utf8.bytes [239; 191; 189]]])
  /\ utf8.bytes [239; 191; 189] <> EmptyString
  /\ getRecordsFromGzip (strings_NewReader EmptyString) = Some (Ok []).
Proof.
  repeat split; try reflexivity. discriminate.
Qed.

(** *** Matching by derivatives *)

Module regexp_facts.
Import regexp.

Lemma nullable_denotes (e : syntax) :
  nullable e = true <-> denotes e [].
Proof.
  split.
  - induction e; cbn [nullable]; intros H; try discriminate.
    + constructor.
    + apply andb_true_iff in H as [Ha Hb].
      change (@nil Z) with (@nil Z ++ [])%list. constructor; auto.
    + apply orb_true_iff in H as [H|H];
        [apply denotes_Alternate_l|apply denotes_Alternate_r]; auto.
    + constructor.
  - intros H. remember (@nil Z) as w eqn:Hw.
    induction H; cbn [nullable]; try discriminate; auto.
    + apply app_eq_nil in Hw as [-> ->]. now rewrite IHdenotes1, IHdenotes2.
    + now rewrite IHdenotes.
    + rewrite IHdenotes; auto. apply orb_true_r.
Qed.

Lemma deriv_denotes (r : Z) (e : syntax) :
  forall w, denotes (deriv r e) w <-> denotes e (r :: w).
Proof.
  intros w. split.
  - revert w. induction e; cbn [deriv]; intros w H.
    + inversion H.
    + inversion H.
    + unfold ifb in H. destruct (matchRune r0 foldCase r) eqn:Hm;
        inversion H; subst. now constructor.
    + unfold ifb in H. destruct (r =? 10) eqn:Hm; inversion H; subst.
      now constructor.
    + unfold ifb in H. destruct (isSpace r) eqn:Hm; inversion H; subst.
      now constructor.
    + inversion H as [| | | | | a b u Hl | a b u Hr | |]; subst.
      * inversion Hl as [| | | |a b u1 v1 Ha Hb| | | |]; subst.
        change (r :: u1 ++ v1)%list with ((r :: u1) ++ v1)%list.
        constructor; auto.
      * destruct (nullable e1) eqn:Hn; [|inversion Hr].
        change (r :: w) with ([] ++ r :: w)%list.
        constructor; [now apply nullable_denotes|auto].
    + inversion H; subst;
        [apply denotes_Alternate_l|apply denotes_Alternate_r]; auto.
    + inversion H as [| | | |a b u1 v1 Ha Hb| | | |]; subst.
      change (r :: u1 ++ v1)%list with ((r :: u1) ++ v1)%list.
      constructor; auto.
  - intros H. remember (r :: w) as w0 eqn:Hw. revert w Hw.
    induction H; intros w Hw; cbn [deriv]; try discriminate.
    + injection Hw as <- <-. unfold ifb. rewrite H. constructor.
    + injection Hw as <- <-. unfold ifb. rewrite H. constructor.
    + injection Hw as <- <-. unfold ifb. rewrite H. constructor.
    + destruct u as [|r' u].
      * cbn in Hw. subst v. apply denotes_Alternate_r.
        apply nullable_denotes in H. rewrite H. now apply IHdenotes2.
      * cbn in Hw. injection Hw as -> <-. apply denotes_Alternate_l.
        constructor; auto.
    + apply denotes_Alternate_l. auto.
    + apply denotes_Alternate_r. auto.
    + destruct u as [|r' u].
      * cbn in Hw. subst v. now apply IHdenotes2.
      * cbn in Hw. injection Hw as -> <-. constructor; auto.
Qed.

(** The matcher accepts exactly the strings with a prefix that the
    expression matches. *)
Theorem matchPrefix_denotes (w : list Z) :
  forall e,
    matchPrefix e w = true
    <-> exists u v, w = (u ++ v)%list /\ denotes e u.
Proof.
  induction w as [|r w IH]; intros e; cbn [matchPrefix].
  - rewrite orb_false_r, nullable_denotes. split.
    + intros H. exists [], []. auto.
    + intros [u [v [Hw H]]]. symmetry in Hw.
      apply app_eq_nil in Hw as [-> _]. exact H.
  - rewrite orb_true_iff, nullable_denotes, IH. split.
    + intros [H | [u [v [-> H]]]].
      * exists [], (r :: w). auto.
      * exists (r :: u), v. split; [reflexivity|]. now apply deriv_denotes.
    + intros [[|r' u] [v [Hw H]]]; [now left|].
      cbn in Hw. injection Hw as <- ->. right.
      exists u, v. split; [reflexivity|]. now apply deriv_denotes.
Qed.

Lemma matchPrefix_NoMatch (w : list Z) : matchPrefix NoMatch w = false.
Proof. induction w as [|r w IH]; simpl; auto. Qed.

Lemma matchPrefix_Alternate (w : list Z) :
  forall a b,
    matchPrefix (Alternate a b) w = matchPrefix a w || matchPrefix b w.
Proof.
  induction w as [|r w IH]; intros a b; simpl.
  - now rewrite !orb_false_r.
  - rewrite IH.
    destruct (nullable a), (nullable b), (matchPrefix (deriv r a) w); reflexivity.
Qed.

Lemma matchPrefix_Concat_NoMatch (w : list Z) :
  forall b, matchPrefix (Concat NoMatch b) w = false.
Proof.
  induction w as [|r w IH]; intros b; simpl; auto.
  now rewrite matchPrefix_Alternate, IH, matchPrefix_NoMatch.
Qed.

Lemma matchPrefix_Concat_EmptyMatch (w : list Z) (b : syntax) :
  matchPrefix (Concat EmptyMatch b) w = matchPrefix b w.
Proof.
  destruct w as [|r w]; simpl.
  - now rewrite orb_false_r.
  - now rewrite matchPrefix_Alternate, matchPrefix_Concat_NoMatch.
Qed.

Lemma matchPrefix_Literal (l : Z) (f : bool) (b : syntax) (w : list Z) :
  matchPrefix (Concat (Literal l f) b) w =
  match w with
  | [] => false
  | r :: w' => matchRune l f r && matchPrefix b w'
  end.
Proof.
  destruct w as [|r w]; simpl; auto.
  rewrite matchPrefix_Alternate, matchPrefix_NoMatch, orb_false_r.
  destruct (matchRune l f r); simpl.
  - apply matchPrefix_Concat_EmptyMatch.
  - apply matchPrefix_Concat_NoMatch.
Qed.

(** A match of a literal word followed by anything is a match of the word. *)
Lemma matchPrefix_literals (f : bool) (l : list Z) (k : syntax) :
  forall w,
    matchPrefix (fold_right (fun r e => Concat (Literal r f) e) k l) w = true ->
    matchPrefix (fold_right (fun r e => Concat (Literal r f) e) EmptyMatch l) w
    = true.
Proof.
  induction l as [|c l IH]; intros w H.
  - destruct w; reflexivity.
  - cbn [fold_right] in *. rewrite matchPrefix_Literal in *.
    destruct w as [|r w]; [discriminate|].
    apply andb_true_iff in H as [Hr Hw].
    rewrite Hr. simpl. now apply IH.
Qed.

Lemma matchPrefix_lits_word (f : bool) (s : string) (k : syntax) (w : list Z) :
  matchPrefix (lits f s k) w = true -> matchPrefix (word f s) w = true.
Proof. apply matchPrefix_literals. Qed.

End regexp_facts.

Lemma ctas_matches_ddl (query : string) :
  regexp.MatchString ctasQueryPattern query = true ->
  regexp.MatchString ddlQueryPattern query = true.
Proof.
  unfold regexp.MatchString, ctasQueryPattern, ddlQueryPattern.
  cbn [regexp.beginText regexp.body].
  intros H. apply regexp_facts.matchPrefix_lits_word in H.
  rewrite !regexp_facts.matchPrefix_Alternate, H.
  now rewrite orb_true_r.
Qed.

(** C5. The DDL pattern is tried first and every string the CTAS pattern
    matches is matched by the DDL pattern, so such a string classifies as
    DDL, [getQueryType] never answers CTAS and [isCTASQuery] is false on
    every string. *)
Theorem getQueryType_never_CTAS (query : string) :
  (regexp.MatchString ctasQueryPattern query = true ->
   regexp.MatchString ddlQueryPattern query = true
   /\ getQueryType query = queryTypeDDL)
  /\ getQueryType query <> queryTypeCTAS
  /\ isCTASQuery query = false.
Proof.
  assert (Hddl := ctas_matches_ddl query).
  unfold isCTASQuery, getQueryType.
  destruct (regexp.MatchString ddlQueryPattern query).
  - repeat split; auto; discriminate.
  - destruct (regexp.MatchString ctasQueryPattern query).
    + specialize (Hddl eq_refl). discriminate.
    + repeat split; try discriminate;
        destruct (regexp.MatchString selectQueryPattern query);
        try discriminate; reflexivity.
Qed.

Example getQueryType_examples :
  map getQueryType
      ["select 1"; "SeLeCt * from t"; " select 1"; "show tables";
       "MSCK REPAIR TABLE t"; "insert into t values (1)"; "with x as (select 1) select * from x";
       "create table t as select 1"; ""]
  = [queryTypeSelect; queryTypeSelect; queryTypeUnknown; queryTypeDDL;
     queryTypeDDL; queryTypeUnknown; queryTypeUnknown;
     queryTypeDDL; queryTypeUnknown].
Proof. vm_compute. reflexivity. Qed.

Lemma getQueryType_never_CTAS_witness :
  regexp.MatchString ctasQueryPattern "CREATE TABLE t AS SELECT 1" = true
  /\ getQueryType "CREATE TABLE t AS SELECT 1" = queryTypeDDL
  /\ isCTASQuery "create table t as select 1" = false.
Proof.
  split; [vm_compute; reflexivity|].
  split.
  - apply (getQueryType_never_CTAS "CREATE TABLE t AS SELECT 1").
    vm_compute; reflexivity.
  - apply (getQueryType_never_CTAS "create table t as select 1").
Defined.

(** *** Mode resolution *)

Lemma bind_ext {A B : Type} (m : M A) (k1 k2 : A -> M B) (w : World) :
  (forall a w', k1 a w' = k2 a w') -> bind m k1 w = bind m k2 w.
Proof.
  intros H. unfold bind. destruct (m w) as [[a| |] w']; auto.
Qed.

(** [runQuery] rejects an override outside the enum before it calls
    anything. *)
Lemma runQuery_validates (env : Env) (Rows : Type)
    (checkOutputLocation : ResultMode -> string -> bool)
    (getOutputLocation : string -> M (string * option error))
    (newRows : rowsConfig -> M (result Rows))
    (fuel : nat) (c : conn) (ctx : context) (query : string) (w : World)
    (rmode : ResultMode) :
  getResultMode ctx = Some rmode ->
  isValidResultMode rmode = false ->
  runQuery env Rows checkOutputLocation getOutputLocation newRows
           fuel c ctx query w
  = (Returned (c, Err ErrInvalidResultMode), w).
Proof.
  intros Hctx Hvalid. unfold runQuery, runQuery_resultMode.
  rewrite Hctx, Hvalid. reflexivity.
Qed.

(** Once [runQuery] has resolved [mode], it hands no other mode to
    [newRows]. *)
Lemma runQuery_newRows_mode (env : Env) (Rows : Type)
    (checkOutputLocation : ResultMode -> string -> bool)
    (getOutputLocation : string -> M (string * option error))
    (newRows : rowsConfig -> M (result Rows))
    (fuel : nat) (c : conn) (ctx : context) (query : string) (w : World)
    (mode : ResultMode) :
  runQuery_resultMode c ctx query = Ok mode ->
  runQuery env Rows checkOutputLocation getOutputLocation newRows
           fuel c ctx query w
  = runQuery env Rows checkOutputLocation getOutputLocation
             (onlyMode mode newRows) fuel c ctx query w.
Proof.
  intros Hmode. unfold runQuery. rewrite Hmode.
  apply bind_ext. intros [c1 [err|]] w1; [reflexivity|].
  apply bind_ext. intros [[ctasTable query1] afterDownload] w2.
  apply bind_ext. intros [queryID|err] w3; [|reflexivity].
  apply bind_ext. intros [err|] w4; [reflexivity|].
  unfold onlyMode. cbn [cfg_ResultMode].
  replace (ResultMode_eqb mode mode) with true; [reflexivity|].
  destruct mode; cbn; auto. symmetry. apply Z.eqb_refl.
Qed.

(** The statement [prepareContext] returns carries the mode its
    result-mode block resolved. *)
Lemma prepareContext_stmt_mode (env : Env) (fuel : nat) (c : conn)
    (ctx : context) (query : string) (w w' : World) (stmt : stmtAthena) :
  prepareContext env fuel c ctx query w = (Returned (Ok stmt), w') ->
  stmt_resultMode stmt = prepareContext_resultMode c ctx query.
Proof.
  unfold prepareContext, bind.
  destruct (ctasBlock env fuel c ctx (isSelectQuery query)
              (prepareContext_resultMode c ctx query) query w)
    as [[[[ctasTable query1] afterDownload]| |] w1]; try discriminate.
  destruct (uuid_NewV4 env w1) as [[u| |] w2]; try discriminate.
  destruct (startQuery env c ctx _ w2) as [[[queryID|err]| |] w3];
    try discriminate.
  destruct (waitOnQuery env fuel c ctx queryID w3) as [[[err|]| |] w4];
    try discriminate.
  intros [= <- _]. reflexivity.
Qed.

(** C3, as amended.  For a query that is not a SELECT the effective result
    mode is the API mode whatever the default of the connection and
    whatever the override of the context, as long as the override is absent
    or one of the three modes: so do the result-mode blocks of [runQuery]
    and of [prepareContext] resolve it, [runQuery] hands no other mode to
    [newRows], and a statement that [prepareContext] returns carries it.
    With an override outside the enum [runQuery] resolves no mode: it
    returns the invalid-result-mode error and calls nothing. *)
Theorem nonselect_forced_to_API (env : Env) (Rows : Type)
    (checkOutputLocation : ResultMode -> string -> bool)
    (getOutputLocation : string -> M (string * option error))
    (newRows : rowsConfig -> M (result Rows))
    (fuel : nat) (c : conn) (ctx : context) (query : string) (w : World) :
  isSelectQuery query = false ->
  ((getResultMode ctx = None
    \/ exists rmode, getResultMode ctx = Some rmode
                     /\ isValidResultMode rmode = true) ->
   runQuery_resultMode c ctx query = Ok ResultModeAPI
   /\ prepareContext_resultMode c ctx query = ResultModeAPI
   /\ runQuery env Rows checkOutputLocation getOutputLocation newRows
               fuel c ctx query w
      = runQuery env Rows checkOutputLocation getOutputLocation
                 (onlyMode ResultModeAPI newRows) fuel c ctx query w
   /\ (forall stmt w',
         prepareContext env fuel c ctx query w = (Returned (Ok stmt), w') ->
         stmt_resultMode stmt = ResultModeAPI))
  /\ (forall rmode,
        getResultMode ctx = Some rmode ->
        isValidResultMode rmode = false ->
        runQuery_resultMode c ctx query = Err ErrInvalidResultMode
        /\ runQuery env Rows checkOutputLocation getOutputLocation newRows
                    fuel c ctx query w
           = (Returned (c, Err ErrInvalidResultMode), w)).
Proof.
  intros Hsel. split.
  - intros Hctx.
    assert (Hrun : runQuery_resultMode c ctx query = Ok ResultModeAPI).
    { unfold runQuery_resultMode. rewrite Hsel.
      destruct Hctx as [-> | [rmode [-> Hvalid]]]; [|rewrite Hvalid];
        reflexivity. }
    assert (Hprep : prepareContext_resultMode c ctx query = ResultModeAPI).
    { unfold prepareContext_resultMode. now rewrite Hsel. }
    repeat split; auto.
    + now apply runQuery_newRows_mode.
    + intros stmt w' H. rewrite <- Hprep.
      now apply prepareContext_stmt_mode with (1 := H).
  - intros rmode Hctx Hvalid. split.
    + unfold runQuery_resultMode. now rewrite Hctx, Hvalid.
    + now apply runQuery_validates with (rmode := rmode).
Qed.

Lemma nonselect_forced_to_API_witness :
  isSelectQuery "SHOW TABLES" = false
  /\ runQuery_resultMode Scenario.c0 (mkContext (Some ResultModeDL) None None)
                         "SHOW TABLES" = Ok ResultModeAPI
  /\ prepareContext_resultMode Scenario.c0 Scenario.noOverride "SHOW TABLES"
     = ResultModeAPI.
Proof.
  split; [vm_compute; reflexivity|].
  split.
  - apply (proj1 (nonselect_forced_to_API Scenario.quick unit
                    Scenario.neverCheck Scenario.noLocation Scenario.noRows
                    8 Scenario.c0 (mkContext (Some ResultModeDL) None None)
                    "SHOW TABLES" [] ltac:(vm_compute; reflexivity))).
    right. exists ResultModeDL. split; reflexivity.
  - apply (proj1 (nonselect_forced_to_API Scenario.quick unit
                    Scenario.neverCheck Scenario.noLocation Scenario.noRows
                    8 Scenario.c0 Scenario.noOverride
                    "SHOW TABLES" [] ltac:(vm_compute; reflexivity))).
    left. reflexivity.
Defined.

(** C3, as stated, fails: for the statement SHOW TABLES and an override
    outside the enum, [runQuery] does not resolve the API mode; it returns
    the invalid-result-mode error and calls nothing. *)
Lemma nonselect_invalid_override_is_error :
  isSelectQuery "SHOW TABLES" = false
  /\ runQuery_resultMode Scenario.c0 Scenario.badOverride "SHOW TABLES"
     <> Ok ResultModeAPI
  /\ runQuery Scenario.quick unit Scenario.neverCheck Scenario.noLocation
              Scenario.noRows 8 Scenario.c0 Scenario.badOverride
              "SHOW TABLES" []
     = (Returned (Scenario.c0, Err ErrInvalidResultMode), []).
Proof.
  split; [vm_compute; reflexivity|].
  split; [vm_compute; discriminate|vm_compute; reflexivity].
Qed.

(** C4.  [runQuery] validates the override, but [prepareContext], which
    resolves the same override, does not: with the override 99 and the
    query SELECT 1 it sends the PREPARE statement to the engine and returns
    a statement whose result mode is the invalid value. *)
Theorem prepareContext_skips_validation :
  isValidResultMode (ResultModeOther 99) = false
  /\ runQuery Scenario.quick unit Scenario.neverCheck Scenario.noLocation
              Scenario.noRows 8 Scenario.c0 Scenario.badOverride
              "SELECT 1" []
     = (Returned (Scenario.c0, Err ErrInvalidResultMode), [])
  /\ prepareContext Scenario.quick 8 Scenario.c0 Scenario.badOverride
                    "SELECT 1" []
     = (Returned
          (Ok (mkStmt "tmp_prepare_6ba7b8109dad11d180b400c04fd430c8" 0
                      EmptyString None Scenario.c0 (ResultModeOther 99))),
        [EvNewV4;
         EvStartQueryExecution
           (mkStartInput
              "PREPARE tmp_prepare_6ba7b8109dad11d180b400c04fd430c8 FROM SELECT 1"
              "default" None "s3://results" "primary");
         EvGetQueryExecution "q-1"]).
Proof.
  repeat split; vm_compute; reflexivity.
Qed.

(** *** The await loop *)

Local Open Scope list_scope.

Lemma count_app (p : event -> bool) (w l : World) :
  count p (w ++ l) = (count p w + count p l)%nat.
Proof. unfold count. now rewrite filter_app, length_app. Qed.

Section Await.

Variable env : Env.
Variables (c : conn) (ctx : context) (queryID : string).

(** One round on a pending state when the timer fires first. *)
Lemma waitOnQuery_round (fuel : nat) (w : World)
    (status : QueryExecutionStatus) :
  env_GetQueryExecution env (count is_get w) queryID = Ok status ->
  pending (State status) = true ->
  env_select env (count is_select w) = None ->
  waitOnQuery env (S fuel) c ctx queryID w
  = waitOnQuery env fuel c ctx queryID
      (w ++ polls queryID (pollFrequency c) 1).
Proof.
  intros Hget Hpend Hsel.
  cbn [waitOnQuery]. unfold bind at 1, GetQueryExecution at 1, call.
  rewrite Hget.
  assert (Hround :
    bind (select_Done_or_After env (pollFrequency c))
      (fun done => match done with
                   | Some ctxErr =>
                     bind (StopQueryExecution env queryID)
                          (fun _ => ret (Some ctxErr))
                   | None => waitOnQuery env fuel c ctx queryID
                   end) (w ++ [EvGetQueryExecution queryID])
    = waitOnQuery env fuel c ctx queryID
        (w ++ polls queryID (pollFrequency c) 1)).
  { unfold bind, select_Done_or_After.
    rewrite count_app. cbn [count filter is_select List.length].
    rewrite Nat.add_0_r, Hsel. cbn [polls].
    now rewrite <- app_assoc. }
  destruct (State status); try discriminate Hpend; exact Hround.
Qed.

(** [k] rounds on pending states with the timer firing first. *)
Lemma waitOnQuery_rounds (k : nat) :
  forall (fuel : nat) (w : World),
    (forall i, (i < k)%nat ->
       exists status,
         env_GetQueryExecution env (count is_get w + i) queryID = Ok status
         /\ pending (State status) = true
         /\ env_select env (count is_select w + i) = None) ->
    waitOnQuery env (k + fuel) c ctx queryID w
    = waitOnQuery env fuel c ctx queryID
        (w ++ polls queryID (pollFrequency c) k).
Proof.
  induction k as [|k IH]; intros fuel w H.
  - cbn [polls]. now rewrite app_nil_r.
  - destruct (H O ltac:(lia)) as [status [Hget [Hpend Hsel]]].
    rewrite Nat.add_0_r in Hget, Hsel.
    cbn [Nat.add]. rewrite (waitOnQuery_round _ _ status Hget Hpend Hsel).
    rewrite IH.
    + cbn [polls]. rewrite <- app_assoc. reflexivity.
    + intros i Hi. destruct (H (S i) ltac:(lia)) as [st [Hg [Hp Hs]]].
      exists st. rewrite !count_app.
      cbn [polls count filter is_get is_select List.length app].
      replace (count is_get w + 1 + i)%nat with (count is_get w + S i)%nat
        by lia.
      replace (count is_select w + 1 + i)%nat
        with (count is_select w + S i)%nat by lia.
      auto.
Qed.

Lemma count_polls_get (d : Z) (k : nat) :
  count is_get (polls queryID d k) = k.
Proof.
  induction k as [|k IH]; [reflexivity|].
  unfold count in *. cbn. now rewrite IH.
Qed.

Lemma count_polls_select (d : Z) (k : nat) :
  count is_select (polls queryID d k) = k.
Proof.
  induction k as [|k IH]; [reflexivity|].
  unfold count in *. cbn. now rewrite IH.
Qed.

Lemma count_polls_stop (d : Z) (k : nat) :
  count is_stop (polls queryID d k) = O.
Proof.
  induction k as [|k IH]; [reflexivity|].
  unfold count in *. cbn. exact IH.
Qed.

(** A status check that finds a final state ends the loop. *)
Lemma waitOnQuery_final (fuel : nat) (w : World)
    (status : QueryExecutionStatus) :
  env_GetQueryExecution env (count is_get w) queryID = Ok status ->
  waitOnQuery env (S fuel) c ctx queryID w
  = match State status with
    | QueryExecutionStateCancelled =>
      (Returned (Some context_Canceled), w ++ [EvGetQueryExecution queryID])
    | QueryExecutionStateFailed =>
      match StateChangeReason status with
      | Some reason =>
        (Returned (Some (errors_New reason)),
         w ++ [EvGetQueryExecution queryID])
      | None =>
        (Panicked "nil pointer dereference",
         w ++ [EvGetQueryExecution queryID])
      end
    | QueryExecutionStateSucceeded =>
      (Returned None, w ++ [EvGetQueryExecution queryID])
    | _ => waitOnQuery env (S fuel) c ctx queryID w
    end.
Proof.
  intros Hget.
  destruct (State status) eqn:Hstate; try reflexivity;
    cbn [waitOnQuery]; unfold bind at 1, GetQueryExecution at 1, call;
    rewrite Hget, Hstate; try reflexivity.
  destruct (StateChangeReason status); reflexivity.
Qed.

End Await.

(** C6, as amended.  When the caller's context is found done by the wait
    that follows a status check on a pending state, after any number [k]
    of full rounds, [waitOnQuery] sends one stop request and returns the
    error of the context; whatever the stop request answers ([stop] is
    arbitrary) does not show in the result.  When instead the status
    check itself fails, as it does when the context it is given ends
    during the request, [waitOnQuery] returns the error of the check and
    sends no stop request. *)
Theorem waitOnQuery_cancelled_mid_poll (env : Env)
    (stop : nat -> string -> option error)
    (c : conn) (ctx : context) (queryID : string)
    (fuel k : nat) (w : World) :
  (k < fuel)%nat ->
  (forall i, (i < k)%nat ->
     exists st,
       env_GetQueryExecution env (count is_get w + i) queryID = Ok st
       /\ pending (State st) = true
       /\ env_select env (count is_select w + i) = None) ->
  (forall (status : QueryExecutionStatus) (ctxErr : error),
     env_GetQueryExecution env (count is_get w + k) queryID = Ok status ->
     pending (State status) = true ->
     env_select env (count is_select w + k) = Some ctxErr ->
     let w' := (w ++ polls queryID (pollFrequency c) k
                  ++ [EvGetQueryExecution queryID; EvCtxDone;
                      EvStopQueryExecution queryID])%list in
     waitOnQuery (with_stop env stop) fuel c ctx queryID w
     = (Returned (Some ctxErr), w')
     /\ count is_stop w' = S (count is_stop w))
  /\ (forall err : error,
        env_GetQueryExecution env (count is_get w + k) queryID = Err err ->
        let w' := (w ++ polls queryID (pollFrequency c) k
                     ++ [EvGetQueryExecution queryID])%list in
        waitOnQuery (with_stop env stop) fuel c ctx queryID w
        = (Returned (Some err), w')
        /\ count is_stop w' = count is_stop w).
Proof.
  intros Hfuel Hrounds. split.
  - intros status ctxErr Hget Hpend Hsel w'. split.
    + replace fuel with (k + S (fuel - S k))%nat by lia.
      rewrite waitOnQuery_rounds by exact Hrounds.
      cbn [waitOnQuery]. unfold bind at 1, GetQueryExecution at 1, call.
      cbn [with_stop env_GetQueryExecution].
      rewrite count_app, count_polls_get, Hget.
      assert (Hdone :
        bind (select_Done_or_After (with_stop env stop) (pollFrequency c))
          (fun done => match done with
                       | Some ctxErr =>
                         bind (StopQueryExecution (with_stop env stop)
                                                  queryID)
                              (fun _ => ret (Some ctxErr))
                       | None =>
                         waitOnQuery (with_stop env stop) (fuel - S k) c ctx
                                     queryID
                       end)
          ((w ++ polls queryID (pollFrequency c) k)
             ++ [EvGetQueryExecution queryID])
        = (Returned (Some ctxErr), w')).
      { unfold bind, select_Done_or_After. cbn [with_stop env_select].
        rewrite !count_app, count_polls_select.
        cbn [count filter is_select List.length].
        rewrite Nat.add_0_r, Hsel.
        unfold StopQueryExecution, call, ret. subst w'.
        now rewrite <- !app_assoc. }
      destruct (State status); try discriminate Hpend; exact Hdone.
    + subst w'. rewrite !count_app, count_polls_stop. unfold count. simpl.
      lia.
  - intros err Hget w'. split.
    + replace fuel with (k + S (fuel - S k))%nat by lia.
      rewrite waitOnQuery_rounds by exact Hrounds.
      cbn [waitOnQuery]. unfold bind at 1, GetQueryExecution at 1, call.
      cbn [with_stop env_GetQueryExecution].
      rewrite count_app, count_polls_get, Hget.
      unfold ret. subst w'. now rewrite <- app_assoc.
    + subst w'. rewrite !count_app, count_polls_stop. unfold count. simpl.
      lia.
Qed.

Lemma waitOnQuery_cancelled_mid_poll_witness :
  waitOnQuery Scenario.deadline 8 Scenario.c0 Scenario.noOverride "q-1" []
  = (Returned (Some context_DeadlineExceeded),
     [EvGetQueryExecution "q-1"; EvTimeAfter 5;
      EvGetQueryExecution "q-1"; EvTimeAfter 5;
      EvGetQueryExecution "q-1"; EvCtxDone; EvStopQueryExecution "q-1"]).
Proof.
  destruct (waitOnQuery_cancelled_mid_poll Scenario.deadline
              (fun _ _ => Some (external_error "stop failed"))
              Scenario.c0 Scenario.noOverride "q-1" 8 2 []) as [Hdone _].
  - lia.
  - intros i Hi. exists (mkStatus QueryExecutionStateRunning None).
    repeat split.
    destruct i as [|[|i]]; [reflexivity|reflexivity|lia].
  - apply (Hdone (mkStatus QueryExecutionStateRunning None)
                 context_DeadlineExceeded); reflexivity.
Defined.

(** C6, as stated, fails: the deadline of the caller passes during the
    second status check, while the query is running; the client, which is
    given the context of the caller, fails the request, and [waitOnQuery]
    returns that error without any stop request. *)
Lemma waitOnQuery_deadline_during_check :
  waitOnQuery Scenario2.deadlineInCheck 8 Scenario.c0 Scenario.noOverride
              "q-1" []
  = (Returned
       (Some (external_error
                "operation error Athena: GetQueryExecution, context deadline exceeded")),
     [EvGetQueryExecution "q-1"; EvTimeAfter 5; EvGetQueryExecution "q-1"])
  /\ count is_stop
       [EvGetQueryExecution "q-1"; EvTimeAfter 5; EvGetQueryExecution "q-1"]
     = O.
Proof.
  split; vm_compute; reflexivity.
Qed.

(** C7.  When successive status checks answer Queued, Running, Running and
    Succeeded and no wait is cut short by the context, [waitOnQuery] makes
    exactly four status checks, one after the other with a full poll
    interval between two of them, sends no stop request and returns no
    error; a check that answers Failed returns the reason given by the
    engine as the error, and one that answers Cancelled returns the
    cancellation error. *)
Theorem waitOnQuery_outcomes (env : Env) (c : conn) (ctx : context)
    (queryID : string) (fuel : nat) (w : World) :
  (forall r0 r1 r2 r3,
     (4 <= fuel)%nat ->
     env_GetQueryExecution env (count is_get w) queryID
     = Ok (mkStatus QueryExecutionStateQueued r0) ->
     env_GetQueryExecution env (count is_get w + 1) queryID
     = Ok (mkStatus QueryExecutionStateRunning r1) ->
     env_GetQueryExecution env (count is_get w + 2) queryID
     = Ok (mkStatus QueryExecutionStateRunning r2) ->
     env_GetQueryExecution env (count is_get w + 3) queryID
     = Ok (mkStatus QueryExecutionStateSucceeded r3) ->
     (forall i, (i < 3)%nat -> env_select env (count is_select w + i) = None) ->
     let d := pollFrequency c in
     let w' := w ++ [EvGetQueryExecution queryID; EvTimeAfter d;
                     EvGetQueryExecution queryID; EvTimeAfter d;
                     EvGetQueryExecution queryID; EvTimeAfter d;
                     EvGetQueryExecution queryID] in
     waitOnQuery env fuel c ctx queryID w = (Returned None, w')
     /\ count is_get w' = (count is_get w + 4)%nat
     /\ count is_stop w' = count is_stop w)
  /\ (forall reason,
        (1 <= fuel)%nat ->
        env_GetQueryExecution env (count is_get w) queryID
        = Ok (mkStatus QueryExecutionStateFailed (Some reason)) ->
        waitOnQuery env fuel c ctx queryID w
        = (Returned (Some (errors_New reason)),
           w ++ [EvGetQueryExecution queryID]))
  /\ (forall r,
        (1 <= fuel)%nat ->
        env_GetQueryExecution env (count is_get w) queryID
        = Ok (mkStatus QueryExecutionStateCancelled r) ->
        waitOnQuery env fuel c ctx queryID w
        = (Returned (Some context_Canceled),
           w ++ [EvGetQueryExecution queryID])).
Proof.
  split; [|split].
  - intros r0 r1 r2 r3 Hfuel H0 H1 H2 H3 Hsel d w'. split; [|split].
    + replace fuel with (3 + S (fuel - 4))%nat by lia.
      rewrite waitOnQuery_rounds.
      * rewrite (waitOnQuery_final env c ctx queryID _ _
                   (mkStatus QueryExecutionStateSucceeded r3)).
        -- cbn [State polls]. subst w' d. now rewrite <- app_assoc.
        -- rewrite count_app, count_polls_get. exact H3.
      * intros i Hi.
        destruct i as [|[|[|i]]]; [| | |lia];
          [exists (mkStatus QueryExecutionStateQueued r0)
          |exists (mkStatus QueryExecutionStateRunning r1)
          |exists (mkStatus QueryExecutionStateRunning r2)];
          (split; [|split; [reflexivity|apply Hsel; lia]]);
          [rewrite Nat.add_0_r; exact H0|exact H1|exact H2].
    + subst w'. rewrite count_app. unfold count. simpl. lia.
    + subst w'. rewrite count_app. unfold count. simpl. lia.
  - intros reason Hfuel Hget.
    destruct fuel as [|fuel]; [lia|].
    now rewrite (waitOnQuery_final env c ctx queryID _ _ _ Hget).
  - intros r Hfuel Hget.
    destruct fuel as [|fuel]; [lia|].
    now rewrite (waitOnQuery_final env c ctx queryID _ _ _ Hget).
Qed.

Lemma waitOnQuery_outcomes_witness :
  waitOnQuery Scenario.fourPolls 4 Scenario.c0 Scenario.noOverride "q-1" []
  = (Returned None,
     [EvGetQueryExecution "q-1"; EvTimeAfter 5;
      EvGetQueryExecution "q-1"; EvTimeAfter 5;
      EvGetQueryExecution "q-1"; EvTimeAfter 5;
      EvGetQueryExecution "q-1"])
  /\ waitOnQuery (Scenario.failing QueryExecutionStateFailed) 1 Scenario.c0
                 Scenario.noOverride "q-1" []
     = (Returned (Some (errors_New "SYNTAX_ERROR: line 1")),
        [EvGetQueryExecution "q-1"])
  /\ waitOnQuery (Scenario.failing QueryExecutionStateCancelled) 1
                 Scenario.c0 Scenario.noOverride "q-1" []
     = (Returned (Some context_Canceled), [EvGetQueryExecution "q-1"]).
Proof.
  split; [|split].
  - apply (proj1 (waitOnQuery_outcomes Scenario.fourPolls Scenario.c0
                      Scenario.noOverride "q-1" 4 [])
                 None None None None);
      try reflexivity; lia.
  - apply (proj1 (proj2 (waitOnQuery_outcomes
                           (Scenario.failing QueryExecutionStateFailed)
                           Scenario.c0 Scenario.noOverride "q-1" 1 [])));
      [lia|reflexivity].
  - apply (proj2 (proj2 (waitOnQuery_outcomes
                           (Scenario.failing QueryExecutionStateCancelled)
                           Scenario.c0 Scenario.noOverride "q-1" 1 []))
                 (Some "SYNTAX_ERROR: line 1"));
      [lia|reflexivity].
Defined.

(** *** The download *)

Lemma take_all (n : nat) :
  forall s, (String.length s <= n)%nat -> take n s = s.
Proof.
  induction n as [|n IH]; intros [|ch s] H; simpl in *; auto; try lia.
  f_equal. apply IH. lia.
Qed.

Lemma drop_0 (s : string) : drop 0 s = s.
Proof. destruct s; reflexivity. Qed.

(** The suffix [s[low:]] is defined from 0 up to the length of [s]. *)
Lemma slice_suffix (s : string) (low : Z) :
  slice s low (len s)
  = if (0 <=? low) && (low <=? len s)
    then Returned (drop (Z.to_nat low) s)
    else Panicked "slice bounds out of range".
Proof.
  unfold slice. rewrite Z.leb_refl, andb_true_r.
  destruct ((0 <=? low) && (low <=? len s)) eqn:H; [|reflexivity].
  f_equal. apply take_all. rewrite length_drop. unfold len. lia.
Qed.

Lemma slice_prefix (s : string) (high : Z) :
  0 <= high <= len s ->
  slice s 0 high = Returned (take (Z.to_nat high) s).
Proof.
  intros H. unfold slice.
  replace ((0 <=? 0) && (0 <=? high) && (high <=? len s)) with true
    by (symmetry; rewrite !andb_true_iff, !Z.leb_le; lia).
  now rewrite Z.sub_0_r, drop_0.
Qed.

Section DownloadFacts.

Variable store : Store.

(** The head of [downloadCompressedData]: with a location of at least one
    byte, and of at least five once a trailing slash is removed, the three
    slice expressions are defined and the function goes on to the
    manifest; otherwise it panics. *)
Lemma downloadCompressedData_slices (r : rowsGzipDL) (location : string) :
  downloadCompressedData store r location
  = if (1 <=? len location) && (5 <=? len (trimmed location)) then
      match s3_GetObject store (bucketOf location) (manifestKey (r_queryID r))
      with
      | Err err => Returned (r, Some err)
      | Ok body =>
        match io_ReadAll body with
        | (_, Some err) => Returned (r, Some err)
        | (content, None) =>
          obind (of_fuel (getObjectKeysForGzip (strings_NewReader content)
                                               (len (trimmed location) + 1)))
            (fun keys =>
               match keys with
               | Err err => Returned (r, Some err)
               | Ok objectKeys =>
                 downloadObjects store r (bucketOf location) objectKeys
               end)
        end
      end
    else Panicked "slice bounds out of range".
Proof.
  unfold downloadCompressedData, bucketOf.
  rewrite slice_suffix.
  destruct (1 <=? len location) eqn:H1.
  - apply Z.leb_le in H1.
    replace ((0 <=? len location - 1) && (len location - 1 <=? len location))
      with true by (symmetry; rewrite andb_true_iff, !Z.leb_le; lia).
    cbn [obind andb].
    replace (Z.to_nat (len location - 1)) with (String.length location - 1)%nat
      by (unfold len; lia).
    assert (Htrim :
      (if String.eqb (drop (String.length location - 1) location) "/"
       then slice location 0 (len location - 1)
       else Returned location) = Returned (trimmed location)).
    { unfold trimmed.
      destruct (String.eqb (drop (String.length location - 1) location) "/");
        [|reflexivity].
      rewrite slice_prefix by lia. do 2 f_equal. unfold len. lia. }
    rewrite Htrim. cbn [obind]. rewrite slice_suffix.
    change (0 <=? 5) with true. cbn [andb].
    destruct (5 <=? len (trimmed location)); reflexivity.
  - apply Z.leb_gt in H1.
    replace ((0 <=? len location - 1) && (len location - 1 <=? len location))
      with false by (symmetry; rewrite andb_false_iff, !Z.leb_gt; lia).
    reflexivity.
Qed.

Lemma downloadObject_decodes (r : rowsGzipDL) (bucketName key : string)
    (rows : list (list string)) :
  decodesTo store bucketName key rows ->
  exists r',
    downloadObject store r bucketName key = Returned (inr r')
    /\ r_downloadedRows r' <> None
    /\ buffer r' = (buffer r ++ rows)%list.
Proof.
  intros [content [gz [[body [Hget Hread]] [Hgz Hrec]]]].
  unfold downloadObject. rewrite Hget, Hread.
  rewrite Hgz, Hrec. cbn [of_fuel obind].
  eexists. split; [reflexivity|]. split; [discriminate|].
  unfold buffer. cbn. destruct (r_downloadedRows r); reflexivity.
Qed.

(** The loop over the listed objects appends their rows in listing order. *)
Lemma downloadObjects_concat (bucketName : string) (keys : list string)
    (rowss : list (list (list string))) :
  Forall2 (decodesTo store bucketName) keys rowss ->
  forall r,
  exists r',
    downloadObjects store r bucketName keys = Returned (r', None)
    /\ buffer r' = (buffer r ++ List.concat rowss)%list
    /\ (keys <> [] -> r_downloadedRows r' <> None).
Proof.
  induction 1 as [|key rows keys rowss Hdec _ IH]; intros r.
  - exists r. cbn. rewrite app_nil_r. repeat split. congruence.
  - destruct (downloadObject_decodes r bucketName key rows Hdec)
      as [r1 [H1 [Halloc Hbuf]]].
    destruct (IH r1) as [r2 [H2 [Hbuf2 Halloc2]]].
    exists r2. cbn [downloadObjects List.concat]. rewrite H1. cbn [obind].
    rewrite H2, Hbuf2, Hbuf, <- app_assoc. repeat split.
    intros _. destruct keys as [|k keys'].
    + cbn in H2. injection H2 as <-. exact Halloc.
    + apply Halloc2. discriminate.
Qed.

Lemma downloadObject_returns (r : rowsGzipDL) (bucketName key : string) :
  exists step, downloadObject store r bucketName key = Returned step.
Proof.
  unfold downloadObject.
  destruct (s3_GetObject store bucketName key) as [body|err];
    [|eexists; reflexivity].
  destruct (io_ReadAll body) as [content [err|]]; [eexists; reflexivity|].
  destruct (gzip_NewReader store content) as [gz|err];
    [|eexists; reflexivity].
  destruct (getRecordsFromGzip_total gz) as [[rows|err] ->]; cbn;
    eexists; reflexivity.
Qed.

Lemma downloadObjects_returns (bucketName : string) (keys : list string) :
  forall r, exists res, downloadObjects store r bucketName keys = Returned res.
Proof.
  induction keys as [|key keys IH]; intros r; cbn [downloadObjects].
  - eexists; reflexivity.
  - destruct (downloadObject_returns r bucketName key) as [[err|r1] ->];
      cbn [obind]; [eexists; reflexivity|apply IH].
Qed.

End DownloadFacts.

(** C8.  When the manifest of the query is read and lists [keys], and the
    object under each key decodes to the rows given for it by [rowss],
    [downloadCompressedData] succeeds and the buffer then holds what it
    held before (nothing, for a new cursor) followed by the rows of the
    objects in listing order; with at least one key the buffer is
    allocated.  For two keys with 3 and 2 rows that is 5 rows, those of the
    first object before those of the second. *)
Theorem downloadCompressedData_concat (store : Store) (r : rowsGzipDL)
    (location manifest : string) (keys : list string)
    (rowss : list (list (list string))) :
  1 <= len location ->
  5 <= len (trimmed location) ->
  readsAs store (bucketOf location) (manifestKey (r_queryID r)) manifest ->
  getObjectKeysForGzip (strings_NewReader manifest)
                       (len (trimmed location) + 1) = Some (Ok keys) ->
  Forall2 (decodesTo store (bucketOf location)) keys rowss ->
  exists r',
    downloadCompressedData store r location = Returned (r', None)
    /\ buffer r' = (buffer r ++ List.concat rowss)%list
    /\ (keys <> [] -> r_downloadedRows r' <> None)
    /\ (forall rows1 rows2,
          rowss = [rows1; rows2] -> buffer r = [] ->
          List.length rows1 = 3%nat -> List.length rows2 = 2%nat ->
          buffer r' = (rows1 ++ rows2)%list
          /\ List.length (buffer r') = 5%nat).
Proof.
  intros H1 H5 [body [Hmanifest Hread]] Hkeys Hdec.
  rewrite downloadCompressedData_slices.
  replace ((1 <=? len location) && (5 <=? len (trimmed location))) with true
    by (symmetry; rewrite andb_true_iff, !Z.leb_le; lia).
  rewrite Hmanifest, Hread, Hkeys.
  cbn [of_fuel obind].
  destruct (downloadObjects_concat store (bucketOf location) keys rowss Hdec r)
    as [r' [Hrun [Hbuf Halloc]]].
  exists r'. split; [exact Hrun|]. split; [exact Hbuf|].
  split; [exact Halloc|].
  intros rows1 rows2 -> Hempty Hlen1 Hlen2.
  rewrite Hbuf, Hempty. cbn [List.concat app]. rewrite app_nil_r.
  split; [reflexivity|]. rewrite length_app. lia.
Qed.

Lemma downloadCompressedData_concat_witness :
  exists r',
    downloadCompressedData Scenario.twoObjects Scenario.r0 "s3://results/"
    = Returned (r', None)
    /\ buffer r' = [["1"; "a"]; ["2"; "b"]; ["3"; "c"];
                    ["4"; "d"]; ["5"; "e"]].
Proof.
  destruct (downloadCompressedData_concat Scenario.twoObjects Scenario.r0
              "s3://results/"
              (Scenario.line ["s3://results/t1"]
                 ++ Scenario.line ["s3://results/t2"])
              ["t1"; "t2"]
              [[["1"; "a"]; ["2"; "b"]; ["3"; "c"]];
               [["4"; "d"]; ["5"; "e"]]])
    as [r' [Hrun [Hbuf _]]].
  - vm_compute. discriminate.
  - vm_compute. discriminate.
  - eexists. split; reflexivity.
  - vm_compute. reflexivity.
  - constructor; [|constructor; [|constructor]].
    + exists (Scenario.line ["1"; "a"] ++ Scenario.line ["2"; "b"]
              ++ Scenario.line ["3"; "c"])%string.
      eexists. split; [eexists; split; reflexivity|].
      split; [reflexivity|vm_compute; reflexivity].
    + exists (Scenario.line ["4"; "d"] ++ Scenario.line ["5"; "e"])%string.
      eexists. split; [eexists; split; reflexivity|].
      split; [reflexivity|vm_compute; reflexivity].
  - exists r'. split; [exact Hrun|exact Hbuf].
Defined.

(** C10, as amended.  [downloadCompressedData] is partial in the output
    location: it is defined exactly when the location has at least one byte
    and, once a trailing slash is removed, at least five; it then returns
    (the first five bytes are dropped whatever they are), and otherwise a
    slice bound is out of range and it panics, as on the empty string. *)
Theorem downloadCompressedData_defined_iff (store : Store) (r : rowsGzipDL)
    (location : string) :
  (1 <= len location /\ 5 <= len (trimmed location) ->
   exists res, downloadCompressedData store r location = Returned res)
  /\ (~ (1 <= len location /\ 5 <= len (trimmed location)) ->
      downloadCompressedData store r location
      = Panicked "slice bounds out of range")
  /\ downloadCompressedData store r EmptyString
     = Panicked "slice bounds out of range".
Proof.
  rewrite !downloadCompressedData_slices. split; [|split].
  - intros [H1 H5].
    replace ((1 <=? len location) && (5 <=? len (trimmed location)))
      with true by (symmetry; rewrite andb_true_iff, !Z.leb_le; lia).
    destruct (s3_GetObject store (bucketOf location)
                (manifestKey (r_queryID r))) as [body|err];
      [|eexists; reflexivity].
    destruct (io_ReadAll body) as [content [err|]]; [eexists; reflexivity|].
    destruct (getObjectKeysForGzip_total (strings_NewReader content)
                (len (trimmed location) + 1)) as [[keys|err] ->];
      cbn [of_fuel obind]; [|eexists; reflexivity].
    apply downloadObjects_returns.
  - intros Hnot.
    destruct ((1 <=? len location) && (5 <=? len (trimmed location))) eqn:H;
      [|reflexivity].
    apply andb_true_iff in H as [H1 H5]. apply Z.leb_le in H1, H5. tauto.
  - reflexivity.
Qed.

Lemma downloadCompressedData_defined_iff_witness :
  (exists res,
     downloadCompressedData Scenario.twoObjects Scenario.r0 "s3://results/"
     = Returned res)
  /\ downloadCompressedData Scenario.twoObjects Scenario.r0 "s3:/"
     = Panicked "slice bounds out of range".
Proof.
  split.
  - apply (proj1 (downloadCompressedData_defined_iff Scenario.twoObjects
                    Scenario.r0 "s3://results/")).
    split; vm_compute; discriminate.
  - apply (proj1 (proj2 (downloadCompressedData_defined_iff
                           Scenario.twoObjects Scenario.r0 "s3:/"))).
    intros [_ H]. vm_compute in H. apply H. reflexivity.
Defined.

(** C10, as stated, fails: the location [s3:///] carries the scheme prefix
    and is left with five bytes, not six, once its trailing slash is
    removed, and the location [abcde] has five bytes and no scheme prefix;
    on both every slice is in range and the function returns (here the
    error of the store, which has no such object). *)
Lemma downloadCompressedData_five_bytes_defined :
  len (trimmed "s3:///") = 5
  /\ downloadCompressedData Scenario.noObjects Scenario.r0 "s3:///"
     = Returned (Scenario.r0, Some (external_error "NoSuchKey"))
  /\ String.prefix "s3://" "abcde" = false
  /\ downloadCompressedData Scenario.noObjects Scenario.r0 "abcde"
     = Returned (Scenario.r0, Some (external_error "NoSuchKey")).
Proof.
  repeat split; vm_compute; reflexivity.
Qed.

(** *** The cursor *)

Section CursorFacts.

Variable Dest : Type.
Variable convertRowFromTableInfo :
  list Column -> list string -> Dest -> Dest * option error.

(** At the end of the buffer [Next] answers the end of the data and
    changes nothing. *)
Lemma Next_at_end (r : rowsGzipDL) (d : downloadedRows) (dest : Dest) :
  r_downloadedRows r = Some d ->
  Z.of_nat (List.length (data d)) <= cursor d ->
  Next Dest convertRowFromTableInfo r dest = Returned (r, dest, Some io_EOF).
Proof.
  intros Hd Hend. unfold Next, nextCTAS. rewrite Hd.
  apply Z.leb_le in Hend. now rewrite Hend.
Qed.

(** What a call of [Next] that returns has done. *)
Lemma Next_returned (r r' : rowsGzipDL) (dest dest' : Dest)
    (e : option error) :
  Next Dest convertRowFromTableInfo r dest = Returned (r', dest', e) ->
  exists d,
    r_downloadedRows r = Some d
    /\ ((r' = r /\ e <> None)
        \/ (e = None
            /\ cursor d < Z.of_nat (List.length (data d))
            /\ r' = set_downloadedRows r
                      (Some (mkDownloadedRows (data d) (cursor d + 1))))).
Proof.
  unfold Next, nextCTAS.
  destruct (r_downloadedRows r) as [d|]; [|discriminate].
  intros H. exists d. split; [reflexivity|].
  destruct (Z.of_nat (List.length (data d)) <=? cursor d) eqn:Hend.
  - injection H as <- _ <-. left. split; [reflexivity|discriminate].
  - apply Z.leb_gt in Hend.
    destruct (if cursor d <? 0 then None
              else nth_error (data d) (Z.to_nat (cursor d))) as [row|];
      [|discriminate].
    destruct (convertRowFromTableInfo (r_ctasTableColumns r) row dest)
      as [dest1 [err|]].
    + injection H as <- _ <-. left. split; [reflexivity|discriminate].
    + injection H as <- _ <-. right. auto.
Qed.

(** With an allocated buffer and an offset within it [Next] returns. *)
Lemma Next_returns (r : rowsGzipDL) (d : downloadedRows) (dest : Dest) :
  r_downloadedRows r = Some d ->
  0 <= cursor d ->
  exists res, Next Dest convertRowFromTableInfo r dest = Returned res.
Proof.
  intros Hd Hpos. unfold Next, nextCTAS. rewrite Hd.
  destruct (Z.of_nat (List.length (data d)) <=? cursor d) eqn:Hend;
    [eexists; reflexivity|].
  apply Z.leb_gt in Hend.
  replace (cursor d <? 0) with false by (symmetry; apply Z.ltb_ge; lia).
  destruct (nth_error (data d) (Z.to_nat (cursor d))) as [row|] eqn:Hrow.
  - destruct (convertRowFromTableInfo (r_ctasTableColumns r) row dest)
      as [dest1 [err|]]; eexists; reflexivity.
  - apply nth_error_None in Hrow. lia.
Qed.

Lemma NextMany_at_end (r : rowsGzipDL) (d : downloadedRows)
    (dests : list Dest) :
  r_downloadedRows r = Some d ->
  Z.of_nat (List.length (data d)) <= cursor d ->
  NextMany Dest convertRowFromTableInfo r dests
  = Returned (r, repeat (Some io_EOF) (List.length dests)).
Proof.
  intros Hd Hend. induction dests as [|dest dests IH]; [reflexivity|].
  cbn [NextMany]. rewrite (Next_at_end r d dest Hd Hend). cbn [obind].
  rewrite IH. reflexivity.
Qed.

End CursorFacts.

(** C9.  Once the offset of the cursor has reached the length of the
    buffer, [Next] answers the end of the data, and so does every later
    call, the buffer and the offset staying as they are.  Every call of
    [Next] that returns leaves the rows of the buffer as they are and keeps
    the offset at most the length of the buffer, and a call that returns
    without error has moved the offset forward by exactly one. *)
Theorem Next_cursor_contract (Dest : Type)
    (convertRowFromTableInfo :
       list Column -> list string -> Dest -> Dest * option error)
    (r : rowsGzipDL) :
  (forall d dests,
     r_downloadedRows r = Some d ->
     Z.of_nat (List.length (data d)) <= cursor d ->
     NextMany Dest convertRowFromTableInfo r dests
     = Returned (r, repeat (Some io_EOF) (List.length dests)))
  /\ (forall dest r' dest' e,
        Next Dest convertRowFromTableInfo r dest = Returned (r', dest', e) ->
        buffer r' = buffer r
        /\ (cursorInRange r -> cursorInRange r')
        /\ (e = None ->
            exists d d',
              r_downloadedRows r = Some d
              /\ r_downloadedRows r' = Some d'
              /\ cursor d' = cursor d + 1))
  /\ (forall d dest,
        r_downloadedRows r = Some d -> 0 <= cursor d ->
        exists res, Next Dest convertRowFromTableInfo r dest = Returned res).
Proof.
  split; [|split].
  - intros d dests Hd Hend. now apply NextMany_at_end with (d := d).
  - intros dest r' dest' e H.
    apply Next_returned in H as [d [Hd [[-> He] | [-> [Hlt ->]]]]].
    + repeat split; auto. intros ->. congruence.
    + unfold buffer, cursorInRange. rewrite Hd. cbn.
      repeat split; [lia|].
      intros _. exists d. eexists. repeat split.
  - intros d dest Hd Hpos. now apply Next_returns with (d := d).
Qed.

Lemma Next_cursor_contract_witness :
  NextMany (list string) Scenario.copyRow
    (set_downloadedRows Scenario.r0
       (Some (mkDownloadedRows [["1"; "a"]; ["2"; "b"]] 2)))
    [[]; []; []]
  = Returned (set_downloadedRows Scenario.r0
                (Some (mkDownloadedRows [["1"; "a"]; ["2"; "b"]] 2)),
              [Some io_EOF; Some io_EOF; Some io_EOF])
  /\ cursorInRange (set_downloadedRows Scenario.r0
                      (Some (mkDownloadedRows [["1"; "a"]; ["2"; "b"]] 2)))
  /\ exists res,
       Next (list string) Scenario.copyRow
         (set_downloadedRows Scenario.r0
            (Some (mkDownloadedRows [["1"; "a"]; ["2"; "b"]] 1))) []
       = Returned res.
Proof.
  split; [|split].
  - apply (proj1 (Next_cursor_contract (list string) Scenario.copyRow
                    (set_downloadedRows Scenario.r0
                       (Some (mkDownloadedRows [["1"; "a"]; ["2"; "b"]] 2))))
                 (mkDownloadedRows [["1"; "a"]; ["2"; "b"]] 2)
                 [[]; []; []]).
    + reflexivity.
    + vm_compute. discriminate.
  - apply (proj1 (proj2 (proj1 (proj2
             (Next_cursor_contract (list string) Scenario.copyRow
                (set_downloadedRows Scenario.r0
                   (Some (mkDownloadedRows [["1"; "a"]; ["2"; "b"]] 1)))))
             [] _ _ None eq_refl))).
    vm_compute. discriminate.
  - apply (proj2 (proj2 (Next_cursor_contract (list string) Scenario.copyRow
                           (set_downloadedRows Scenario.r0
                              (Some (mkDownloadedRows
                                       [["1"; "a"]; ["2"; "b"]] 1)))))
                 (mkDownloadedRows [["1"; "a"]; ["2"; "b"]] 1) []).
    + reflexivity.
    + vm_compute. discriminate.
Defined.

(** *** Cleanup of the CTAS table *)

(** C1, as amended.  In a materialization with a cleanup callback, once
    both goroutines have returned (no panic): when both results are
    received and neither is an error, [init] invokes the cleanup exactly
    once, after the two results, on the log as it found it, and returns
    what the cleanup returns; when the deadline of the context comes
    first, or the download or the fetch of the table metadata reports an
    error, [init] returns that error and leaves the log as it is whatever
    the callback is, so the cleanup is not invoked.  That error is the
    deadline error of the context when the deadline comes before a result
    or after a first result without error, else the error of the first
    result received, else that of the second. *)
Theorem init_cleanup (store : Store) (r : rowsGzipDL) (cfg : rowsConfig)
    (afterDownload : M (option error)) (w : World)
    (dl gt : rowsGzipDL) (dlErr gtErr : option error) :
  cfg_AfterDownload cfg = Some afterDownload ->
  downloadCompressedData store r (cfg_OutputLocation cfg)
  = Returned (dl, dlErr) ->
  getTableAsync store r = (gt, gtErr) ->
  (forall first,
     dlErr = None -> gtErr = None ->
     init store (BothReceived first) r cfg w
     = bind afterDownload
         (fun e => ret (merge (other first) dl gt (merge first dl gt r), e))
         w)
  /\ (forall sched,
        (forall first, sched <> BothReceived first)
        \/ dlErr <> None \/ gtErr <> None ->
        exists r' e,
          init store sched r cfg w = (Returned (r', Some e), w)
          /\ match sched with
             | DeadlineFirst => e = context_DeadlineExceeded
             | DeadlineSecond first =>
               match sent first dlErr gtErr with
               | Some e1 => e = e1
               | None => e = context_DeadlineExceeded
               end
             | BothReceived first =>
               match sent first dlErr gtErr with
               | Some e1 => e = e1
               | None => sent (other first) dlErr gtErr = Some e
               end
             end).
Proof.
  intros Hafter Hdl Hgt. unfold init. rewrite Hdl, Hgt, Hafter. split.
  - intros first -> ->. destruct first; reflexivity.
  - intros sched Hsched.
    destruct sched as [|first|first].
    + eexists; eexists; split; reflexivity.
    + destruct first; cbn [sent];
        [destruct dlErr|destruct gtErr]; eexists; eexists; split; reflexivity.
    + destruct Hsched as [Hs | [He | He]]; [now elim (Hs first)| |];
        destruct first; cbn [sent other];
        destruct dlErr, gtErr; try congruence;
        eexists; eexists; split; reflexivity.
Qed.

Lemma init_cleanup_witness :
  exists r',
    init Scenario.twoObjects (BothReceived Download) Scenario.r0
         (Scenario.cfg0
            (Some (dropCTASTable Scenario.quick 8 Scenario.c0
                                 Scenario.noOverride "tmp_ctas_1"))) []
    = (Returned (r', None),
       [EvStartQueryExecution
          (mkStartInput "DROP TABLE tmp_ctas_1" "default" None
                        "s3://results" "primary");
        EvGetQueryExecution "q-1"]).
Proof.
  destruct (downloadCompressedData Scenario.twoObjects Scenario.r0
              "s3://results/") as [[dl dlErr]| |] eqn:Hdl;
    [|vm_compute in Hdl; discriminate Hdl
     |vm_compute in Hdl; discriminate Hdl].
  destruct (getTableAsync Scenario.twoObjects Scenario.r0) as [gt gtErr]
    eqn:Hgt.
  assert (HdlErr : dlErr = None) by (vm_compute in Hdl; congruence).
  assert (HgtErr : gtErr = None) by (vm_compute in Hgt; congruence).
  eexists.
  rewrite (proj1 (init_cleanup Scenario.twoObjects Scenario.r0
                    (Scenario.cfg0
                       (Some (dropCTASTable Scenario.quick 8 Scenario.c0
                                Scenario.noOverride "tmp_ctas_1")))
                    (dropCTASTable Scenario.quick 8 Scenario.c0
                       Scenario.noOverride "tmp_ctas_1")
                    [] dl gt dlErr gtErr eq_refl Hdl Hgt)
                 Download HdlErr HgtErr).
  reflexivity.
Defined.

(** C1, as stated, fails: when the manifest cannot be fetched, or when the
    catalog does not know the table, [init] returns the error after both
    results and sends nothing to the engine; the DROP TABLE of the cleanup
    is not issued. *)
Lemma init_error_skips_cleanup :
  (exists r',
     init Scenario.noObjects (BothReceived GetTable) Scenario.r0
          (Scenario.cfg0
             (Some (dropCTASTable Scenario.quick 8 Scenario.c0
                                  Scenario.noOverride "tmp_ctas_1"))) []
     = (Returned (r', Some (external_error "NoSuchKey")), []))
  /\ (exists r',
        init Scenario.noTable (BothReceived Download) Scenario.r0
             (Scenario.cfg0
                (Some (dropCTASTable Scenario.quick 8 Scenario.c0
                                     Scenario.noOverride "tmp_ctas_1"))) []
        = (Returned (r', Some (external_error "EntityNotFound")), [])).
Proof.
  split; eexists; vm_compute; reflexivity.
Qed.

Local Open Scope list_scope.

(** *** UTF-8: decoding what was encoded *)

Lemma byte_val_of (z : Z) : 0 <= z < 256 -> byte_val (byte_of z) = z.
Proof.
  intros H. unfold byte_val, byte_of.
  rewrite N_ascii_embedding by lia. lia.
Qed.

Lemma lor_disjoint (hi lo k : Z) :
  0 <= k -> 0 <= lo < 2 ^ k -> 0 <= hi ->
  Z.lor (hi * 2 ^ k) lo = hi * 2 ^ k + lo.
Proof.
  intros Hk Hlo Hhi.
  rewrite <- Z.add_lor_land.
  replace (Z.land (hi * 2 ^ k) lo) with 0; [lia|].
  symmetry. apply Z.bits_inj'. intros n Hn.
  rewrite Z.land_spec, Z.bits_0.
  destruct (Z.lt_ge_cases n k) as [Hlt|Hge].
  - rewrite Z.mul_pow2_bits_low by lia. reflexivity.
  - replace (Z.testbit lo n) with false; [apply andb_false_r|].
    symmetry. destruct (Z.eq_dec lo 0) as [->|Hne]; [apply Z.bits_0|].
    apply Z.bits_above_log2; [lia|].
    apply Z.log2_lt_pow2; [lia|].
    apply Z.lt_le_trans with (2 ^ k); [lia|].
    apply Z.pow_le_mono_r; lia.
Qed.

Lemma first_lead2 (p : Z) :
  194 <= p < 224 -> utf8.first p = utf8.multi 2 128 191.
Proof.
  intros H. unfold utf8.first.
  repeat match goal with
         | |- context [?a <? ?b] => destruct (Z.ltb_spec a b); try lia
         | |- context [?a =? ?b] => destruct (Z.eqb_spec a b); try lia
         end; reflexivity.
Qed.

Lemma first_lead3 (p : Z) :
  224 <= p < 240 ->
  utf8.first p = utf8.multi 3 (if p =? 224 then 160 else 128)
                              (if p =? 237 then 159 else 191).
Proof.
  intros H. unfold utf8.first.
  repeat match goal with
         | |- context [?a <? ?b] => destruct (Z.ltb_spec a b); try lia
         | |- context [?a =? ?b] => destruct (Z.eqb_spec a b); try lia
         end; reflexivity.
Qed.

Lemma first_lead4 (p : Z) :
  240 <= p <= 244 ->
  utf8.first p = utf8.multi 4 (if p =? 240 then 144 else 128)
                              (if p =? 244 then 143 else 191).
Proof.
  intros H. unfold utf8.first.
  repeat match goal with
         | |- context [?a <? ?b] => destruct (Z.ltb_spec a b); try lia
         | |- context [?a =? ?b] => destruct (Z.eqb_spec a b); try lia
         end; reflexivity.
Qed.

Lemma shiftr_div (r k : Z) : 0 <= k -> Z.shiftr r k = r / 2 ^ k.
Proof. intros. now apply Z.shiftr_div_pow2. Qed.

Lemma land_mod (a k : Z) : 0 <= k -> Z.land a (2 ^ k - 1) = a mod 2 ^ k.
Proof.
  intros H. rewrite <- Z.land_ones by lia. f_equal.
  rewrite Z.ones_equiv. lia.
Qed.

Ltac arith := Z.div_mod_to_equations; lia.

(** Continuation bytes and lead bytes as sums. *)
Lemma cont_byte (x : Z) : 0 <= x < 64 -> Z.lor 128 x = 128 + x.
Proof. intros H. apply (lor_disjoint 2 x 6); lia. Qed.

Lemma lead_byte2 (x : Z) : 0 <= x < 32 -> Z.lor 192 x = 192 + x.
Proof. intros H. apply (lor_disjoint 6 x 5); lia. Qed.

Lemma lead_byte3 (x : Z) : 0 <= x < 16 -> Z.lor 224 x = 224 + x.
Proof. intros H. apply (lor_disjoint 14 x 4); lia. Qed.

Lemma lead_byte4 (x : Z) : 0 <= x < 8 -> Z.lor 240 x = 240 + x.
Proof. intros H. apply (lor_disjoint 30 x 3); lia. Qed.

Lemma len_String (c : ascii) (s : string) : len (String c s) = 1 + len s.
Proof. unfold len. cbn [String.length]. lia. Qed.

Lemma DecodeRune_encode (r : Z) (b : string) :
  validRune r ->
  utf8.DecodeRune (utf8.string_of_rune r ++ b)
  = (r, len (utf8.string_of_rune r)).
Proof.
  intros [Hr Hsur]. unfold utf8.string_of_rune.
  replace ((r <? 0) || (1114111 <? r) || ((55296 <=? r) && (r <=? 57343)))
    with false.
  2:{ symmetry. rewrite !orb_false_iff, andb_false_iff, !Z.ltb_ge, !Z.leb_gt.
      lia. }
  assert (H6 : Z.land r 63 = r mod 64) by apply (land_mod r 6 ltac:(lia)).
  assert (H6' : forall a, Z.land a 63 = a mod 64)
    by (intros a; apply (land_mod a 6 ltac:(lia))).
  destruct (Z.leb_spec r 127) as [H1|H1].
  { cbn [utf8.bytes fold_right String.append utf8.DecodeRune].
    rewrite byte_val_of by lia.
    unfold utf8.first. replace (r <? 128) with true
      by (symmetry; apply Z.ltb_lt; lia).
    reflexivity. }
  destruct (Z.leb_spec r 2047) as [H2|H2].
  { rewrite !shiftr_div by lia. rewrite H6.
    rewrite lead_byte2 by arith. rewrite cont_byte by arith.
    cbn [utf8.bytes fold_right String.append utf8.DecodeRune].
    rewrite !byte_val_of by arith.
    rewrite first_lead2 by arith.
    rewrite !len_String.
    replace (1 + (1 + len b) <? Z.of_nat 2) with false
      by (symmetry; apply Z.ltb_ge; pose proof (len_nonneg b); lia).
    replace ((128 + r mod 64 <? 128) || (191 <? 128 + r mod 64)) with false
      by (symmetry; rewrite orb_false_iff, !Z.ltb_ge; arith).
    cbn [Nat.leb]. f_equal; try reflexivity.
    rewrite H6'. rewrite (land_mod _ 5) by lia.
    rewrite Z.shiftl_mul_pow2 by lia.
    rewrite lor_disjoint by arith. arith. }
  destruct (Z.leb_spec r 65535) as [H3|H3].
  { rewrite !shiftr_div by lia. rewrite !H6'.
    rewrite lead_byte3 by arith. rewrite !cont_byte by arith.
    cbn [utf8.bytes fold_right String.append utf8.DecodeRune].
    rewrite !byte_val_of by arith.
    rewrite first_lead3 by arith.
    rewrite !len_String.
    replace (1 + (1 + (1 + len b)) <? Z.of_nat 3) with false
      by (symmetry; apply Z.ltb_ge; pose proof (len_nonneg b); lia).
    replace ((128 + (r / 2 ^ 6) mod 64
              <? (if 224 + r / 2 ^ 12 =? 224 then 160 else 128))
             || ((if 224 + r / 2 ^ 12 =? 237 then 159 else 191)
                 <? 128 + (r / 2 ^ 6) mod 64)) with false.
    2:{ symmetry. rewrite orb_false_iff, !Z.ltb_ge.
        destruct (Z.eqb_spec (224 + r / 2 ^ 12) 224);
          destruct (Z.eqb_spec (224 + r / 2 ^ 12) 237); arith. }
    cbn [Nat.leb]. unfold utf8.cont, utf8.locb, utf8.hicb.
    replace ((128 <=? 128 + r mod 64) && (128 + r mod 64 <=? 191)) with true
      by (symmetry; rewrite andb_true_iff, !Z.leb_le; arith).
    cbn [negb]. f_equal; try reflexivity.
    rewrite !H6'. rewrite (land_mod _ 4) by lia.
    rewrite !Z.shiftl_mul_pow2 by lia.
    rewrite (lor_disjoint _ (_ * 2 ^ 6) 12) by arith.
    replace (((224 + r / 2 ^ 12) mod 2 ^ 4) * 2 ^ 12
             + (128 + (r / 2 ^ 6) mod 64) mod 64 * 2 ^ 6)
      with ((((224 + r / 2 ^ 12) mod 2 ^ 4) * 2 ^ 6
             + (128 + (r / 2 ^ 6) mod 64) mod 64) * 2 ^ 6) by lia.
    rewrite lor_disjoint by arith. arith. }
  rewrite !shiftr_div by lia. rewrite !H6'.
  rewrite lead_byte4 by arith. rewrite !cont_byte by arith.
  cbn [utf8.bytes fold_right String.append utf8.DecodeRune].
  rewrite !byte_val_of by arith.
  rewrite first_lead4 by arith.
  rewrite !len_String.
  replace (1 + (1 + (1 + (1 + len b))) <? Z.of_nat 4) with false
    by (symmetry; apply Z.ltb_ge; pose proof (len_nonneg b); lia).
  replace ((128 + (r / 2 ^ 12) mod 64
            <? (if 240 + r / 2 ^ 18 =? 240 then 144 else 128))
           || ((if 240 + r / 2 ^ 18 =? 244 then 143 else 191)
               <? 128 + (r / 2 ^ 12) mod 64)) with false.
  2:{ symmetry. rewrite orb_false_iff, !Z.ltb_ge.
      destruct (Z.eqb_spec (240 + r / 2 ^ 18) 240);
        destruct (Z.eqb_spec (240 + r / 2 ^ 18) 244); arith. }
  cbn [Nat.leb]. unfold utf8.cont, utf8.locb, utf8.hicb.
  replace ((128 <=? 128 + (r / 2 ^ 6) mod 64)
           && (128 + (r / 2 ^ 6) mod 64 <=? 191)) with true
    by (symmetry; rewrite andb_true_iff, !Z.leb_le; arith).
  replace ((128 <=? 128 + r mod 64) && (128 + r mod 64 <=? 191)) with true
    by (symmetry; rewrite andb_true_iff, !Z.leb_le; arith).
  cbn [negb]. f_equal; try reflexivity.
  rewrite !H6'. rewrite (land_mod _ 3) by lia.
  rewrite !Z.shiftl_mul_pow2 by lia.
  rewrite (lor_disjoint _ (_ * 2 ^ 12) 18) by arith.
  replace (((240 + r / 2 ^ 18) mod 2 ^ 3) * 2 ^ 18
           + (128 + (r / 2 ^ 12) mod 64) mod 64 * 2 ^ 12)
    with ((((240 + r / 2 ^ 18) mod 2 ^ 3) * 2 ^ 6
           + (128 + (r / 2 ^ 12) mod 64) mod 64) * 2 ^ 12) by lia.
  rewrite (lor_disjoint _ (_ * 2 ^ 6) 12) by arith.
  replace ((((240 + r / 2 ^ 18) mod 2 ^ 3) * 2 ^ 6
            + (128 + (r / 2 ^ 12) mod 64) mod 64) * 2 ^ 12
           + (128 + (r / 2 ^ 6) mod 64) mod 64 * 2 ^ 6)
    with (((((240 + r / 2 ^ 18) mod 2 ^ 3) * 2 ^ 6
            + (128 + (r / 2 ^ 12) mod 64) mod 64) * 2 ^ 6
           + (128 + (r / 2 ^ 6) mod 64) mod 64) * 2 ^ 6) by lia.
  rewrite lor_disjoint by arith. arith.
Qed.

(** *** Strings *)

Lemma drop_sapp (a b : string) : drop (String.length a) (a ++ b)%string = b.
Proof. induction a as [|ch a IH]; cbn; [apply drop_0|exact IH]. Qed.

Lemma drop_S_sapp (a : string) (c : ascii) (b : string) :
  drop (S (String.length a)) (a ++ String c b)%string = b.
Proof. induction a as [|ch a IH]; cbn; [apply drop_0|exact IH]. Qed.

Lemma take_sapp (a b : string) : take (String.length a) (a ++ b)%string = a.
Proof.
  induction a as [|ch a IH]; cbn; [now destruct b|now rewrite IH].
Qed.

Lemma sapp_eq_nil (a b : string) :
  (a ++ b)%string = EmptyString -> a = EmptyString /\ b = EmptyString.
Proof. destruct a; cbn; [auto|discriminate]. Qed.

Lemma index_newline_none (s : string) :
  contains LF s = false -> bufio.index_newline s = None.
Proof.
  induction s as [|c s IH]; cbn; intros H; [reflexivity|].
  apply orb_false_iff in H as [Hc Hs]. now rewrite Hc, (IH Hs).
Qed.

Lemma dropCR_id (s : string) : endsWith CR s = false -> bufio.dropCR s = s.
Proof.
  induction s as [|c s IH]; cbn; intros H; [reflexivity|].
  destruct s as [|c' s']; [now rewrite H|].
  f_equal. now apply IH.
Qed.

(** The first newline of a text is where its first line ends. *)
Lemma first_line_unique (a a' b b' : string) :
  bufio.index_newline a = None ->
  bufio.index_newline a' = None ->
  (a ++ String LF b)%string = (a' ++ String LF b')%string ->
  a = a' /\ b = b'.
Proof.
  intros Ha Ha' Heq.
  pose proof (index_newline_line a b Ha) as H1.
  pose proof (index_newline_line a' b' Ha') as H2.
  rewrite Heq in H1. rewrite H1 in H2. injection H2 as Hlen.
  split.
  - rewrite <- (take_sapp a (String LF b)), Heq, Hlen. apply take_sapp.
  - rewrite <- (drop_S_sapp a LF b), Heq, Hlen. apply drop_S_sapp.
Qed.

(** A piece without newline at the start of a text lies within its first
    line. *)
Lemma prefix_within_line (buf : string) :
  forall more line rest,
    bufio.index_newline buf = None ->
    (buf ++ more)%string = (line ++ String LF rest)%string ->
    (String.length buf <= String.length line)%nat.
Proof.
  induction buf as [|c buf IH]; intros more line rest Hbuf Heq;
    [cbn; lia|].
  cbn [bufio.index_newline] in Hbuf.
  destruct (Ascii.eqb c LF) eqn:Hc; [discriminate|].
  destruct (bufio.index_newline buf) eqn:Hb; [discriminate|].
  destruct line as [|c' line].
  - cbn in Heq. injection Heq as -> _.
    rewrite Ascii.eqb_refl in Hc. discriminate.
  - cbn in Heq. injection Heq as _ Heq. cbn [String.length].
    specialize (IH more line rest eq_refl Heq). lia.
Qed.

Lemma prefix_of_line (buf more line : string) :
  (buf ++ more)%string = line ->
  (String.length buf <= String.length line)%nat.
Proof. intros <-. rewrite length_sapp. lia. Qed.

(** *** The tokens of [Scan] *)

(** An error that [Err] shows is the error of the reader. *)
Lemma Err_of_reader (s : bufio.Scanner) (e : error) :
  scanning s -> bufio.Err s = Some e ->
  rd_err (bufio.sc_r s) = Some e /\ e <> io_EOF.
Proof.
  intros (_ & _ & _ & H) He. unfold bufio.Err in He.
  destruct (bufio.sc_err s) as [e'|]; [|discriminate].
  destruct H as (_ & -> & _). unfold rd_end in He.
  destruct (rd_err (bufio.sc_r s)) as [x|]; [|discriminate].
  destruct x; cbn in He; try discriminate; injection He as <-;
    split; try reflexivity; discriminate.
Qed.

Lemma Err_clean (s : bufio.Scanner) :
  scanning s -> notEOF (rd_err (bufio.sc_r s)) = None -> bufio.Err s = None.
Proof.
  intros Hs Hclean.
  destruct (bufio.Err s) as [e|] eqn:He; [|reflexivity].
  destruct (Err_of_reader s e Hs He) as [Hre Hne].
  rewrite Hre in Hclean. destruct e; cbn in Hclean; congruence.
Qed.

Lemma Err_shown (s : bufio.Scanner) (e : error) :
  scanning s -> rd_err (bufio.sc_r s) = Some e -> e <> io_EOF ->
  bufio.sc_err s <> None -> bufio.Err s = Some e.
Proof.
  intros (_ & _ & _ & H) Hre Hne Hset. unfold bufio.Err.
  destruct (bufio.sc_err s) as [e'|]; [|congruence].
  destruct H as (_ & -> & _). unfold rd_end. rewrite Hre.
  destruct e; cbn; congruence.
Qed.

(** [Scan] on an input that starts with a complete line that fits the
    buffer. *)
Lemma Scan_line (s : bufio.Scanner) (line rest : string) :
  scanning s ->
  unscanned s = (line ++ String LF rest)%string ->
  bufio.index_newline line = None ->
  len line < bufio.MaxScanTokenSize ->
  exists s',
    bufio.Scan s = Some (true, s')
    /\ scanning s'
    /\ unscanned s' = rest
    /\ bufio.sc_token s' = bufio.dropCR line
    /\ rd_err (bufio.sc_r s') = rd_err (bufio.sc_r s)
    /\ rd_eager (bufio.sc_r s') = rd_eager (bufio.sc_r s)
    /\ 0 < bufio.sc_start s'
    /\ (eagerLive s -> eagerLive s')
    /\ (rd_eager (bufio.sc_r s) = false ->
        bufio.sc_err s = None -> bufio.sc_err s' = None).
Proof.
  intros Hs Hun Hline Hlen.
  destruct (Scan_total s Hs) as [[more s'] Hscan].
  destruct more.
  - exists s'. split; [exact Hscan|].
    destruct (Scan_true s s' Hs Hscan)
      as (Hs' & Hre & Heg & Hst & Hlive & line' & Htok & Hnone
          & [(Hu & _ & Hkeep) | (Hu & _)]).
    + rewrite Hun in Hu.
      destruct (first_line_unique _ _ _ _ Hline Hnone Hu) as [<- <-].
      split; [exact Hs'|]. split; [reflexivity|]. split; [exact Htok|].
      split; [exact Hre|]. split; [exact Heg|]. split; [exact Hst|].
      split; [exact Hlive|exact Hkeep].
    + exfalso. rewrite Hun in Hu. rewrite <- Hu in Hnone.
      rewrite (index_newline_line line rest Hline) in Hnone. discriminate.
  - exfalso. unfold bufio.Scan in Hscan.
    destruct (scanLoop_false _ s s' Hs Hscan)
      as [Hempty | (buf & more & Hu & Hnone & Hfull)].
    + rewrite Hun in Hempty. destruct line; discriminate.
    + rewrite Hun in Hu. symmetry in Hu.
      pose proof (prefix_within_line _ _ _ _ Hnone Hu) as Hle.
      unfold len in *. lia.
Qed.

(** [Scan] on an unterminated rest that fits the buffer. *)
Lemma Scan_last (s : bufio.Scanner) (line : string) :
  scanning s ->
  unscanned s = line ->
  line <> EmptyString ->
  bufio.index_newline line = None ->
  len line < bufio.MaxScanTokenSize ->
  exists s',
    bufio.Scan s = Some (true, s')
    /\ scanning s'
    /\ unscanned s' = EmptyString
    /\ bufio.sc_token s' = bufio.dropCR line
    /\ rd_err (bufio.sc_r s') = rd_err (bufio.sc_r s)
    /\ rd_eager (bufio.sc_r s') = rd_eager (bufio.sc_r s)
    /\ bufio.sc_err s' <> None.
Proof.
  intros Hs Hun Hne Hline Hlen.
  destruct (Scan_total s Hs) as [[more s'] Hscan].
  destruct more.
  - exists s'. split; [exact Hscan|].
    destruct (Scan_true s s' Hs Hscan)
      as (Hs' & Hre & Heg & Hst & Hlive & line' & Htok & Hnone
          & [(Hu & _) | (Hu & _ & Hu' & Herr & _)]).
    + exfalso. rewrite Hun in Hu. rewrite Hu in Hline.
      rewrite (index_newline_line line' _ Hnone) in Hline. discriminate.
    + rewrite Hun in Hu. subst line'.
      split; [exact Hs'|]. split; [exact Hu'|]. split; [exact Htok|].
      split; [exact Hre|]. split; [exact Heg|exact Herr].
  - exfalso. unfold bufio.Scan in Hscan.
    destruct (scanLoop_false _ s s' Hs Hscan)
      as [Hempty | (buf & more & Hu & Hnone & Hfull)].
    + congruence.
    + rewrite Hun in Hu. symmetry in Hu.
      pose proof (prefix_of_line _ _ _ Hu) as Hle.
      unfold len in *. lia.
Qed.

(** [Scan] at the end of the input. *)
Lemma Scan_end (s : bufio.Scanner) :
  scanning s -> unscanned s = EmptyString ->
  exists s', bufio.Scan s = Some (false, s').
Proof.
  intros Hs Hun.
  destruct (Scan_total s Hs) as [[more s'] Hscan].
  destruct more; [|exists s'; exact Hscan]. exfalso.
  destruct (Scan_true s s' Hs Hscan)
    as (_ & _ & _ & _ & _ & line & _ & _ & [(Hu & _) | (Hu & Hne & _)]).
  - rewrite Hun in Hu. destruct line; discriminate.
  - congruence.
Qed.

(** [Scan] on a line that does not fit the buffer. *)
Lemma Scan_tooLong (s : bufio.Scanner) :
  scanning s ->
  tooLong (rd_eager (bufio.sc_r s)) (unscanned s) ->
  exists s', bufio.Scan s = Some (false, s').
Proof.
  intros Hs Hlong.
  destruct (Scan_total s Hs) as [[more s'] Hscan].
  destruct more; [|exists s'; exact Hscan]. exfalso.
  unfold tooLong in Hlong.
  destruct (Scan_true s s' Hs Hscan)
    as (_ & _ & _ & _ & _ & line & _ & Hnone
        & [(Hu & Hlen & _) | (Hu & _ & _ & _ & Hle & Hlt)]).
  - rewrite Hu, (index_newline_line line _ Hnone) in Hlong.
    unfold len in Hlen. lia.
  - rewrite Hu, Hnone in Hlong.
    destruct (rd_eager (bufio.sc_r s)); [lia|].
    specialize (Hlt eq_refl). lia.
Qed.

(** *** The record decoder reads back what the export writes *)

Lemma string_of_rune_nonempty (r : Z) : 1 <= len (utf8.string_of_rune r).
Proof.
  unfold utf8.string_of_rune, len.
  repeat match goal with
         | |- context [if ?c then _ else _] => destruct c
         end; cbn; lia.
Qed.

Lemma decodeRecord_rune (fuel : nat) (r : Z) (b field : string)
    (record : list string) :
  validRune r -> r <> 1 ->
  decodeRecord (S fuel) (utf8.string_of_rune r ++ b)%string field record
  = match b with
    | EmptyString =>
      Some (record ++ [(field ++ utf8.string_of_rune r)%string])
    | _ => decodeRecord fuel b (field ++ utf8.string_of_rune r)%string record
    end.
Proof.
  intros Hr H1. cbn [decodeRecord]. rewrite DecodeRune_encode by exact Hr.
  change (byte_val SOH) with 1.
  replace (r =? 1) with false by (symmetry; apply Z.eqb_neq; exact H1).
  destruct b as [|c b].
  - rewrite sapp_nil_r, Z.leb_refl. reflexivity.
  - rewrite len_sapp, len_String.
    replace (len (utf8.string_of_rune r) + (1 + len b)
             <=? len (utf8.string_of_rune r)) with false
      by (symmetry; apply Z.leb_gt; pose proof (len_nonneg b); lia).
    unfold len at 1. rewrite Nat2Z.id, drop_sapp. reflexivity.
Qed.

Lemma decodeRecord_separator (fuel : nat) (b field : string)
    (record : list string) :
  decodeRecord (S fuel) (String SOH b) field record
  = match b with
    | EmptyString => Some (record ++ [field; EmptyString])
    | _ => decodeRecord fuel b EmptyString (record ++ [field])
    end.
Proof.
  cbn [decodeRecord].
  change (utf8.DecodeRune (String SOH b)) with (1, 1).
  change (1 =? byte_val SOH) with true. cbn iota.
  destruct b as [|c b].
  - cbn. now rewrite <- app_assoc.
  - rewrite !len_String.
    replace (1 + (1 + len b) <=? 1) with false
      by (symmetry; apply Z.leb_gt; pose proof (len_nonneg b); lia).
    reflexivity.
Qed.

Lemma encodeRunes_cons (r : Z) (rs : list Z) :
  encodeRunes (r :: rs) = (utf8.string_of_rune r ++ encodeRunes rs)%string.
Proof. reflexivity. Qed.

Lemma joinFields_cons (f g : string) (rest : list string) :
  joinFields (f :: g :: rest)
  = (f ++ String SOH (joinFields (g :: rest)))%string.
Proof. reflexivity. Qed.

(** The inner loop on a line whose fields are the texts of [fields]. *)
Lemma decodeRecord_fields (fields : list (list Z)) :
  forall (f : list Z) (fuel : nat) (field : string) (record : list string),
    Forall goodRune f ->
    Forall (Forall goodRune) fields ->
    joinFields (map encodeRunes (f :: fields)) <> EmptyString ->
    (String.length (joinFields (map encodeRunes (f :: fields))) < fuel)%nat ->
    decodeRecord fuel (joinFields (map encodeRunes (f :: fields)))
                 field record
    = Some (record ++ (field ++ encodeRunes f)%string
                   :: map encodeRunes fields).
Proof.
  induction fields as [|g rest IH].
  - (* the last field *)
    induction f as [|r f IHf]; intros fuel field record Hf _ Hne Hfuel;
      cbn [map joinFields String.concat] in *; [now elim Hne|].
    rewrite encodeRunes_cons in *.
    destruct fuel as [|fuel]; [lia|].
    inversion Hf as [|? ? [Hr [H1 _]] Hf']; subst.
    rewrite decodeRecord_rune by assumption.
    rewrite length_sapp in Hfuel.
    pose proof (string_of_rune_nonempty r) as Hlen. unfold len in Hlen.
    destruct (encodeRunes f) as [|c s] eqn:He.
    + now rewrite sapp_nil_r.
    + rewrite <- He in *. rewrite IHf; auto; try lia.
      * now rewrite sapp_assoc.
      * rewrite He. discriminate.
  - induction f as [|r f IHf]; intros fuel field record Hf Hall Hne Hfuel.
    + (* a separator *)
      change (map encodeRunes ([] :: g :: rest))
        with (EmptyString :: map encodeRunes (g :: rest)) in *.
      cbn [map] in *. rewrite joinFields_cons in *. cbn [String.append] in *.
      destruct fuel as [|fuel]; [lia|].
      rewrite decodeRecord_separator. cbn [String.length] in Hfuel.
      inversion Hall as [|? ? Hg Hrest]; subst.
      destruct (joinFields (encodeRunes g :: map encodeRunes rest))
        as [|c s] eqn:He.
      * destruct rest as [|h rest'].
        -- cbn in He. rewrite He. cbn. now rewrite sapp_nil_r.
        -- cbn [map] in He. rewrite joinFields_cons in He.
           apply sapp_eq_nil in He as [_ He]. discriminate.
      * rewrite <- He in *.
        rewrite IH; auto; try lia.
        -- cbn. rewrite sapp_nil_r, <- app_assoc. reflexivity.
        -- rewrite He. discriminate.
    + (* a rune of the first field *)
      cbn [map] in *. rewrite joinFields_cons in *.
      rewrite encodeRunes_cons in *. rewrite sapp_assoc in *.
      destruct fuel as [|fuel]; [lia|].
      inversion Hf as [|? ? [Hr [H1 _]] Hf']; subst.
      rewrite decodeRecord_rune by assumption.
      rewrite length_sapp in Hfuel.
      pose proof (string_of_rune_nonempty r) as Hlen. unfold len in Hlen.
      destruct (encodeRunes f ++ String SOH
                  (joinFields (encodeRunes g :: map encodeRunes rest)))%string
        as [|c s] eqn:He.
      * apply sapp_eq_nil in He as [_ He]. discriminate.
      * rewrite <- He in *. rewrite <- joinFields_cons in *.
        rewrite IHf; auto; try lia.
        -- now rewrite sapp_assoc.
        -- rewrite He. discriminate.
Qed.

(** **** The record of a line *)

Lemma encodeRunes_app (a b : list Z) :
  encodeRunes (a ++ b) = (encodeRunes a ++ encodeRunes b)%string.
Proof.
  unfold encodeRunes. induction a as [|r a IH]; cbn [app fold_right].
  - reflexivity.
  - rewrite IH. now rewrite sapp_assoc.
Qed.

Lemma runes_skip_drop (s : string) :
  forall k, utf8.runes_skip k s = utf8.runes (drop k s).
Proof.
  induction s as [|c s IH]; intros [|k]; try reflexivity.
  cbn [utf8.runes_skip drop]. apply IH.
Qed.

Lemma runes_cons (c : ascii) (b : string) :
  utf8.runes (String c b)
  = fst (utf8.DecodeRune (String c b))
    :: utf8.runes (drop (Z.to_nat (snd (utf8.DecodeRune (String c b))))
                        (String c b)).
Proof.
  destruct (DecodeRune_width (String c b)) as [_ Hw].
  specialize (Hw ltac:(discriminate)).
  unfold utf8.runes at 1. cbn [utf8.runes_skip].
  destruct (utf8.DecodeRune (String c b)) as [r w]. cbn [fst snd] in *.
  rewrite runes_skip_drop.
  destruct (Z.to_nat w) as [|n] eqn:Hn; [lia|].
  cbn [drop]. now rewrite Nat.sub_succ, Nat.sub_0_r.
Qed.

Lemma drop_ge (n : nat) (s : string) :
  (String.length s <= n)%nat -> drop n s = EmptyString.
Proof.
  revert s; induction n as [|n IH]; intros [|c s]; cbn; intros H;
    try reflexivity; try lia.
  apply IH. lia.
Qed.

(** The inner loop cuts the runes of a line at the separator. *)
Lemma decodeRecord_split (fuel : nat) :
  forall (b : string) (cur : list Z) (record : list string),
    b <> EmptyString ->
    (String.length b < fuel)%nat ->
    decodeRecord fuel b (encodeRunes cur) record
    = Some (record ++ map encodeRunes (splitRunes (utf8.runes b) cur)).
Proof.
  induction fuel as [|fuel IH]; intros b cur record Hne Hfuel; [lia|].
  destruct b as [|c b]; [congruence|].
  rewrite runes_cons. cbn [decodeRecord].
  destruct (DecodeRune_width (String c b)) as [_ Hw].
  specialize (Hw ltac:(discriminate)).
  destruct (utf8.DecodeRune (String c b)) as [r w]. cbn [fst snd] in *.
  change (byte_val SOH) with 1. cbn [splitRunes].
  assert (Hrest : forall field record',
    (if len (String c b) <=? w then Some (record' ++ [field])
     else decodeRecord fuel (drop (Z.to_nat w) (String c b)) field record')
    = match drop (Z.to_nat w) (String c b) with
      | EmptyString => Some (record' ++ [field])
      | _ => decodeRecord fuel (drop (Z.to_nat w) (String c b)) field record'
      end).
  { intros field record'. destruct (Z.leb_spec (len (String c b)) w) as [H|H].
    - rewrite drop_ge by (unfold len in H; lia). reflexivity.
    - destruct (drop (Z.to_nat w) (String c b)) eqn:Hd; [|reflexivity].
      exfalso. apply (f_equal String.length) in Hd.
      rewrite length_drop in Hd. unfold len in H. cbn [String.length] in *.
      lia. }
  assert (Hstep : forall cur' record',
    match drop (Z.to_nat w) (String c b) with
    | EmptyString => Some (record' ++ [encodeRunes cur'])
    | _ => decodeRecord fuel (drop (Z.to_nat w) (String c b))
                        (encodeRunes cur') record'
    end
    = Some (record'
            ++ map encodeRunes
                 (splitRunes
                    (utf8.runes (drop (Z.to_nat w) (String c b))) cur'))).
  { intros cur' record'.
    destruct (drop (Z.to_nat w) (String c b)) as [|c' b'] eqn:Hd.
    - reflexivity.
    - apply IH; [discriminate|].
      rewrite <- Hd, length_drop. cbn [String.length] in *. lia. }
  destruct (Z.eqb_spec r 1) as [->|Hr].
  - rewrite Hrest. change EmptyString with (encodeRunes []).
    rewrite Hstep. cbn [map]. now rewrite <- app_assoc.
  - rewrite Hrest.
    replace (encodeRunes cur ++ utf8.string_of_rune r)%string
      with (encodeRunes (cur ++ [r])).
    + apply Hstep.
    + rewrite encodeRunes_app. unfold encodeRunes at 2. cbn [fold_right].
      now rewrite sapp_nil_r.
Qed.

Lemma decodeRecord_recordOf (b : string) :
  decodeRecord (S (String.length b)) b EmptyString [] = Some (recordOf b).
Proof.
  destruct b as [|c b]; [vm_compute; reflexivity|].
  change EmptyString with (encodeRunes []) at 1.
  rewrite decodeRecord_split; [reflexivity|discriminate|lia].
Qed.

(** **** The lines of a text *)

Lemma linesFrom_line (l : string) :
  forall cur rest,
    bufio.index_newline l = None ->
    linesFrom cur (l ++ String LF rest)%string
    = bufio.dropCR (cur ++ l)%string :: linesOf rest.
Proof.
  induction l as [|c l IH]; intros cur rest Hl.
  - cbn. rewrite sapp_nil_r. reflexivity.
  - cbn [bufio.index_newline] in Hl.
    destruct (Ascii.eqb c LF) eqn:Hc; [discriminate|].
    destruct (bufio.index_newline l) eqn:Hl'; [discriminate|].
    cbn [String.append linesFrom]. rewrite Hc, IH by reflexivity.
    rewrite sapp_assoc. reflexivity.
Qed.

Lemma linesFrom_last (l : string) :
  forall cur,
    bufio.index_newline l = None ->
    linesFrom cur l
    = match (cur ++ l)%string with
      | EmptyString => []
      | _ => [bufio.dropCR (cur ++ l)%string]
      end.
Proof.
  induction l as [|c l IH]; intros cur Hl.
  - cbn [linesFrom]. rewrite sapp_nil_r. reflexivity.
  - cbn [bufio.index_newline] in Hl.
    destruct (Ascii.eqb c LF) eqn:Hc; [discriminate|].
    destruct (bufio.index_newline l) eqn:Hl'; [discriminate|].
    cbn [linesFrom]. rewrite Hc, IH by reflexivity.
    rewrite sapp_assoc. reflexivity.
Qed.

Lemma linesOf_lines (ls : list string) (last : string) :
  Forall (fun l => bufio.index_newline l = None) ls ->
  bufio.index_newline last = None ->
  linesOf (encodeLines ls ++ last)%string
  = map bufio.dropCR ls
    ++ match last with
       | EmptyString => []
       | _ => [bufio.dropCR last]
       end.
Proof.
  induction 1 as [|l ls Hl _ IH]; intros Hlast.
  - cbn [encodeLines fold_right String.append map app]. unfold linesOf.
    now rewrite linesFrom_last.
  - cbn [encodeLines fold_right map app]. fold (encodeLines ls).
    rewrite sapp_assoc. cbn [String.append]. unfold linesOf at 1.
    rewrite linesFrom_line by exact Hl. cbn [String.append].
    now rewrite IH.
Qed.

Lemma byte_of_neq (z : Z) (c : ascii) :
  0 <= z < 256 -> z <> byte_val c -> Ascii.eqb (byte_of z) c = false.
Proof.
  intros Hz Hne. apply Ascii.eqb_neq. intros Heq. apply Hne.
  rewrite <- Heq. symmetry. now apply byte_val_of.
Qed.

Lemma contains_sapp (c : ascii) (a b : string) :
  contains c (a ++ b)%string = contains c a || contains c b.
Proof.
  induction a as [|ch a IH]; cbn; [reflexivity|].
  now rewrite IH, orb_assoc.
Qed.

(** The encoding of a rune other than the newline has no newline byte. *)
Lemma string_of_rune_no_LF (r : Z) :
  goodRune r -> contains LF (utf8.string_of_rune r) = false.
Proof.
  intros [[Hr Hsur] [_ H10]]. unfold utf8.string_of_rune.
  replace ((r <? 0) || (1114111 <? r) || ((55296 <=? r) && (r <=? 57343)))
    with false.
  2:{ symmetry. rewrite !orb_false_iff, andb_false_iff, !Z.ltb_ge, !Z.leb_gt.
      lia. }
  assert (H6' : forall a, Z.land a 63 = a mod 64)
    by (intros a; apply (land_mod a 6 ltac:(lia))).
  change (byte_val LF) with 10 in *.
  destruct (Z.leb_spec r 127).
  { cbn [utf8.bytes fold_right contains].
    rewrite byte_of_neq; [reflexivity|lia|exact H10]. }
  rewrite !shiftr_div by lia. rewrite !H6'.
  destruct (Z.leb_spec r 2047).
  { rewrite lead_byte2 by arith. rewrite cont_byte by arith.
    cbn [utf8.bytes fold_right contains].
    rewrite !byte_of_neq; try reflexivity;
      change (byte_val LF) with 10; arith. }
  destruct (Z.leb_spec r 65535).
  { rewrite lead_byte3 by arith. rewrite !cont_byte by arith.
    cbn [utf8.bytes fold_right contains].
    rewrite !byte_of_neq; try reflexivity;
      change (byte_val LF) with 10; arith. }
  rewrite lead_byte4 by arith. rewrite !cont_byte by arith.
  cbn [utf8.bytes fold_right contains].
  rewrite !byte_of_neq; try reflexivity;
    change (byte_val LF) with 10; arith.
Qed.

Lemma encodeRunes_no_LF (rs : list Z) :
  Forall goodRune rs -> contains LF (encodeRunes rs) = false.
Proof.
  induction 1 as [|r rs Hr _ IH]; [reflexivity|].
  rewrite encodeRunes_cons, contains_sapp, IH, string_of_rune_no_LF by auto.
  reflexivity.
Qed.

Lemma fieldTexts_runes (row : list string) :
  Forall fieldText row ->
  exists fields,
    row = map encodeRunes fields /\ Forall (Forall goodRune) fields.
Proof.
  induction 1 as [|f row [rs [-> Hrs]] _ [fields [-> Hall]]].
  - exists []. split; [reflexivity|constructor].
  - exists (rs :: fields). split; [reflexivity|now constructor].
Qed.

Lemma joinFields_no_LF (fields : list (list Z)) :
  Forall (Forall goodRune) fields ->
  contains LF (joinFields (map encodeRunes fields)) = false.
Proof.
  induction 1 as [|f fields Hf Hall IH]; [reflexivity|].
  destruct fields as [|g rest].
  - cbn. now apply encodeRunes_no_LF.
  - cbn [map] in *. rewrite joinFields_cons, contains_sapp.
    rewrite encodeRunes_no_LF by exact Hf. cbn [contains orb].
    rewrite IH. reflexivity.
Qed.

(** The inner loop reads an exportable row back. *)
Lemma decodeRecord_row (row : list string) :
  exportableRow row ->
  contains LF (joinFields row) = false
  /\ decodeRecord (S (String.length (joinFields row))) (joinFields row)
                  EmptyString []
     = Some row.
Proof.
  intros [Htext [Hne [_ _]]].
  destruct (fieldTexts_runes row Htext) as [fields [-> Hall]].
  split; [now apply joinFields_no_LF|].
  destruct fields as [|f fields]; [now elim Hne|].
  inversion Hall; subst.
  rewrite decodeRecord_fields; auto.
Qed.

Lemma encodeRecords_lines (rows : list (list string)) :
  encodeRecords rows = encodeLines (map joinFields rows).
Proof.
  induction rows as [|row rows IH]; [reflexivity|].
  cbn [encodeRecords encodeLines fold_right map].
  fold (encodeRecords rows). fold (encodeLines (map joinFields rows)).
  unfold encodeRecord. rewrite sapp_assoc, IH. reflexivity.
Qed.

Lemma length_encodeLines (lines : list string) :
  (List.length lines <= String.length (encodeLines lines))%nat.
Proof.
  induction lines as [|l lines IH]; [cbn; lia|].
  cbn [encodeLines fold_right List.length]. fold (encodeLines lines).
  rewrite length_sapp. cbn [String.length]. lia.
Qed.

(** **** One turn of the scanning loop *)

Lemma recordsLoop_token (fuel : nat) (s s' : bufio.Scanner)
    (records : list (list string)) (row : list string) :
  bufio.Scan s = Some (true, s') ->
  bufio.Err s' = None ->
  decodeRecord (S (String.length (bufio.sc_token s'))) (bufio.sc_token s')
               EmptyString [] = Some row ->
  recordsLoop (S fuel) s records = recordsLoop fuel s' (records ++ [row]).
Proof.
  intros Hscan Herr Hdec. cbn [recordsLoop]. rewrite Hscan. cbn [negb].
  rewrite Herr. unfold bufio.Bytes. rewrite Hdec. reflexivity.
Qed.

Lemma recordsLoop_shown (fuel : nat) (s s' : bufio.Scanner)
    (records : list (list string)) (e : error) :
  bufio.Scan s = Some (true, s') ->
  bufio.Err s' = Some e ->
  recordsLoop (S fuel) s records = Some (Err e).
Proof.
  intros Hscan Herr. cbn [recordsLoop]. rewrite Hscan. cbn [negb].
  rewrite Herr. reflexivity.
Qed.

Lemma recordsLoop_stop (fuel : nat) (s s' : bufio.Scanner)
    (records : list (list string)) :
  bufio.Scan s = Some (false, s') ->
  recordsLoop (S fuel) s records = Some (Ok records).
Proof. intros Hscan. cbn [recordsLoop]. rewrite Hscan. reflexivity. Qed.

(** After a token that leaves [rest] to scan, with [tail] at its end. *)
Lemma quiet_after (s s' : bufio.Scanner) (rest tail : string) :
  quiet s tail ->
  scanning s' ->
  rd_err (bufio.sc_r s') = rd_err (bufio.sc_r s) ->
  rd_eager (bufio.sc_r s') = rd_eager (bufio.sc_r s) ->
  0 < bufio.sc_start s' ->
  (rd_eager (bufio.sc_r s) = false ->
   bufio.sc_err s = None -> bufio.sc_err s' = None) ->
  unscanned s' = rest ->
  len tail <= len rest ->
  bufio.Err s' = None /\ quiet s' tail.
Proof.
  intros [Hclean | [[Hlazy Hnone] | Hlong]] Hs' Hre Heg Hst Hkeep Hun Hlen.
  - rewrite <- Hre in Hclean. split; [now apply Err_clean|now left].
  - specialize (Hkeep Hlazy Hnone). split.
    + unfold bufio.Err. now rewrite Hkeep.
    + right. left. split; congruence.
  - assert (Hnone : bufio.sc_err s' = None).
    { destruct (bufio.sc_err s') as [e|] eqn:He; [|reflexivity]. exfalso.
      destruct Hs' as (H0 & H1 & H2 & H3). rewrite He in H3.
      destruct H3 as (Hd & _). unfold unscanned in Hun.
      rewrite Hd, sapp_nil_r in Hun. unfold bufio.sc_end in H1.
      rewrite Hun in H1. lia. }
    split; [unfold bufio.Err; now rewrite Hnone|].
    right. right. exact Hlong.
Qed.

(** The scanning loop over complete lines that fit the buffer. *)
Lemma recordsLoop_lines (ls : list string) (rows : list (list string)) :
  Forall2 (fun l row =>
             bufio.index_newline l = None
             /\ len l < bufio.MaxScanTokenSize
             /\ decodeRecord (S (String.length (bufio.dropCR l)))
                             (bufio.dropCR l) EmptyString [] = Some row)
          ls rows ->
  forall (fuel : nat) (s : bufio.Scanner) (records : list (list string))
         (tail : string),
    scanning s ->
    unscanned s = (encodeLines ls ++ tail)%string ->
    quiet s tail ->
    exists s',
      recordsLoop (List.length ls + fuel) s records
      = recordsLoop fuel s' (records ++ rows)
      /\ scanning s'
      /\ unscanned s' = tail
      /\ rd_err (bufio.sc_r s') = rd_err (bufio.sc_r s)
      /\ rd_eager (bufio.sc_r s') = rd_eager (bufio.sc_r s)
      /\ quiet s' tail
      /\ (eagerLive s -> eagerLive s').
Proof.
  induction 1 as [|l row ls rows (Hline & Hlen & Hdec) _ IH];
    intros fuel s records tail Hs Hun Hquiet.
  - exists s. cbn [List.length Nat.add]. rewrite app_nil_r.
    cbn [encodeLines fold_right String.append] in Hun.
    split; [reflexivity|]. split; [exact Hs|]. split; [exact Hun|].
    split; [reflexivity|]. split; [reflexivity|]. split; [exact Hquiet|].
    auto.
  - cbn [encodeLines fold_right] in Hun. fold (encodeLines ls) in Hun.
    rewrite sapp_assoc in Hun. cbn [String.append] in Hun.
    destruct (Scan_line s l _ Hs Hun Hline Hlen)
      as (s1 & Hscan & Hs1 & Hun1 & Htok & Hre & Heg & Hst & Hlive & Hkeep).
    destruct (quiet_after s s1 _ tail Hquiet Hs1 Hre Heg Hst Hkeep Hun1)
      as [Herr Hquiet1].
    { rewrite len_sapp. pose proof (len_nonneg (encodeLines ls)). lia. }
    rewrite <- Htok in Hdec.
    destruct (IH fuel s1 (records ++ [row]) tail Hs1 Hun1 Hquiet1)
      as (s' & Hloop & Hs' & Hun' & Hre' & Heg' & Hquiet' & Hlive').
    exists s'. cbn [List.length Nat.add].
    rewrite (recordsLoop_token _ s s1 records row Hscan Herr Hdec), Hloop.
    rewrite <- app_assoc. cbn [app].
    split; [reflexivity|]. split; [exact Hs'|]. split; [exact Hun'|].
    split; [congruence|]. split; [congruence|]. split; [exact Hquiet'|].
    auto.
Qed.

(** The lines of exportable rows. *)
Lemma exportable_lines (rows : list (list string)) :
  Forall exportableRow rows ->
  Forall2 (fun l row =>
             bufio.index_newline l = None
             /\ len l < bufio.MaxScanTokenSize
             /\ decodeRecord (S (String.length (bufio.dropCR l)))
                             (bufio.dropCR l) EmptyString [] = Some row)
          (map joinFields rows) rows.
Proof.
  induction 1 as [|row rows Hrow _ IH]; [constructor|].
  cbn [map]. constructor; [|exact IH].
  destruct (decodeRecord_row row Hrow) as [Hlf Hdec].
  destruct Hrow as (_ & _ & Hcr & Hlen).
  rewrite (dropCR_id _ Hcr).
  split; [now apply index_newline_none|]. split; assumption.
Qed.

Lemma length_encodeRecords (rows : list (list string)) :
  (List.length rows <= String.length (encodeRecords rows))%nat.
Proof.
  rewrite encodeRecords_lines.
  pose proof (length_encodeLines (map joinFields rows)) as H.
  now rewrite length_map in H.
Qed.

(** X1.  The decoder reads back what the compressed export writes: for
    rows whose fields are well-formed UTF-8 text without U+0001 and
    newline, written one per line with the fields joined by U+0001 (each
    line non-empty, not ending in a carriage return, shorter than the
    scanner's buffer), [getRecordsFromGzip] returns exactly these rows, in
    order; and so it does from every reader that delivers these bytes and
    ends cleanly, however it cuts its reads and reports its end. *)
Theorem getRecordsFromGzip_roundtrip (rows : list (list string)) :
  Forall exportableRow rows ->
  getRecordsFromGzip (strings_NewReader (encodeRecords rows))
  = Some (Ok rows)
  /\ (forall reader : Reader,
        rd_data reader = encodeRecords rows ->
        notEOF (rd_err reader) = None ->
        getRecordsFromGzip reader = Some (Ok rows)).
Proof.
  intros Hrows.
  assert (Hall : forall reader : Reader,
            rd_data reader = encodeRecords rows ->
            notEOF (rd_err reader) = None ->
            getRecordsFromGzip reader = Some (Ok rows)).
  { intros reader Hdata Hclean. unfold getRecordsFromGzip. rewrite Hdata.
    pose proof (length_encodeRecords rows) as Hlen.
    replace (2 + String.length (encodeRecords rows))%nat
      with (List.length (map joinFields rows)
            + S (S (String.length (encodeRecords rows)
                    - List.length rows)))%nat
      by (rewrite length_map; lia).
    destruct (recordsLoop_lines _ _ (exportable_lines rows Hrows)
                (S (S (String.length (encodeRecords rows)
                       - List.length rows)))
                (bufio.NewScanner reader) [] EmptyString
                (NewScanner_scanning reader))
      as (s' & Hloop & Hs' & Hun' & _).
    - unfold unscanned.
      cbn [bufio.NewScanner bufio.sc_buf bufio.sc_r String.append].
      rewrite Hdata, sapp_nil_r. apply encodeRecords_lines.
    - left. exact Hclean.
    - rewrite Hloop. destruct (Scan_end s' Hs' Hun') as [s'' Hend].
      rewrite (recordsLoop_stop _ s' s'' _ Hend). reflexivity. }
  split; [|exact Hall].
  apply Hall; reflexivity.
Qed.

(** X2.  A line that does not fit the scanner's buffer ends the decoding
    without any error: whatever the reader, however it cuts its reads and
    however it ends, [getRecordsFromGzip] returns the rows read before
    that line as a success and drops the rest of the input.  The line is
    too long when 65536 bytes or more come before its newline, or when it
    is the unterminated rest and has more than 65536 bytes, or exactly
    that many and the reader reports its end by a read of its own. *)
Theorem getRecordsFromGzip_truncates (rows : list (list string))
    (tail : string) (reader : Reader) :
  Forall exportableRow rows ->
  rd_data reader = (encodeRecords rows ++ tail)%string ->
  tooLong (rd_eager reader) tail ->
  getRecordsFromGzip reader = Some (Ok rows).
Proof.
  intros Hrows Hdata Hlong. unfold getRecordsFromGzip.
  pose proof (length_encodeRecords rows) as Hlen.
  assert (Htail : bufio.MaxScanTokenSize <= len tail).
  { unfold tooLong in Hlong.
    destruct (bufio.index_newline tail) as [i|] eqn:Hi.
    - apply index_newline_lt in Hi. unfold len. lia.
    - destruct (rd_eager reader); lia. }
  rewrite Hdata, length_sapp.
  replace (2 + (String.length (encodeRecords rows) + String.length tail))%nat
    with (List.length (map joinFields rows)
          + S (S (String.length (encodeRecords rows) - List.length rows
                  + String.length tail)))%nat
    by (rewrite length_map; lia).
  destruct (recordsLoop_lines _ _ (exportable_lines rows Hrows)
              (S (S (String.length (encodeRecords rows) - List.length rows
                     + String.length tail)))
              (bufio.NewScanner reader) [] tail
              (NewScanner_scanning reader))
    as (s' & Hloop & Hs' & Hun' & _ & Heg & _).
  - unfold unscanned. cbn [bufio.NewScanner bufio.sc_buf bufio.sc_r
                           String.append].
    rewrite Hdata, encodeRecords_lines. reflexivity.
  - right. right. exact Htail.
  - rewrite Hloop.
    destruct (Scan_tooLong s' Hs') as [s'' Hstop].
    + rewrite Hun', Heg. exact Hlong.
    + rewrite (recordsLoop_stop _ s' s'' _ Hstop). reflexivity.
Qed.

Lemma getRecordsFromGzip_roundtrip_witness :
  getRecordsFromGzip
    (strings_NewReader
       (encodeRecords [[encodeRunes [26085; 26412]; "x"]; ["1"; ""]]))
  = Some (Ok [[encodeRunes [26085; 26412]; "x"]; ["1"; ""]]).
Proof.
  refine (proj1 (getRecordsFromGzip_roundtrip
                   [[encodeRunes [26085; 26412]; "x"]; ["1"; ""]] _)).
  constructor; [|constructor; [|constructor]].
  - split; [|split; [|split]].
    + constructor; [|constructor; [|constructor]].
      * exists [26085; 26412]. split; [reflexivity|].
        repeat constructor; unfold validRune; lia.
      * exists [120]. split; [reflexivity|].
        repeat constructor; unfold validRune; lia.
    + intros H. vm_compute in H. discriminate H.
    + vm_compute. reflexivity.
    + vm_compute. reflexivity.
  - split; [|split; [|split]].
    + constructor; [|constructor; [|constructor]].
      * exists [49]. split; [reflexivity|].
        repeat constructor; unfold validRune; lia.
      * exists []. split; [reflexivity|constructor].
    + intros H. vm_compute in H. discriminate H.
    + vm_compute. reflexivity.
    + vm_compute. reflexivity.
Defined.

Lemma getRecordsFromGzip_truncates_witness :
  getRecordsFromGzip
    (mkReaderCut (encodeRecords [["1"; "a"]]
                  ++ replicate (Z.to_nat 65536) "x" ++ String LF "2")%string
                 (Some (external_error "unexpected EOF")) [100%nat; 5000%nat]
                 true)
  = Some (Ok [["1"; "a"]]).
Proof.
  apply (getRecordsFromGzip_truncates [["1"; "a"]]
           (replicate (Z.to_nat 65536) "x" ++ String LF "2")%string).
  - constructor; [|constructor].
    split; [|split; [|split]].
    + constructor; [|constructor; [|constructor]].
      * exists [49]. split; [reflexivity|].
        repeat constructor; unfold validRune; lia.
      * exists [97]. split; [reflexivity|].
        repeat constructor; unfold validRune; lia.
    + intros H. vm_compute in H. discriminate H.
    + vm_compute. reflexivity.
    + vm_compute. reflexivity.
  - reflexivity.
  - vm_compute. discriminate.
Defined.

(** *** Which errors the decoder reports *)

Lemma recordsLoop_error (fuel : nat) :
  forall (s : bufio.Scanner) (records : list (list string)) (e : error),
    scanning s ->
    recordsLoop fuel s records = Some (Err e) ->
    rd_err (bufio.sc_r s) = Some e.
Proof.
  induction fuel as [|fuel IH]; intros s records e Hs; [discriminate|].
  cbn [recordsLoop].
  destruct (bufio.Scan s) as [[more s']|] eqn:Hscan; [|discriminate].
  destruct more; cbn [negb]; [|discriminate].
  destruct (Scan_true s s' Hs Hscan) as (Hs' & Hre & _).
  destruct (bufio.Err s') as [e'|] eqn:Herr.
  - intros [= <-]. rewrite <- Hre.
    exact (proj1 (Err_of_reader s' e' Hs' Herr)).
  - destruct (decodeRecord _ _ _ _); [|discriminate].
    intros H. rewrite <- Hre. exact (IH s' _ e Hs' H).
Qed.

(** X3.  An error that [getRecordsFromGzip] returns is the error that
    ended its reader: the decoder has no error of its own, and the
    scanner's [ErrTooLong] in particular is never reported. *)
Theorem getRecordsFromGzip_error_is_readers (reader : Reader) (e : error) :
  getRecordsFromGzip reader = Some (Err e) -> rd_err reader = Some e.
Proof.
  unfold getRecordsFromGzip. intros H.
  exact (recordsLoop_error _ _ _ e (NewScanner_scanning reader) H).
Qed.

Lemma getRecordsFromGzip_error_is_readers_witness :
  getRecordsFromGzip (mkReader "1" (Some (external_error "unexpected EOF")))
  = Some (Err (external_error "unexpected EOF"))
  /\ rd_err (mkReader "1" (Some (external_error "unexpected EOF")))
     = Some (external_error "unexpected EOF").
Proof.
  split; [vm_compute; reflexivity|].
  apply (getRecordsFromGzip_error_is_readers
           (mkReader "1" (Some (external_error "unexpected EOF")))).
  vm_compute. reflexivity.
Defined.

(** **** Where the scanner learns of the error *)

Lemma endsWith_sapp (c c' : ascii) (l rest : string) :
  endsWith c (l ++ String c' rest)%string
  = match rest with
    | EmptyString => Ascii.eqb c' c
    | _ => endsWith c rest
    end.
Proof.
  induction l as [|ch l IH]; [reflexivity|].
  cbn [String.append]. rewrite <- IH. cbn [endsWith].
  destruct (l ++ String c' rest)%string eqn:He; [|reflexivity].
  apply sapp_eq_nil in He as [_ He]. discriminate.
Qed.

Lemma endsWith_app (c : ascii) (a b : string) :
  b <> EmptyString -> endsWith c (a ++ b)%string = endsWith c b.
Proof.
  intros Hb. induction a as [|ch a IH]; [reflexivity|].
  cbn [String.append endsWith]. rewrite <- IH.
  destruct (a ++ b)%string eqn:He; [|reflexivity].
  apply sapp_eq_nil in He as [_ He]. congruence.
Qed.

Lemma endsWith_no_newline (l : string) :
  bufio.index_newline l = None -> endsWith LF l = false.
Proof.
  induction l as [|c l IH]; [reflexivity|].
  cbn [bufio.index_newline].
  destruct (Ascii.eqb c LF) eqn:Hc; [discriminate|].
  destruct (bufio.index_newline l) eqn:Hl; [discriminate|].
  intros _. cbn [endsWith]. destruct l; [exact Hc|]. now apply IH.
Qed.

Lemma endsWith_encodeLines (ls : list string) :
  ls <> [] -> endsWith LF (encodeLines ls) = true.
Proof.
  induction ls as [|l ls IH]; [congruence|]. intros _.
  cbn [encodeLines fold_right]. fold (encodeLines ls).
  rewrite endsWith_sapp. destruct ls as [|l' ls'].
  - reflexivity.
  - specialize (IH ltac:(discriminate)).
    destruct (encodeLines (l' :: ls')) eqn:He; [discriminate IH|exact IH].
Qed.

(** A text whose lines fit the buffer: its complete lines, and its
    unterminated rest. *)
Lemma shortLines_lines (s : string) :
  shortLines s ->
  exists ls last,
    s = (encodeLines ls ++ last)%string
    /\ Forall (fun l => bufio.index_newline l = None
                        /\ len l < bufio.MaxScanTokenSize) ls
    /\ bufio.index_newline last = None
    /\ len last < bufio.MaxScanTokenSize.
Proof.
  induction 1 as [l Hl Hlen | l rest Hl Hlen _ (ls & last & -> & Hls & Hlast)].
  - exists [], l. split; [reflexivity|]. split; [constructor|].
    split; [now apply index_newline_none|exact Hlen].
  - exists (l :: ls), last. split.
    + cbn [encodeLines fold_right]. fold (encodeLines ls).
      rewrite sapp_assoc. reflexivity.
    + split; [|exact Hlast]. constructor; [|exact Hls].
      split; [now apply index_newline_none|exact Hlen].
Qed.

Lemma recordOf_lines (ls : list string) :
  Forall (fun l => bufio.index_newline l = None
                   /\ len l < bufio.MaxScanTokenSize) ls ->
  Forall2 (fun l row =>
             bufio.index_newline l = None
             /\ len l < bufio.MaxScanTokenSize
             /\ decodeRecord (S (String.length (bufio.dropCR l)))
                             (bufio.dropCR l) EmptyString [] = Some row)
          ls (map recordOf (map bufio.dropCR ls)).
Proof.
  induction 1 as [|l ls [Hl Hlen] _ IH]; [constructor|].
  cbn [map]. constructor; [|exact IH].
  split; [exact Hl|]. split; [exact Hlen|apply decodeRecord_recordOf].
Qed.

(** A reader that reports its error with its last bytes: some token is
    cut off after that read, and the error shows with it. *)
Lemma recordsLoop_eager (content : string) :
  shortLines content ->
  forall (fuel : nat) (s : bufio.Scanner) (records : list (list string))
         (e : error),
    scanning s ->
    unscanned s = content ->
    rd_eager (bufio.sc_r s) = true ->
    rd_err (bufio.sc_r s) = Some e ->
    e <> io_EOF ->
    eagerLive s ->
    bufio.sc_err s = None ->
    (String.length content < fuel)%nat ->
    recordsLoop fuel s records = Some (Err e).
Proof.
  induction 1 as [l Hl Hlen | l rest Hl Hlen _ IH];
    intros fuel s records e Hs Hun Heager Hre Hne Hlive Hnone Hfuel;
    (destruct fuel as [|fuel]; [lia|]);
    apply index_newline_none in Hl.
  - assert (Hl0 : l <> EmptyString).
    { intros ->. apply (Hlive Heager Hnone).
      unfold unscanned in Hun. now apply sapp_eq_nil in Hun. }
    destruct (Scan_last s l Hs Hun Hl0 Hl Hlen)
      as (s' & Hscan & Hs' & _ & _ & Hre' & _ & Hset).
    apply (recordsLoop_shown _ s s' _ e Hscan).
    apply Err_shown; auto. congruence.
  - destruct (Scan_line s l rest Hs Hun Hl Hlen)
      as (s' & Hscan & Hs' & Hun' & _ & Hre' & Heg' & _ & Hlive' & _).
    destruct (bufio.sc_err s') as [e'|] eqn:Herr.
    + apply (recordsLoop_shown _ s s' _ e Hscan).
      apply Err_shown; auto; congruence.
    + rewrite (recordsLoop_token _ s s' records (recordOf (bufio.sc_token s'))
                 Hscan).
      * apply IH; auto; try congruence.
        rewrite length_sapp in Hfuel. cbn [String.length] in Hfuel. lia.
      * unfold bufio.Err. now rewrite Herr.
      * apply decodeRecord_recordOf.
Qed.

(** X4.  Whether [getRecordsFromGzip] returns the error of a failing
    reader depends on when the scanner learns of it (all lines fitting the
    scanner's buffer).  From a reader that reports the error together
    with its last bytes the error is returned whenever the reader
    delivered any byte, complete lines included, and the rows are
    discarded.  From a reader that reports it by a read of its own the
    error is returned only when the bytes end inside a line; when they end
    with a newline the error is dropped and the rows of all lines are
    returned.  A reader that fails before its first byte gives no rows and
    no error. *)
Theorem getRecordsFromGzip_reader_error (reader : Reader) (e : error) :
  rd_err reader = Some e ->
  e <> io_EOF ->
  shortLines (rd_data reader) ->
  (rd_data reader = EmptyString -> getRecordsFromGzip reader = Some (Ok []))
  /\ (rd_eager reader = true -> rd_data reader <> EmptyString ->
      getRecordsFromGzip reader = Some (Err e))
  /\ (rd_eager reader = false -> rd_data reader <> EmptyString ->
      endsWith LF (rd_data reader) = false ->
      getRecordsFromGzip reader = Some (Err e))
  /\ (rd_eager reader = false -> endsWith LF (rd_data reader) = true ->
      getRecordsFromGzip reader
      = Some (Ok (map recordOf (linesOf (rd_data reader))))).
Proof.
  intros Hre Hne Hshort. unfold getRecordsFromGzip.
  pose proof (NewScanner_scanning reader) as Hs.
  assert (Hun : unscanned (bufio.NewScanner reader) = rd_data reader)
    by reflexivity.
  split; [|split; [|split]].
  - intros Hempty. rewrite Hempty in Hun.
    destruct (Scan_end _ Hs Hun) as [s' Hend].
    rewrite Hempty. cbn [String.length Nat.add].
    apply (recordsLoop_stop _ _ s' _ Hend).
  - intros Heager Hdata.
    apply (recordsLoop_eager _ Hshort); auto; [|lia].
    intros _ _. exact Hdata.
  - intros Hlazy Hdata Hends.
    destruct (shortLines_lines _ Hshort)
      as (ls & last & Heq & Hls & Hlast & Hlen).
    assert (Hlast0 : last <> EmptyString).
    { intros ->. rewrite sapp_nil_r in Heq. rewrite Heq in Hends, Hdata.
      destruct ls as [|l ls]; [now apply Hdata|].
      rewrite endsWith_encodeLines in Hends; discriminate. }
    pose proof (length_encodeLines ls) as Hlines.
    rewrite Heq in Hun. rewrite Heq, length_sapp.
    replace (2 + (String.length (encodeLines ls) + String.length last))%nat
      with (List.length ls
            + S (S (String.length (encodeLines ls) - List.length ls
                    + String.length last)))%nat by lia.
    destruct (recordsLoop_lines _ _ (recordOf_lines ls Hls)
                (S (S (String.length (encodeLines ls) - List.length ls
                       + String.length last)))
                _ [] last Hs Hun)
      as (s' & Hloop & Hs' & Hun' & Hre' & _).
    { right. left. split; [exact Hlazy|reflexivity]. }
    rewrite Hloop. cbn [bufio.NewScanner bufio.sc_r] in Hre'.
    destruct (Scan_last s' last Hs' Hun' Hlast0 Hlast Hlen)
      as (s'' & Hscan & Hs'' & _ & _ & Hre'' & _ & Hset).
    apply (recordsLoop_shown _ s' s'' _ e Hscan).
    apply Err_shown; auto. congruence.
  - intros Hlazy Hends.
    destruct (shortLines_lines _ Hshort)
      as (ls & last & Heq & Hls & Hlast & Hlen).
    assert (Hlast0 : last = EmptyString).
    { destruct last as [|c last]; [reflexivity|]. exfalso.
      rewrite Heq, endsWith_app, endsWith_no_newline in Hends;
        [discriminate|exact Hlast|discriminate]. }
    subst last. rewrite sapp_nil_r in Heq.
    pose proof (length_encodeLines ls) as Hlines.
    rewrite Heq in Hun. rewrite Heq.
    replace (2 + String.length (encodeLines ls))%nat
      with (List.length ls
            + S (S (String.length (encodeLines ls) - List.length ls)))%nat
      by lia.
    rewrite <- (sapp_nil_r (encodeLines ls)) in Hun.
    destruct (recordsLoop_lines _ _ (recordOf_lines ls Hls)
                (S (S (String.length (encodeLines ls) - List.length ls)))
                _ [] EmptyString Hs Hun)
      as (s' & Hloop & Hs' & Hun' & _).
    { right. left. split; [exact Hlazy|reflexivity]. }
    rewrite Hloop. destruct (Scan_end s' Hs' Hun') as [s'' Hend].
    rewrite (recordsLoop_stop _ s' s'' _ Hend). cbn [app].
    assert (HL : linesOf (encodeLines ls) = map bufio.dropCR ls).
    { pose proof (linesOf_lines ls EmptyString) as HL.
      rewrite sapp_nil_r, app_nil_r in HL. apply HL; [|reflexivity].
      eapply Forall_impl; [|exact Hls]. intros l [H _]. exact H. }
    rewrite HL. reflexivity.
Qed.

Lemma getRecordsFromGzip_reader_error_witness :
  getRecordsFromGzip
    (mkReaderCut (encodeRecords [["1"; "a"]; ["2"; "b"]])
                 (Some (external_error "unexpected EOF")) [4%nat] true)
  = Some (Err (external_error "unexpected EOF"))
  /\ getRecordsFromGzip
       (mkReaderCut (encodeRecords [["1"; "a"]; ["2"; "b"]])
                    (Some (external_error "unexpected EOF")) [4%nat] false)
     = Some (Ok (map recordOf
                     (linesOf (encodeRecords [["1"; "a"]; ["2"; "b"]])))).
Proof.
  assert (Hshort : shortLines (encodeRecords [["1"; "a"]; ["2"; "b"]])).
  { apply (shortLines_more (joinFields ["1"; "a"])
                           (encodeRecords [["2"; "b"]]));
      [vm_compute; reflexivity|vm_compute; reflexivity|].
    apply (shortLines_more (joinFields ["2"; "b"]) EmptyString);
      [vm_compute; reflexivity|vm_compute; reflexivity|].
    apply shortLines_last; vm_compute; reflexivity. }
  split.
  - apply (proj1 (proj2 (getRecordsFromGzip_reader_error
             (mkReaderCut (encodeRecords [["1"; "a"]; ["2"; "b"]])
                          (Some (external_error "unexpected EOF"))
                          [4%nat] true)
             (external_error "unexpected EOF") eq_refl
             ltac:(discriminate) Hshort))).
    + reflexivity.
    + vm_compute. discriminate.
  - apply (proj2 (proj2 (proj2 (getRecordsFromGzip_reader_error
             (mkReaderCut (encodeRecords [["1"; "a"]; ["2"; "b"]])
                          (Some (external_error "unexpected EOF"))
                          [4%nat] false)
             (external_error "unexpected EOF") eq_refl
             ltac:(discriminate) Hshort)))).
    + reflexivity.
    + vm_compute. reflexivity.
Defined.

(** *** The manifest *)

Lemma keysLoop_lines (start : Z) (lines : list string) :
  Forall manifestLine lines ->
  forall (fuel : nat) (s : bufio.Scanner) (keys : list string),
    scanning s ->
    unscanned s = encodeLines lines ->
    notEOF (rd_err (bufio.sc_r s)) = None ->
    (List.length lines < fuel)%nat ->
    keysLoop fuel s start keys
    = Some (Ok (keys ++ map (objectKeyOf start) lines)).
Proof.
  induction 1 as [|l lines [Hlf [Hcr Hlen]] _ IH];
    intros fuel s keys Hs Hun Hclean Hfuel;
    (destruct fuel as [|fuel]; [cbn in Hfuel; lia|]).
  - destruct (Scan_end s Hs Hun) as [s' Hend].
    cbn [keysLoop]. rewrite Hend. cbn [negb map]. now rewrite app_nil_r.
  - cbn [encodeLines fold_right] in Hun. fold (encodeLines lines) in Hun.
    destruct (Scan_line s l _ Hs Hun (index_newline_none _ Hlf) Hlen)
      as (s' & Hscan & Hs' & Hun' & Htok & Hre & _).
    cbn [keysLoop]. rewrite Hscan. cbn [negb].
    rewrite (Err_clean s' Hs') by congruence.
    unfold bufio.Text. rewrite Htok, (dropCR_id _ Hcr).
    fold (objectKeyOf start l).
    rewrite IH; auto; try congruence.
    + cbn [map]. now rewrite <- app_assoc.
    + cbn [List.length] in Hfuel. lia.
Qed.

(** The keys of a manifest of well-formed lines. *)
Lemma getObjectKeysForGzip_lines (start : Z) (lines : list string) :
  Forall manifestLine lines ->
  getObjectKeysForGzip (strings_NewReader (encodeLines lines)) start
  = Some (Ok (map (objectKeyOf start) lines)).
Proof.
  intros Hlines. unfold getObjectKeysForGzip.
  pose proof (length_encodeLines lines) as Hlen.
  apply (keysLoop_lines start lines Hlines _ _ []).
  - apply NewScanner_scanning.
  - reflexivity.
  - reflexivity.
  - cbn [strings_NewReader mkReader rd_data]. lia.
Qed.

Lemma getObjectKeysForGzip_prefixed (prefix : string)
    (keys : list string) :
  prefix <> EmptyString ->
  Forall (fun k => k <> EmptyString /\ manifestLine (prefix ++ k)%string)
         keys ->
  getObjectKeysForGzip
    (strings_NewReader
       (encodeLines (map (fun k => (prefix ++ k)%string) keys)))
    (len prefix)
  = Some (Ok keys).
Proof.
  intros Hprefix Hkeys.
  rewrite getObjectKeysForGzip_lines.
  - do 2 f_equal. rewrite map_map.
    rewrite <- (map_id keys) at 2. apply map_ext_in.
    intros k Hin. rewrite Forall_forall in Hkeys.
    destruct (Hkeys k Hin) as [Hk _].
    unfold objectKeyOf. rewrite len_sapp.
    replace ((0 <? len prefix) && (len prefix <? len prefix + len k))
      with true.
    + unfold len at 1. rewrite Nat2Z.id. apply drop_sapp.
    + symmetry. rewrite andb_true_iff, !Z.ltb_lt.
      destruct prefix; [now elim Hprefix|].
      destruct k; [now elim Hk|].
      rewrite !len_String.
      pose proof (len_nonneg prefix). pose proof (len_nonneg k). lia.
  - rewrite Forall_map. eapply Forall_impl; [|exact Hkeys].
    intros k [_ H]. exact H.
Qed.

(** X5.  [getObjectKeysForGzip] turns the full paths of a manifest into
    object keys: when every line is a common prefix of [start] bytes
    followed by a non-empty key, the result is the list of these keys, in
    the order of the manifest. *)
Theorem getObjectKeysForGzip_strips_prefix (prefix : string)
    (keys : list string) :
  prefix <> EmptyString ->
  Forall (fun k => k <> EmptyString /\ manifestLine (prefix ++ k)%string)
         keys ->
  getObjectKeysForGzip
    (strings_NewReader
       (encodeLines (map (fun k => (prefix ++ k)%string) keys)))
    (len prefix)
  = Some (Ok keys).
Proof.
  intros Hprefix Hkeys. now apply getObjectKeysForGzip_prefixed.
Qed.

Lemma getObjectKeysForGzip_strips_prefix_witness :
  getObjectKeysForGzip
    (strings_NewReader
       (encodeLines
          (map (fun k => ("s3://results/" ++ k)%string)
               ["tables/q-1/part-0.gz"; "tables/q-1/part-1.gz"])))
    (len "s3://results/")
  = Some (Ok ["tables/q-1/part-0.gz"; "tables/q-1/part-1.gz"]).
Proof.
  apply (getObjectKeysForGzip_strips_prefix "s3://results/"
           ["tables/q-1/part-0.gz"; "tables/q-1/part-1.gz"]).
  - discriminate.
  - constructor; [|constructor; [|constructor]];
      (split; [discriminate|]);
      (split; [|split]); vm_compute; reflexivity.
Defined.

(** X6.  [getObjectKeysForGzip] cuts nothing from a line that is not
    longer than [start], and nothing at all when [start] is not positive:
    such lines are returned whole as keys. *)
Theorem getObjectKeysForGzip_keeps_short_lines (start : Z)
    (lines : list string) :
  Forall manifestLine lines ->
  start <= 0 \/ Forall (fun l => len l <= start) lines ->
  getObjectKeysForGzip (strings_NewReader (encodeLines lines)) start
  = Some (Ok lines).
Proof.
  intros Hlines Hshort.
  rewrite getObjectKeysForGzip_lines by exact Hlines.
  do 2 f_equal. rewrite <- (map_id lines) at 2. apply map_ext_in.
  intros l Hin. unfold objectKeyOf.
  replace ((0 <? start) && (start <? len l)) with false; [reflexivity|].
  symmetry. rewrite andb_false_iff, !Z.ltb_ge.
  destruct Hshort as [H|H]; [left; lia|].
  right. rewrite Forall_forall in H. now apply H.
Qed.

Lemma getObjectKeysForGzip_keeps_short_lines_witness :
  getObjectKeysForGzip
    (strings_NewReader (encodeLines ["s3://results/"; "s3://b/t1"])) 13
  = Some (Ok ["s3://results/"; "s3://b/t1"]).
Proof.
  apply (getObjectKeysForGzip_keeps_short_lines 13
           ["s3://results/"; "s3://b/t1"]).
  - constructor; [|constructor; [|constructor]];
      (split; [|split]); vm_compute; reflexivity.
  - right. constructor; [|constructor; [|constructor]];
      vm_compute; discriminate.
Defined.

(** X7.  The download follows the paths of the manifest: when the manifest
    lists, as the location followed by a slash and a key, objects that
    decode to the given rows, [downloadCompressedData] fetches exactly
    these keys from the bucket of the location and the buffer then holds
    the rows of the objects in the order of the manifest. *)
Theorem downloadCompressedData_manifest_paths (store : Store)
    (r : rowsGzipDL) (location : string) (keys : list string)
    (rowss : list (list (list string))) :
  1 <= len location ->
  5 <= len (trimmed location) ->
  Forall (fun k => k <> EmptyString
                   /\ manifestLine (trimmed location ++ "/" ++ k)%string)
         keys ->
  readsAs store (bucketOf location) (manifestKey (r_queryID r))
          (encodeLines
             (map (fun k => ((trimmed location ++ "/") ++ k)%string) keys)) ->
  Forall2 (decodesTo store (bucketOf location)) keys rowss ->
  exists r',
    downloadCompressedData store r location = Returned (r', None)
    /\ buffer r' = buffer r ++ List.concat rowss.
Proof.
  intros H1 H5 Hkeys [body [Hmanifest Hread]] Hdec.
  rewrite downloadCompressedData_slices.
  replace ((1 <=? len location) && (5 <=? len (trimmed location))) with true
    by (symmetry; rewrite andb_true_iff, !Z.leb_le; lia).
  rewrite Hmanifest, Hread.
  replace (len (trimmed location) + 1)
    with (len (trimmed location ++ "/")%string)
    by (rewrite len_sapp; reflexivity).
  rewrite getObjectKeysForGzip_prefixed.
  - cbn [of_fuel obind].
    destruct (downloadObjects_concat store (bucketOf location) keys rowss
                Hdec r) as [r' [Hrun [Hbuf _]]].
    exists r'. split; assumption.
  - intros H. apply sapp_eq_nil in H as [_ H]. discriminate.
  - eapply Forall_impl; [|exact Hkeys].
    intros k [Hk Hline]. split; [exact Hk|].
    now rewrite sapp_assoc.
Qed.

Lemma downloadCompressedData_manifest_paths_witness :
  exists r',
    downloadCompressedData Scenario.twoObjects Scenario.r0 "s3://results/"
    = Returned (r', None)
    /\ buffer r' = [["1"; "a"]; ["2"; "b"]; ["3"; "c"];
                    ["4"; "d"]; ["5"; "e"]].
Proof.
  apply (downloadCompressedData_manifest_paths Scenario.twoObjects
           Scenario.r0 "s3://results/" ["t1"; "t2"]
           [[["1"; "a"]; ["2"; "b"]; ["3"; "c"]];
            [["4"; "d"]; ["5"; "e"]]]).
  - vm_compute. discriminate.
  - vm_compute. discriminate.
  - constructor; [|constructor; [|constructor]];
      (split; [discriminate|]);
      (split; [|split]); vm_compute; reflexivity.
  - eexists. split; reflexivity.
  - constructor; [|constructor; [|constructor]].
    + exists (Scenario.line ["1"; "a"] ++ Scenario.line ["2"; "b"]
              ++ Scenario.line ["3"; "c"])%string.
      exists (mkReaderCut
                (Scenario.line ["1"; "a"] ++ Scenario.line ["2"; "b"]
                 ++ Scenario.line ["3"; "c"])%string None [] true).
      split; [eexists; split; reflexivity|]. split; [reflexivity|].
      vm_compute. reflexivity.
    + exists (Scenario.line ["4"; "d"] ++ Scenario.line ["5"; "e"])%string.
      exists (mkReaderCut
                (Scenario.line ["4"; "d"] ++ Scenario.line ["5"; "e"])%string
                None [] true).
      split; [eexists; split; reflexivity|]. split; [reflexivity|].
      vm_compute. reflexivity.
Defined.

(** *** The await loop, in general *)

(** X8.  Every run of [waitOnQuery] is a number of rounds, each a status
    check followed by a full poll interval, and then one last status
    check; after it the function returns at once, or, when the context is
    done during the wait that follows, sends exactly one stop request and
    returns the error of the context.  It contacts the engine in no other
    way, and while the loop is still running (no fuel left) it has sent no
    stop request. *)
Theorem waitOnQuery_trace (env : Env) (c : conn) (ctx : context)
    (queryID : string) (fuel : nat) :
  forall (w w' : World) (o : outcome (option error)),
    waitOnQuery env fuel c ctx queryID w = (o, w') ->
    exists (k : nat) (tail : list event),
      w' = w ++ polls queryID (pollFrequency c) k ++ tail
      /\ ((o = OutOfFuel /\ k = fuel /\ tail = [])
          \/ (o <> OutOfFuel /\ tail = [EvGetQueryExecution queryID])
          \/ (exists ctxErr,
                env_select env (count is_select w + k) = Some ctxErr
                /\ o = Returned (Some ctxErr)
                /\ tail = [EvGetQueryExecution queryID; EvCtxDone;
                           EvStopQueryExecution queryID])).
Proof.
  induction fuel as [|fuel IH]; intros w w' o H.
  - injection H as <- <-. exists O, []. cbn. rewrite app_nil_r. auto.
  - cbn [waitOnQuery] in H.
    unfold bind at 1, GetQueryExecution at 1, call in H.
    assert (Hfinal : forall o0 : outcome (option error),
      (o0, w ++ [EvGetQueryExecution queryID]) = (o, w') ->
      o0 <> OutOfFuel ->
      exists (k : nat) (tail : list event),
        w' = w ++ polls queryID (pollFrequency c) k ++ tail
        /\ ((o = OutOfFuel /\ k = S fuel /\ tail = [])
            \/ (o <> OutOfFuel /\ tail = [EvGetQueryExecution queryID])
            \/ (exists ctxErr,
                  env_select env (count is_select w + k) = Some ctxErr
                  /\ o = Returned (Some ctxErr)
                  /\ tail = [EvGetQueryExecution queryID; EvCtxDone;
                             EvStopQueryExecution queryID]))).
    { intros o0 [= <- <-] Ho. exists O, [EvGetQueryExecution queryID].
      cbn. auto. }
    assert (Hpending :
      bind (select_Done_or_After env (pollFrequency c))
           (fun done => match done with
                        | Some ctxErr =>
                          bind (StopQueryExecution env queryID)
                               (fun _ => ret (Some ctxErr))
                        | None => waitOnQuery env fuel c ctx queryID
                        end) (w ++ [EvGetQueryExecution queryID])
      = (o, w') ->
      exists (k : nat) (tail : list event),
        w' = w ++ polls queryID (pollFrequency c) k ++ tail
        /\ ((o = OutOfFuel /\ k = S fuel /\ tail = [])
            \/ (o <> OutOfFuel /\ tail = [EvGetQueryExecution queryID])
            \/ (exists ctxErr,
                  env_select env (count is_select w + k) = Some ctxErr
                  /\ o = Returned (Some ctxErr)
                  /\ tail = [EvGetQueryExecution queryID; EvCtxDone;
                             EvStopQueryExecution queryID]))).
    { unfold bind at 1, select_Done_or_After.
      rewrite count_app. cbn [count filter is_select List.length].
      rewrite Nat.add_0_r.
      destruct (env_select env (count is_select w)) as [ctxErr|] eqn:Hsel.
      - unfold bind, StopQueryExecution, call, ret. intros [= <- <-].
        exists O. eexists. split.
        + cbn [polls app]. rewrite <- !app_assoc. reflexivity.
        + right. right. exists ctxErr. rewrite Nat.add_0_r. auto.
      - intros Hrec. apply IH in Hrec as [k [tail [Hlog Hcases]]].
        exists (S k), tail. split.
        + rewrite Hlog. cbn [polls]. rewrite <- !app_assoc. reflexivity.
        + rewrite !count_app in Hcases.
          cbn [count filter is_select List.length] in Hcases.
          replace (count is_select w + 0 + 1 + k)%nat
            with (count is_select w + S k)%nat in Hcases by lia.
          destruct Hcases as [[Ho [Hk Ht]] | [[Ho Ht] | Hdone]].
          * left. auto.
          * right. left. auto.
          * right. right. exact Hdone. }
    destruct (env_GetQueryExecution env (count is_get w) queryID)
      as [status|err]; [|apply (Hfinal _ H); discriminate].
    destruct (State status);
      try (apply Hpending; exact H);
      try (apply (Hfinal _ H); discriminate).
    destruct (StateChangeReason status); apply (Hfinal _ H); discriminate.
Qed.

Lemma waitOnQuery_trace_witness :
  exists (k : nat) (tail : list event),
    [EvGetQueryExecution "q-1"; EvTimeAfter 5;
     EvGetQueryExecution "q-1"; EvTimeAfter 5;
     EvGetQueryExecution "q-1"; EvCtxDone; EvStopQueryExecution "q-1"]
    = [] ++ polls "q-1" (pollFrequency Scenario.c0) k ++ tail
    /\ ((Returned (Some context_DeadlineExceeded) = OutOfFuel
         /\ k = 8%nat /\ tail = [])
        \/ (Returned (Some context_DeadlineExceeded) <> OutOfFuel
            /\ tail = [EvGetQueryExecution "q-1"])
        \/ (exists ctxErr,
              env_select Scenario.deadline (count is_select [] + k)
              = Some ctxErr
              /\ Returned (Some context_DeadlineExceeded)
                 = Returned (Some ctxErr)
              /\ tail = [EvGetQueryExecution "q-1"; EvCtxDone;
                         EvStopQueryExecution "q-1"])).
Proof.
  apply (waitOnQuery_trace Scenario.deadline Scenario.c0 Scenario.noOverride
           "q-1" 8 []).
  vm_compute. reflexivity.
Defined.

(** X9.  [waitOnQuery] has no bound of its own: as long as the engine
    reports a pending state and the context is not done it goes on
    polling, whatever the timeout of the connection; after any number [n]
    of rounds it has not returned and has sent no stop request. *)
Theorem waitOnQuery_no_timeout (env : Env) (c : conn) (ctx : context)
    (queryID : string) (w : World) :
  (forall n, exists status,
       env_GetQueryExecution env n queryID = Ok status
       /\ pending (State status) = true) ->
  (forall n, env_select env n = None) ->
  forall n,
    waitOnQuery env n c ctx queryID w
    = (OutOfFuel, w ++ polls queryID (pollFrequency c) n).
Proof.
  intros Hget Hsel n.
  replace n with (n + 0)%nat at 1 by lia.
  rewrite waitOnQuery_rounds.
  - reflexivity.
  - intros i _. destruct (Hget (count is_get w + i)%nat) as [st [H1 H2]].
    exists st. auto.
Qed.

Lemma waitOnQuery_no_timeout_witness :
  waitOnQuery Scenario2.running 3 Scenario.c0 Scenario.noOverride "q-1" []
  = (OutOfFuel,
     [EvGetQueryExecution "q-1"; EvTimeAfter 5;
      EvGetQueryExecution "q-1"; EvTimeAfter 5;
      EvGetQueryExecution "q-1"; EvTimeAfter 5]).
Proof.
  apply (waitOnQuery_no_timeout Scenario2.running Scenario.c0
           Scenario.noOverride "q-1" []).
  - intros n. exists (mkStatus QueryExecutionStateRunning None).
    split; reflexivity.
  - intros n. reflexivity.
Defined.

(** X10.  A status check that fails ends the wait with that very error,
    after any number [k] of rounds, with no stop request; and a status
    check that answers Failed without a reason makes [waitOnQuery] panic
    on the nil reason. *)
Theorem waitOnQuery_status_failure (env : Env) (c : conn) (ctx : context)
    (queryID : string) (fuel k : nat) (w : World) :
  (k < fuel)%nat ->
  (forall i, (i < k)%nat ->
     exists st,
       env_GetQueryExecution env (count is_get w + i) queryID = Ok st
       /\ pending (State st) = true
       /\ env_select env (count is_select w + i) = None) ->
  (forall err,
     env_GetQueryExecution env (count is_get w + k) queryID = Err err ->
     waitOnQuery env fuel c ctx queryID w
     = (Returned (Some err),
        w ++ polls queryID (pollFrequency c) k
          ++ [EvGetQueryExecution queryID]))
  /\ (env_GetQueryExecution env (count is_get w + k) queryID
      = Ok (mkStatus QueryExecutionStateFailed None) ->
      waitOnQuery env fuel c ctx queryID w
      = (Panicked "nil pointer dereference",
         w ++ polls queryID (pollFrequency c) k
           ++ [EvGetQueryExecution queryID])).
Proof.
  intros Hfuel Hrounds.
  replace fuel with (k + S (fuel - S k))%nat by lia.
  rewrite waitOnQuery_rounds by exact Hrounds. split.
  - intros err Hget. cbn [waitOnQuery].
    unfold bind, GetQueryExecution, call.
    rewrite count_app, count_polls_get, Hget. unfold ret.
    now rewrite <- app_assoc.
  - intros Hget. cbn [waitOnQuery].
    unfold bind, GetQueryExecution, call.
    rewrite count_app, count_polls_get, Hget. cbn.
    now rewrite <- app_assoc.
Qed.

Lemma waitOnQuery_status_failure_witness :
  waitOnQuery Scenario2.flaky 4 Scenario.c0 Scenario.noOverride "q-1" []
  = (Returned (Some (external_error "throttled")),
     [EvGetQueryExecution "q-1"; EvTimeAfter 5; EvGetQueryExecution "q-1"])
  /\ waitOnQuery Scenario2.noReason 4 Scenario.c0 Scenario.noOverride
                 "q-1" []
     = (Panicked "nil pointer dereference", [EvGetQueryExecution "q-1"]).
Proof.
  split.
  - apply (proj1 (waitOnQuery_status_failure Scenario2.flaky Scenario.c0
                    Scenario.noOverride "q-1" 4 1 [] ltac:(lia)
                    ltac:(intros i Hi;
                          exists (mkStatus QueryExecutionStateRunning None);
                          destruct i; [repeat split|lia]))).
    reflexivity.
  - apply (proj2 (waitOnQuery_status_failure Scenario2.noReason Scenario.c0
                    Scenario.noOverride "q-1" 4 0 [] ltac:(lia)
                    ltac:(intros i Hi; lia))).
    reflexivity.
Defined.

(** *** Classification *)

Lemma runes_ascii (c : ascii) (s : string) :
  byte_val c < 128 ->
  utf8.runes (String c s) = byte_val c :: utf8.runes s.
Proof.
  intros H. unfold utf8.runes. cbn [utf8.runes_skip utf8.DecodeRune].
  unfold utf8.first.
  replace (byte_val c <? 128) with true by (symmetry; now apply Z.ltb_lt).
  reflexivity.
Qed.

Lemma matchPrefix_nullable (e : regexp.syntax) (w : list Z) :
  regexp.nullable e = true -> regexp.matchPrefix e w = true.
Proof. intros H. destruct w; cbn; now rewrite H. Qed.

Lemma foldEq_S (r : Z) :
  regexp.foldEq 83 r = true -> r = 83 \/ r = 115 \/ r = 383.
Proof.
  intros H.
  destruct (Z.eqb_spec r 83); auto.
  destruct (Z.eqb_spec r 115); auto.
  destruct (Z.eqb_spec r 383); auto.
  exfalso. unfold regexp.foldEq in H.
  rewrite (proj2 (Z.eqb_neq r 83)), (proj2 (Z.eqb_neq r (83 + 32))),
          (proj2 (Z.eqb_neq r 383)) in H by lia.
  destruct (r =? 83 - 32), (r =? 8490); vm_compute in H; discriminate H.
Qed.

Lemma foldEq_E (r : Z) :
  regexp.foldEq 69 r = true -> r = 69 \/ r = 101.
Proof.
  intros H.
  destruct (Z.eqb_spec r 69); auto.
  destruct (Z.eqb_spec r 101); auto.
  exfalso. unfold regexp.foldEq in H.
  rewrite (proj2 (Z.eqb_neq r 69)), (proj2 (Z.eqb_neq r (69 + 32))) in H
    by lia.
  destruct (r =? 69 - 32), (r =? 8490), (r =? 383);
    vm_compute in H; discriminate H.
Qed.

Ltac literals :=
  repeat (rewrite ?regexp_facts.matchPrefix_Alternate,
                  ?regexp_facts.matchPrefix_Literal; cbv beta iota).

(** A text that matches [^SELECT] does not match the DDL pattern. *)
Lemma select_not_ddl (w : list Z) :
  regexp.matchPrefix (regexp.body selectQueryPattern) w = true ->
  regexp.matchPrefix (regexp.body ddlQueryPattern) w = false.
Proof.
  set (sel := regexp.body selectQueryPattern). vm_compute in sel. subst sel.
  set (ddl := regexp.body ddlQueryPattern). vm_compute in ddl. subst ddl.
  destruct w as [|r1 [|r2 w]]; literals; try discriminate.
  - rewrite andb_false_r. discriminate.
  - intros H. apply andb_true_iff in H as [H1 H].
    apply andb_true_iff in H as [H2 _].
    apply foldEq_S in H1. apply foldEq_E in H2.
    destruct H1 as [-> | [-> | ->]]; destruct H2 as [-> | ->]; reflexivity.
Qed.

(** X11.  The order of the checks in [getQueryType] takes nothing away
    from SELECT: a text classifies as SELECT exactly when it matches
    [(?i)^SELECT], as DDL exactly when it matches the DDL pattern, and a
    text never matches both. *)
Theorem isSelectQuery_is_pattern (query : string) :
  isSelectQuery query = regexp.MatchString selectQueryPattern query
  /\ isDDLQuery query = regexp.MatchString ddlQueryPattern query
  /\ regexp.MatchString selectQueryPattern query
     && regexp.MatchString ddlQueryPattern query = false.
Proof.
  pose proof (select_not_ddl (utf8.runes query)) as Hsel.
  pose proof (ctas_matches_ddl query) as Hctas.
  unfold isSelectQuery, isDDLQuery, getQueryType.
  unfold regexp.MatchString in *.
  change (regexp.beginText selectQueryPattern) with true in *.
  change (regexp.beginText ddlQueryPattern) with true in *.
  change (regexp.beginText ctasQueryPattern) with true in *.
  cbv iota in *.
  destruct (regexp.matchPrefix (regexp.body ddlQueryPattern)
              (utf8.runes query)) eqn:Hd.
  - destruct (regexp.matchPrefix (regexp.body selectQueryPattern)
                (utf8.runes query)); [|auto].
    specialize (Hsel eq_refl). discriminate.
  - destruct (regexp.matchPrefix (regexp.body ctasQueryPattern)
                (utf8.runes query)).
    + specialize (Hctas eq_refl). discriminate.
    + destruct (regexp.matchPrefix (regexp.body selectQueryPattern)
                  (utf8.runes query)); auto.
Qed.

Lemma rewritten_matches_ddl (ctasTable query : string) :
  regexp.MatchString ddlQueryPattern
    ("CREATE TABLE " ++ ctasTable
     ++ " WITH (format='TEXTFILE') AS " ++ query)%string = true.
Proof.
  unfold regexp.MatchString.
  change (regexp.beginText ddlQueryPattern) with true. cbv iota.
  cbn [String.append].
  rewrite !runes_ascii by (vm_compute; reflexivity).
  set (ddl := regexp.body ddlQueryPattern). vm_compute in ddl. subst ddl.
  change (byte_val "C") with 67. change (byte_val "R") with 82.
  change (byte_val "E") with 69. change (byte_val "A") with 65.
  change (byte_val "T") with 84.
  literals.
  change (regexp.matchRune 67 true 67) with true.
  change (regexp.matchRune 82 true 82) with true.
  change (regexp.matchRune 69 true 69) with true.
  change (regexp.matchRune 65 true 65) with true.
  change (regexp.matchRune 84 true 84) with true.
  cbn [andb]. rewrite matchPrefix_nullable by reflexivity.
  now rewrite !orb_true_r.
Qed.

(** X12.  The statement that the CTAS rewrite builds classifies as DDL,
    whatever the table name and the wrapped query, and so neither as
    SELECT nor as CTAS; this is the text [runQuery] classifies for
    [SkipHeader]. *)
Theorem rewritten_query_is_DDL (ctasTable query : string) :
  getQueryType ("CREATE TABLE " ++ ctasTable
                ++ " WITH (format='TEXTFILE') AS " ++ query)%string
  = queryTypeDDL
  /\ isDDLQuery ("CREATE TABLE " ++ ctasTable
                 ++ " WITH (format='TEXTFILE') AS " ++ query)%string = true
  /\ isSelectQuery ("CREATE TABLE " ++ ctasTable
                    ++ " WITH (format='TEXTFILE') AS " ++ query)%string
     = false.
Proof.
  unfold isDDLQuery, isSelectQuery, getQueryType.
  rewrite rewritten_matches_ddl. repeat split.
Qed.

Lemma matchRune_first_false (l r : Z) :
  65 <= l <= 90 -> 0 <= r < 128 -> r <> l -> r <> l + 32 ->
  regexp.matchRune l true r = false.
Proof.
  intros Hl Hr H1 H2.
  unfold regexp.matchRune, regexp.foldEq, regexp.is_lower.
  replace (r =? l) with false by (symmetry; apply Z.eqb_neq; lia).
  replace (r =? l + 32) with false by (symmetry; apply Z.eqb_neq; lia).
  replace (97 <=? l) with false by (symmetry; apply Z.leb_gt; lia).
  replace (r =? 8490) with false by (symmetry; apply Z.eqb_neq; lia).
  replace (r =? 383) with false by (symmetry; apply Z.eqb_neq; lia).
  now rewrite !andb_false_r.
Qed.

(** X13.  The classifier looks at the very first byte: the empty query,
    and every query whose first byte is an ASCII byte other than one of
    the letters A, C, D, M and S in either case (a blank, a line break, a
    comment, a parenthesis, WITH, INSERT and so on), is Unknown, hence not
    a SELECT. *)
Theorem getQueryType_first_byte (c : ascii) (rest : string) :
  byte_val c < 128 ->
  ~ In (byte_val c) [65; 67; 68; 77; 83; 97; 99; 100; 109; 115] ->
  getQueryType (String c rest) = queryTypeUnknown
  /\ isSelectQuery (String c rest) = false
  /\ getQueryType EmptyString = queryTypeUnknown.
Proof.
  intros Hascii Hnot.
  assert (Hpos : 0 <= byte_val c) by (unfold byte_val; lia).
  assert (Hd : regexp.MatchString ddlQueryPattern (String c rest) = false
               /\ regexp.MatchString ctasQueryPattern (String c rest) = false
               /\ regexp.MatchString selectQueryPattern (String c rest)
                  = false).
  { unfold regexp.MatchString.
    change (regexp.beginText ddlQueryPattern) with true.
    change (regexp.beginText ctasQueryPattern) with true.
    change (regexp.beginText selectQueryPattern) with true. cbv iota.
    rewrite runes_ascii by exact Hascii.
    set (ddl := regexp.body ddlQueryPattern). vm_compute in ddl. subst ddl.
    set (sel := regexp.body selectQueryPattern). vm_compute in sel.
    subst sel.
    set (ctas := regexp.body ctasQueryPattern). vm_compute in ctas.
    subst ctas.
    cbn [In] in Hnot.
    rewrite !regexp_facts.matchPrefix_Alternate,
            !regexp_facts.matchPrefix_Literal.
    rewrite !matchRune_first_false by lia.
    repeat split. }
  destruct Hd as [Hddl [Hctas Hsel]].
  unfold isSelectQuery, getQueryType. rewrite Hddl, Hctas, Hsel.
  repeat split.
Qed.

Lemma getQueryType_first_byte_witness :
  getQueryType " SELECT 1" = queryTypeUnknown
  /\ isSelectQuery " SELECT 1" = false.
Proof.
  split.
  - apply (getQueryType_first_byte " " "SELECT 1").
    + vm_compute. reflexivity.
    + vm_compute. intuition discriminate.
  - apply (getQueryType_first_byte " " "SELECT 1").
    + vm_compute. reflexivity.
    + vm_compute. intuition discriminate.
Defined.

(** *** Preparing a statement *)

Lemma waitOnQuery_log_extends (env : Env) (c : conn) (ctx : context)
    (queryID : string) (fuel : nat) :
  forall (w w' : World) (o : outcome (option error)),
    waitOnQuery env fuel c ctx queryID w = (o, w') ->
    exists rest, w' = w ++ rest.
Proof.
  induction fuel as [|fuel IH]; intros w w' o H.
  - injection H as <- <-. exists []. now rewrite app_nil_r.
  - cbn [waitOnQuery] in H.
    unfold bind at 1, GetQueryExecution at 1, call in H.
    assert (Hpending :
      bind (select_Done_or_After env (pollFrequency c))
           (fun done => match done with
                        | Some ctxErr =>
                          bind (StopQueryExecution env queryID)
                               (fun _ => ret (Some ctxErr))
                        | None => waitOnQuery env fuel c ctx queryID
                        end) (w ++ [EvGetQueryExecution queryID])
      = (o, w') -> exists rest, w' = w ++ rest).
    { unfold bind at 1, select_Done_or_After.
      destruct (env_select env _) as [ctxErr|].
      - unfold bind, StopQueryExecution, call, ret. intros [= <- <-].
        eexists. rewrite <- !app_assoc. reflexivity.
      - intros Hrec. apply IH in Hrec as [rest ->].
        eexists. rewrite <- !app_assoc. reflexivity. }
    destruct (env_GetQueryExecution env (count is_get w) queryID)
      as [status|err]; [|injection H as <- <-; eexists; reflexivity].
    destruct (State status);
      try (apply Hpending; exact H);
      try (injection H as <- <-; eexists; reflexivity).
    destruct (StateChangeReason status);
      injection H as <- <-; eexists; reflexivity.
Qed.

Lemma occurrences_sapp (c : ascii) (a b : string) :
  occurrences c (a ++ b)%string = (occurrences c a + occurrences c b)%nat.
Proof.
  induction a as [|ch a IH]; cbn; [reflexivity|].
  destruct (Ascii.eqb ch c); cbn; now rewrite IH.
Qed.

(** [len(strings.Split(s, "?")) - 1] is the number of question marks. *)
Lemma split_question_length (s : string) :
  List.length (split_question s) = S (occurrences "?" s).
Proof.
  induction s as [|ch s IH]; [reflexivity|].
  cbn [split_question occurrences].
  destruct (Ascii.eqb ch "?"); cbn [List.length]; [now rewrite IH|].
  destruct (split_question s); cbn in *; lia.
Qed.

Lemma of_nat_succ_pred (n : nat) : Z.of_nat (S n) - 1 = Z.of_nat n.
Proof. lia. Qed.

(** X14.  What [prepareContext] has done when it returns a statement.  It
    drew one identifier for the prepare key and, for a SELECT in the
    compressed-download mode only, one before it for the temporary table;
    it sent [PREPARE key FROM text] where the text is the query, wrapped
    into the CTAS statement in that mode; the statement carries the table
    name and the cleanup for the same table (none in the other modes), and
    its [numInput] is the number of question-mark bytes of the text,
    wherever they stand. *)
Theorem prepareContext_statement (env : Env) (fuel : nat) (c : conn)
    (ctx : context) (query : string) (w w' : World) (stmt : stmtAthena) :
  prepareContext env fuel c ctx query w = (Returned (Ok stmt), w') ->
  let u1 := remove_dashes (env_uuid env (count is_uuid w)) in
  let u2 := remove_dashes (env_uuid env (S (count is_uuid w))) in
  if isCreatingCTASTable (isSelectQuery query)
                         (prepareContext_resultMode c ctx query)
  then
    let table := ("tmp_ctas_" ++ u1)%string in
    let text := ("CREATE TABLE " ++ table
                 ++ " WITH (format='TEXTFILE') AS " ++ query)%string in
    stmt_ctasTable stmt = table
    /\ stmt_afterDownload stmt = Some (dropCTASTable env fuel c ctx table)
    /\ stmt_prepareKey stmt = ("tmp_prepare_" ++ u2)%string
    /\ stmt_numInput stmt = Z.of_nat (occurrences "?" text)
    /\ exists input rest,
         QueryString input
         = ("PREPARE tmp_prepare_" ++ u2 ++ " FROM " ++ text)%string
         /\ w' = w ++ [EvNewV4; EvNewV4; EvStartQueryExecution input] ++ rest
  else
    stmt_ctasTable stmt = EmptyString
    /\ stmt_afterDownload stmt = None
    /\ stmt_prepareKey stmt = ("tmp_prepare_" ++ u1)%string
    /\ stmt_numInput stmt = Z.of_nat (occurrences "?" query)
    /\ exists input rest,
         QueryString input
         = ("PREPARE tmp_prepare_" ++ u1 ++ " FROM " ++ query)%string
         /\ w' = w ++ [EvNewV4; EvStartQueryExecution input] ++ rest.
Proof.
  intros H u1 u2. unfold prepareContext, ctasBlock in H.
  destruct (isCreatingCTASTable (isSelectQuery query)
              (prepareContext_resultMode c ctx query)).
  - unfold bind at 1 2, uuid_NewV4 at 1, call at 1, ret at 1 in H.
    unfold bind at 1, uuid_NewV4, call in H.
    rewrite count_app in H. cbn [count filter is_uuid List.length] in H.
    replace (count is_uuid w + 1)%nat with (S (count is_uuid w)) in H by lia.
    unfold bind at 1, startQuery, StartQueryExecution, call in H.
    destruct (env_StartQueryExecution env _ _) as [queryID|err];
      [|discriminate H].
    unfold bind in H.
    destruct (waitOnQuery env fuel c ctx queryID _) as [[[err|]| |] w4] eqn:Hw;
      try discriminate H.
    apply waitOnQuery_log_extends in Hw as [rest Hw]. subst w4.
    rewrite split_question_length in H.
    injection H as <- <-. cbn [stmt_ctasTable stmt_afterDownload
      stmt_prepareKey stmt_numInput].
    repeat split.
    + exact (of_nat_succ_pred _).
    + eexists. exists rest.
      split; [|rewrite <- !app_assoc; reflexivity]. reflexivity.
  - unfold bind at 1, ret at 1 in H.
    unfold bind at 1, uuid_NewV4, call in H.
    unfold bind at 1, startQuery, StartQueryExecution, call in H.
    destruct (env_StartQueryExecution env _ _) as [queryID|err];
      [|discriminate H].
    unfold bind in H.
    destruct (waitOnQuery env fuel c ctx queryID _) as [[[err|]| |] w4] eqn:Hw;
      try discriminate H.
    apply waitOnQuery_log_extends in Hw as [rest Hw]. subst w4.
    rewrite split_question_length in H.
    injection H as <- <-. cbn [stmt_ctasTable stmt_afterDownload
      stmt_prepareKey stmt_numInput].
    repeat split.
    + exact (of_nat_succ_pred _).
    + eexists. exists rest.
      split; [|rewrite <- !app_assoc; reflexivity]. reflexivity.
Qed.

Lemma prepareContext_statement_witness :
  exists stmt w',
    prepareContext Scenario.quick 8 Scenario.c0 Scenario.noOverride
                   "SELECT * FROM t WHERE a = ? AND b = '?'" []
    = (Returned (Ok stmt), w')
    /\ stmt_ctasTable stmt
       = "tmp_ctas_6ba7b8109dad11d180b400c04fd430c8"
    /\ stmt_numInput stmt = 2.
Proof.
  destruct (prepareContext Scenario.quick 8 Scenario.c0 Scenario.noOverride
              "SELECT * FROM t WHERE a = ? AND b = '?'" [])
    as [[[stmt|err]| |] w'] eqn:H;
    try (vm_compute in H; discriminate H).
  exists stmt, w'. split; [reflexivity|].
  pose proof (prepareContext_statement Scenario.quick 8 Scenario.c0
                Scenario.noOverride
                "SELECT * FROM t WHERE a = ? AND b = '?'" [] w' stmt H)
    as Hstmt.
  change (isCreatingCTASTable
            (isSelectQuery "SELECT * FROM t WHERE a = ? AND b = '?'")
            (prepareContext_resultMode Scenario.c0 Scenario.noOverride
               "SELECT * FROM t WHERE a = ? AND b = '?'"))
    with true in Hstmt.
  cbv zeta iota in Hstmt.
  destruct Hstmt as [Htable [_ [_ [Hnum _]]]].
  split; [exact Htable|exact Hnum].
Defined.

(** The wait cut short by the context, after [k] rounds. *)
Lemma waitOnQuery_cut (env : Env) (c : conn) (ctx : context)
    (queryID : string) (fuel k : nat) (w : World)
    (status : QueryExecutionStatus) (ctxErr : error) :
  (k < fuel)%nat ->
  (forall i, (i < k)%nat ->
     exists st,
       env_GetQueryExecution env (count is_get w + i) queryID = Ok st
       /\ pending (State st) = true
       /\ env_select env (count is_select w + i) = None) ->
  env_GetQueryExecution env (count is_get w + k) queryID = Ok status ->
  pending (State status) = true ->
  env_select env (count is_select w + k) = Some ctxErr ->
  waitOnQuery env fuel c ctx queryID w
  = (Returned (Some ctxErr),
     w ++ polls queryID (pollFrequency c) k
       ++ [EvGetQueryExecution queryID; EvCtxDone;
           EvStopQueryExecution queryID]).
Proof.
  intros Hfuel Hrounds Hget Hpend Hsel.
  replace fuel with (k + S (fuel - S k))%nat by lia.
  rewrite waitOnQuery_rounds by exact Hrounds.
  cbn [waitOnQuery]. unfold bind at 1, GetQueryExecution at 1, call.
  rewrite count_app, count_polls_get, Hget.
  assert (Hdone :
    bind (select_Done_or_After env (pollFrequency c))
      (fun done => match done with
                   | Some ctxErr =>
                     bind (StopQueryExecution env queryID)
                          (fun _ => ret (Some ctxErr))
                   | None => waitOnQuery env (fuel - S k) c ctx queryID
                   end)
      ((w ++ polls queryID (pollFrequency c) k)
         ++ [EvGetQueryExecution queryID])
    = (Returned (Some ctxErr),
       w ++ polls queryID (pollFrequency c) k
         ++ [EvGetQueryExecution queryID; EvCtxDone;
             EvStopQueryExecution queryID])).
  { unfold bind, select_Done_or_After.
    rewrite !count_app, count_polls_select.
    cbn [count filter is_select List.length].
    rewrite Nat.add_0_r, Hsel.
    unfold StopQueryExecution, call, ret.
    now rewrite <- !app_assoc. }
  destruct (State status); try discriminate Hpend; exact Hdone.
Qed.

(** X15.  When the caller's context ends while [PrepareContext] waits for
    the PREPARE statement, [prepareContext] returns no statement, the
    final [select] finds the context done and calls [Close] on the nil
    statement: [PrepareContext] panics instead of returning the error of
    the context, the stop request having been sent. *)
Theorem PrepareContext_cancelled_panics (env : Env)
    (stmtClose : stmtAthena -> M (option error))
    (ctxErr : World -> option error)
    (fuel k : nat) (c : conn) (ctx : context) (query queryID : string)
    (w : World) (status : QueryExecutionStatus) (e : error) :
  ctxErr w = None ->
  (forall w1, In EvCtxDone w1 -> ctxErr w1 <> None) ->
  (k < fuel)%nat ->
  (forall input,
     env_StartQueryExecution env (count is_start w) input = Ok queryID) ->
  (forall i, (i < k)%nat ->
     exists st,
       env_GetQueryExecution env (count is_get w + i) queryID = Ok st
       /\ pending (State st) = true
       /\ env_select env (count is_select w + i) = None) ->
  env_GetQueryExecution env (count is_get w + k) queryID = Ok status ->
  pending (State status) = true ->
  env_select env (count is_select w + k) = Some e ->
  exists w',
    PrepareContext env stmtClose ctxErr fuel c ctx query w
    = (Panicked "nil pointer dereference", w')
    /\ In (EvStopQueryExecution queryID) w'.
Proof.
  intros Hentry Hdone Hfuel Hstart Hrounds Hget Hpend Hsel.
  assert (Hprep : exists w',
    prepareContext env fuel c ctx query w = (Returned (Err e), w')
    /\ In EvCtxDone w' /\ In (EvStopQueryExecution queryID) w').
  { unfold prepareContext, ctasBlock.
    destruct (isCreatingCTASTable (isSelectQuery query)
                (prepareContext_resultMode c ctx query)).
    - unfold bind at 1 2, uuid_NewV4 at 1, call at 1, ret at 1.
      unfold bind at 1, uuid_NewV4, call.
      unfold bind at 1, startQuery, StartQueryExecution, call.
      rewrite !count_app. cbn [count filter is_start List.length].
      rewrite !Nat.add_0_r, Hstart. unfold bind.
      rewrite (waitOnQuery_cut env c ctx queryID fuel k _ status e Hfuel).
      + eexists. split; [reflexivity|].
        rewrite !in_app_iff. cbn [In]. split; right; right; auto.
      + intros i Hi. rewrite !count_app.
        cbn [count filter is_get is_select List.length].
        rewrite !Nat.add_0_r. now apply Hrounds.
      + rewrite !count_app. cbn [count filter is_get List.length].
        now rewrite !Nat.add_0_r.
      + exact Hpend.
      + rewrite !count_app. cbn [count filter is_select List.length].
        now rewrite !Nat.add_0_r.
    - unfold bind at 1, ret at 1.
      unfold bind at 1, uuid_NewV4, call.
      unfold bind at 1, startQuery, StartQueryExecution, call.
      rewrite !count_app. cbn [count filter is_start List.length].
      rewrite !Nat.add_0_r, Hstart. unfold bind.
      rewrite (waitOnQuery_cut env c ctx queryID fuel k _ status e Hfuel).
      + eexists. split; [reflexivity|].
        rewrite !in_app_iff. cbn [In]. split; right; right; auto.
      + intros i Hi. rewrite !count_app.
        cbn [count filter is_get is_select List.length].
        rewrite !Nat.add_0_r. now apply Hrounds.
      + rewrite !count_app. cbn [count filter is_get List.length].
        now rewrite !Nat.add_0_r.
      + exact Hpend.
      + rewrite !count_app. cbn [count filter is_select List.length].
        now rewrite !Nat.add_0_r. }
  destruct Hprep as [w' [Hprep [Hin Hstop]]].
  exists w'. split; [|exact Hstop].
  unfold PrepareContext. rewrite Hentry, Hprep.
  destruct (ctxErr w') eqn:Hexit; [reflexivity|].
  now elim (Hdone w' Hin).
Qed.

Lemma PrepareContext_cancelled_panics_witness :
  exists w',
    PrepareContext Scenario.deadline (fun _ => ret None)
      (fun w => if existsb (fun ev => match ev with
                                      | EvCtxDone => true
                                      | _ => false
                                      end) w
                then Some context_DeadlineExceeded else None)
      8 Scenario.c0 Scenario.noOverride "SHOW TABLES" []
    = (Panicked "nil pointer dereference", w')
    /\ In (EvStopQueryExecution "q-1") w'.
Proof.
  apply (PrepareContext_cancelled_panics Scenario.deadline
           (fun _ => ret None)
           (fun w => if existsb (fun ev => match ev with
                                           | EvCtxDone => true
                                           | _ => false
                                           end) w
                     then Some context_DeadlineExceeded else None)
           8 2 Scenario.c0 Scenario.noOverride "SHOW TABLES" "q-1" []
           (mkStatus QueryExecutionStateRunning None)
           context_DeadlineExceeded).
  - reflexivity.
  - intros w1 Hin.
    replace (existsb (fun ev => match ev with
                                | EvCtxDone => true
                                | _ => false
                                end) w1) with true; [discriminate|].
    symmetry. apply existsb_exists. exists EvCtxDone. auto.
  - lia.
  - intros input. reflexivity.
  - intros i Hi. exists (mkStatus QueryExecutionStateRunning None).
    repeat split. destruct i as [|[|i]]; [reflexivity|reflexivity|lia].
  - reflexivity.
  - reflexivity.
  - reflexivity.
Defined.

(** *** The cursor, further *)

Lemma columnNames_Returned (cols : list Column) :
  forall acc names,
    columnNames cols acc = Returned names
    <-> exists ns, map col_Name cols = map Some ns /\ names = acc ++ ns.
Proof.
  induction cols as [|col cols IH]; intros acc names; cbn [columnNames map].
  - split.
    + intros [= <-]. exists []. now rewrite app_nil_r.
    + intros [ns [Hns ->]]. destruct ns; [|discriminate].
      now rewrite app_nil_r.
  - destruct (col_Name col) as [name|].
    + rewrite IH. split.
      * intros [ns [Hns ->]]. exists (name :: ns). cbn [map].
        rewrite Hns, <- app_assoc. auto.
      * intros [ns [Hns ->]]. destruct ns as [|n ns]; [discriminate|].
        cbn [map] in Hns. injection Hns as <- Hns.
        exists ns. rewrite <- app_assoc. auto.
    + split; [discriminate|].
      intros [ns [Hns _]]. destruct ns; discriminate.
Qed.

Lemma columnNames_Panicked (cols : list Column) :
  forall acc msg,
    columnNames cols acc = Panicked msg
    <-> msg = "nil pointer dereference"
        /\ exists col, In col cols /\ col_Name col = None.
Proof.
  induction cols as [|col cols IH]; intros acc msg; cbn [columnNames In].
  - split; [discriminate|]. intros [_ [col [[] _]]].
  - destruct (col_Name col) as [name|] eqn:Hname.
    + rewrite IH. split.
      * intros [-> [col' [Hin Hnone]]]. split; [reflexivity|].
        exists col'. auto.
      * intros [-> [col' [[->|Hin] Hnone]]]; [congruence|].
        split; [reflexivity|]. exists col'. auto.
    + split.
      * intros [= <-]. split; [reflexivity|]. exists col. auto.
      * intros [-> _]. reflexivity.
Qed.

(** X16.  [Columns] returns the names of the columns of the table
    metadata, in that order, exactly when every column has a name, and
    panics on a column without one; [ColumnTypeDatabaseTypeName] returns
    the type of the column at an index within the metadata, the empty
    string where the type is missing, and panics on any other index. *)
Theorem column_accessors (r : rowsGzipDL) :
  (forall names,
     Columns r = Returned names
     <-> map col_Name (r_ctasTableColumns r) = map Some names)
  /\ (Columns r = Panicked "nil pointer dereference"
      <-> exists col, In col (r_ctasTableColumns r) /\ col_Name col = None)
  /\ (forall index,
        0 <= index < Z.of_nat (List.length (r_ctasTableColumns r)) ->
        exists column,
          nth_error (r_ctasTableColumns r) (Z.to_nat index) = Some column
          /\ ColumnTypeDatabaseTypeName r index
             = Returned (match col_Type column with
                         | Some t => t
                         | None => EmptyString
                         end))
  /\ (forall index,
        ~ (0 <= index < Z.of_nat (List.length (r_ctasTableColumns r))) ->
        ColumnTypeDatabaseTypeName r index = Panicked "index out of range").
Proof.
  unfold Columns, ColumnTypeDatabaseTypeName,
    columnTypeDatabaseTypeNameForCTAS.
  split; [|split; [|split]].
  - intros names. rewrite columnNames_Returned. cbn [app]. split.
    + intros [ns [H ->]]. exact H.
    + intros H. exists names. auto.
  - rewrite columnNames_Panicked. split.
    + intros [_ H]. exact H.
    + intros H. auto.
  - intros index Hin.
    replace (index <? 0) with false by (symmetry; apply Z.ltb_ge; lia).
    destruct (nth_error (r_ctasTableColumns r) (Z.to_nat index))
      as [column|] eqn:Hnth.
    + exists column. split; [reflexivity|].
      destruct (col_Type column); reflexivity.
    + apply nth_error_None in Hnth. lia.
  - intros index Hout.
    destruct (Z.ltb_spec index 0); [reflexivity|].
    replace (nth_error (r_ctasTableColumns r) (Z.to_nat index)) with
      (@None Column); [reflexivity|].
    symmetry. apply nth_error_None. lia.
Qed.

Lemma column_accessors_witness :
  ColumnTypeDatabaseTypeName
    (set_ctasTableColumns Scenario.r0
       [mkColumn (Some "id") (Some "int"); mkColumn (Some "name") None]) 1
  = Returned EmptyString
  /\ ColumnTypeDatabaseTypeName
       (set_ctasTableColumns Scenario.r0
          [mkColumn (Some "id") (Some "int"); mkColumn (Some "name") None]) 2
     = Panicked "index out of range".
Proof.
  split.
  - destruct (proj1 (proj2 (proj2 (column_accessors
               (set_ctasTableColumns Scenario.r0
                  [mkColumn (Some "id") (Some "int");
                   mkColumn (Some "name") None]))))
               1 ltac:(cbn; lia)) as [column [Hnth H]].
    cbn in Hnth. injection Hnth as <-. exact H.
  - apply (proj2 (proj2 (proj2 (column_accessors
             (set_ctasTableColumns Scenario.r0
                [mkColumn (Some "id") (Some "int");
                 mkColumn (Some "name") None]))))).
    cbn. lia.
Defined.

Lemma skipn_nth_error {A : Type} (l : list A) :
  forall p, (p < List.length l)%nat ->
    exists x, nth_error l p = Some x /\ skipn p l = x :: skipn (S p) l.
Proof.
  induction l as [|a l IH]; intros p Hp; cbn in Hp; [lia|].
  destruct p as [|p].
  - exists a. split; reflexivity.
  - destruct (IH p ltac:(lia)) as [x [Hn Hs]]. exists x. split; assumption.
Qed.

Section DrainFacts.

Variable Dest : Type.
Variable convertRowFromTableInfo :
  list Column -> list string -> Dest -> Dest * option error.

Lemma NextUntil_S (n : nat) (r : rowsGzipDL) (dest : Dest) :
  NextUntil Dest convertRowFromTableInfo (S n) r dest
  = obind (Next Dest convertRowFromTableInfo r dest) (fun '(r', dest', e) =>
    match e with
    | Some err => Returned (r', dest', Some err)
    | None => NextUntil Dest convertRowFromTableInfo n r' dest'
    end).
Proof. reflexivity. Qed.

Lemma NextUntil_drains (rows : list (list string)) :
  forall (n : nat) (r : rowsGzipDL) (p : nat) (dest : Dest),
    r_downloadedRows r = Some (mkDownloadedRows rows (Z.of_nat p)) ->
    (p <= List.length rows)%nat ->
    n = (List.length rows - p)%nat ->
    (forall row d, In row (skipn p rows) ->
       snd (convertRowFromTableInfo (r_ctasTableColumns r) row d) = None) ->
    NextUntil Dest convertRowFromTableInfo (S n) r dest
    = Returned
        (set_downloadedRows r
           (Some (mkDownloadedRows rows (Z.of_nat (List.length rows)))),
         fold_left
           (fun d row =>
              fst (convertRowFromTableInfo (r_ctasTableColumns r) row d))
           (skipn p rows) dest,
         Some io_EOF).
Proof.
  induction n as [|n IH]; intros r p dest Hr Hp Hn Hconv.
  - assert (p = List.length rows) by lia. subst p.
    rewrite NextUntil_S. unfold Next, nextCTAS. rewrite Hr.
    cbn [data cursor NextUntil]. rewrite Z.leb_refl. cbn [obind]. rewrite skipn_all. cbn [fold_left].
    do 3 f_equal. destruct r; cbn in *. now rewrite Hr.
  - destruct (skipn_nth_error rows p ltac:(lia)) as [row [Hnth Hskip]].
    rewrite NextUntil_S. unfold Next at 1, nextCTAS. rewrite Hr.
    cbn [data cursor].
    replace (Z.of_nat (List.length rows) <=? Z.of_nat p) with false
      by (symmetry; apply Z.leb_gt; lia).
    replace (Z.of_nat p <? 0) with false by (symmetry; apply Z.ltb_ge; lia).
    rewrite Nat2Z.id, Hnth.
    pose proof (Hconv row dest ltac:(rewrite Hskip; now left)) as Hrow.
    destruct (convertRowFromTableInfo (r_ctasTableColumns r) row dest)
      as [dest1 e] eqn:Hc. cbn [snd] in Hrow. subst e. cbn [obind].
    replace (Z.of_nat p + 1) with (Z.of_nat (S p)) by lia.
    rewrite (IH _ (S p) dest1); cbn [r_downloadedRows set_downloadedRows
      r_ctasTableColumns]; auto; try lia.
    + rewrite Hskip. cbn [fold_left]. rewrite Hc. reflexivity.
    + intros row' d Hin. apply Hconv. rewrite Hskip. now right.
Qed.

End DrainFacts.

(** X17.  Draining the cursor serves the buffer in order: from a cursor at
    offset [p], as long as the conversion reports no error, repeated calls
    of [Next] on one destination convert the rows from offset [p] to the
    end, one per call and in buffer order, and the call after the last row
    answers the end of the data with the offset at the length of the
    buffer. *)
Theorem Next_drains_in_order (Dest : Type)
    (convertRowFromTableInfo :
       list Column -> list string -> Dest -> Dest * option error)
    (r : rowsGzipDL) (rows : list (list string)) (p : nat) (dest : Dest) :
  r_downloadedRows r = Some (mkDownloadedRows rows (Z.of_nat p)) ->
  (p <= List.length rows)%nat ->
  (forall row d, In row (skipn p rows) ->
     snd (convertRowFromTableInfo (r_ctasTableColumns r) row d) = None) ->
  NextUntil Dest convertRowFromTableInfo (S (List.length rows - p)) r dest
  = Returned
      (set_downloadedRows r
         (Some (mkDownloadedRows rows (Z.of_nat (List.length rows)))),
       fold_left
         (fun d row =>
            fst (convertRowFromTableInfo (r_ctasTableColumns r) row d))
         (skipn p rows) dest,
       Some io_EOF).
Proof.
  intros Hr Hp Hconv. now apply NextUntil_drains.
Qed.

Lemma Next_drains_in_order_witness :
  NextUntil (list (list string))
    (fun _ row seen => (seen ++ [row], None)) 3
    (set_downloadedRows Scenario.r0
       (Some (mkDownloadedRows [["1"; "a"]; ["2"; "b"]] 0))) []
  = Returned
      (set_downloadedRows Scenario.r0
         (Some (mkDownloadedRows [["1"; "a"]; ["2"; "b"]] 2)),
       [["1"; "a"]; ["2"; "b"]], Some io_EOF).
Proof.
  apply (Next_drains_in_order (list (list string))
           (fun _ row seen => (seen ++ [row], None))
           (set_downloadedRows Scenario.r0
              (Some (mkDownloadedRows [["1"; "a"]; ["2"; "b"]] 0)))
           [["1"; "a"]; ["2"; "b"]] 0 []).
  - reflexivity.
  - cbn. lia.
  - intros row d _. reflexivity.
Defined.

(** *** The download, further *)

Lemma endsWith_last (c : ascii) (s : string) :
  String.eqb (drop (String.length s - 1) s) (String c EmptyString)
  = endsWith c s.
Proof.
  induction s as [|a s IH]; [reflexivity|].
  destruct s as [|b s].
  - cbn. destruct (Ascii.eqb a c); reflexivity.
  - change (endsWith c (String a (String b s)))
      with (endsWith c (String b s)).
    rewrite <- IH. cbn [String.length drop Nat.sub].
    now rewrite !Nat.sub_0_r.
Qed.

Lemma trimmed_slash (location : string) :
  trimmed (location ++ "/")%string = location.
Proof.
  unfold trimmed. rewrite length_sapp. cbn [String.length].
  replace (String.length location + 1 - 1)%nat with (String.length location)
    by lia.
  rewrite drop_sapp, take_sapp. reflexivity.
Qed.

Lemma trimmed_no_slash (location : string) :
  endsWith "/" location = false -> trimmed location = location.
Proof.
  intros H. unfold trimmed. now rewrite endsWith_last, H.
Qed.

(** X18.  One trailing slash on the output location makes no difference to
    the download: for a location that does not end in a slash,
    [downloadCompressedData] does the same with and without a slash added,
    the panic on a location of fewer than five bytes included. *)
Theorem downloadCompressedData_trailing_slash (store : Store)
    (r : rowsGzipDL) (location : string) :
  endsWith "/" location = false ->
  downloadCompressedData store r (location ++ "/")%string
  = downloadCompressedData store r location.
Proof.
  intros Hends. rewrite !downloadCompressedData_slices. unfold bucketOf.
  rewrite trimmed_slash, (trimmed_no_slash location Hends), len_sapp.
  change (len "/") with 1.
  pose proof (len_nonneg location) as Hlen.
  replace (1 <=? len location + 1) with true by (symmetry; apply Z.leb_le; lia).
  cbn [andb].
  destruct (Z.leb_spec 5 (len location)) as [H5|H5].
  - replace (1 <=? len location) with true by (symmetry; apply Z.leb_le; lia).
    reflexivity.
  - rewrite andb_false_r. cbn [andb]. reflexivity.
Qed.

Lemma downloadCompressedData_trailing_slash_witness :
  downloadCompressedData Scenario.twoObjects Scenario.r0 "s3://results/"
  = downloadCompressedData Scenario.twoObjects Scenario.r0 "s3://results".
Proof.
  apply (downloadCompressedData_trailing_slash Scenario.twoObjects
           Scenario.r0 "s3://results").
  reflexivity.
Defined.

Section PartialDownload.

Variable store : Store.

Lemma downloadObject_fails (r : rowsGzipDL) (bucketName key : string)
    (err : error) :
  objectFails store bucketName key err ->
  downloadObject store r bucketName key = Returned (inl err).
Proof.
  unfold downloadObject.
  intros [H | [(body & content & H & Hread)
              | [(content & (body & H & Hread) & Hgz)
                | (content & gz & (body & H & Hread) & Hgz & Hrec)]]];
    rewrite H; try reflexivity; rewrite Hread; try reflexivity;
    rewrite Hgz; try reflexivity.
  rewrite Hrec. reflexivity.
Qed.

Lemma downloadObjects_stops (bucketName : string) (good : list string)
    (rowss : list (list (list string))) (bad : string) (rest : list string)
    (err : error) :
  Forall2 (decodesTo store bucketName) good rowss ->
  objectFails store bucketName bad err ->
  forall r,
  exists r',
    downloadObjects store r bucketName (good ++ bad :: rest)
    = Returned (r', Some err)
    /\ buffer r' = buffer r ++ List.concat rowss
    /\ (good = [] -> r' = r).
Proof.
  intros Hgood Hbad.
  induction Hgood as [|key rows keys rowss Hdec _ IH]; intros r.
  - exists r. cbn [app downloadObjects List.concat].
    rewrite (downloadObject_fails r _ _ _ Hbad). cbn [obind].
    rewrite app_nil_r. auto.
  - destruct (downloadObject_decodes store r bucketName key rows Hdec)
      as [r1 [H1 [_ Hbuf]]].
    destruct (IH r1) as [r2 [H2 [Hbuf2 _]]].
    exists r2. cbn [app downloadObjects List.concat]. rewrite H1.
    cbn [obind]. rewrite H2, Hbuf2, Hbuf, <- app_assoc.
    repeat split. discriminate.
Qed.

End PartialDownload.

(** X19.  When an object listed in the manifest cannot be fetched or
    decoded, [downloadCompressedData] returns that error at once: the
    buffer keeps the rows of the objects listed before it, in listing
    order, and whatever the manifest lists after it plays no part. *)
Theorem downloadCompressedData_stops_at_failure (store : Store)
    (r : rowsGzipDL) (location manifest : string) (good : list string)
    (rowss : list (list (list string))) (bad : string) (rest : list string)
    (err : error) :
  1 <= len location ->
  5 <= len (trimmed location) ->
  readsAs store (bucketOf location) (manifestKey (r_queryID r)) manifest ->
  getObjectKeysForGzip (strings_NewReader manifest)
                       (len (trimmed location) + 1)
  = Some (Ok (good ++ bad :: rest)) ->
  Forall2 (decodesTo store (bucketOf location)) good rowss ->
  objectFails store (bucketOf location) bad err ->
  exists r',
    downloadCompressedData store r location = Returned (r', Some err)
    /\ buffer r' = buffer r ++ List.concat rowss
    /\ (good = [] -> r' = r).
Proof.
  intros H1 H5 [body [Hget Hread]] Hkeys Hgood Hbad.
  rewrite downloadCompressedData_slices.
  replace (1 <=? len location) with true by (symmetry; apply Z.leb_le; lia).
  replace (5 <=? len (trimmed location)) with true
    by (symmetry; apply Z.leb_le; lia).
  cbn [andb]. rewrite Hget, Hread.
  rewrite Hkeys. cbn [of_fuel obind].
  now apply downloadObjects_stops.
Qed.

Lemma downloadCompressedData_stops_at_failure_witness :
  exists r',
    downloadCompressedData Scenario2.secondMissing Scenario.r0
                           "s3://results/"
    = Returned (r', Some (external_error "NoSuchKey"))
    /\ buffer r' = buffer Scenario.r0
                   ++ List.concat [[["1"; "a"]; ["2"; "b"]; ["3"; "c"]]]
    /\ (["t1"] = [] -> r' = Scenario.r0).
Proof.
  apply (downloadCompressedData_stops_at_failure Scenario2.secondMissing
           Scenario.r0 "s3://results/"
           (Scenario.line ["s3://results/t1"]
            ++ Scenario.line ["s3://results/t2"])%string
           ["t1"] [[["1"; "a"]; ["2"; "b"]; ["3"; "c"]]] "t2" []
           (external_error "NoSuchKey")).
  - vm_compute. discriminate.
  - vm_compute. discriminate.
  - eexists. split; reflexivity.
  - vm_compute. reflexivity.
  - constructor; [|constructor].
    exists (Scenario.line ["1"; "a"] ++ Scenario.line ["2"; "b"]
            ++ Scenario.line ["3"; "c"])%string.
    exists (mkReaderCut
              (Scenario.line ["1"; "a"] ++ Scenario.line ["2"; "b"]
               ++ Scenario.line ["3"; "c"])%string None [] true).
    split; [eexists; split; reflexivity|].
    split; [reflexivity|]. vm_compute. reflexivity.
  - left. reflexivity.
Defined.

(** X20.  The order in which the results of the two goroutines of [init]
    arrive does not matter when both succeed: the cursor, the cleanup and
    the returned error are the same.  When both report an error, [init]
    returns the one that arrives first and leaves the log as it is. *)
Theorem init_arrival_order (store : Store) (r : rowsGzipDL)
    (cfg : rowsConfig) (w : World)
    (dl gt : rowsGzipDL) (dlErr gtErr : option error) :
  downloadCompressedData store r (cfg_OutputLocation cfg)
  = Returned (dl, dlErr) ->
  getTableAsync store r = (gt, gtErr) ->
  (dlErr = None -> gtErr = None ->
   init store (BothReceived Download) r cfg w
   = init store (BothReceived GetTable) r cfg w)
  /\ (forall e1 e2 first,
        dlErr = Some e1 -> gtErr = Some e2 ->
        exists r',
          init store (BothReceived first) r cfg w
          = (Returned (r', Some (match first with
                                 | Download => e1
                                 | GetTable => e2
                                 end)), w)).
Proof.
  intros Hdl Hgt. unfold init. rewrite Hdl, Hgt. split.
  - intros -> ->. reflexivity.
  - intros e1 e2 first -> ->. destruct first; eexists; reflexivity.
Qed.

Lemma init_arrival_order_witness :
  init Scenario.twoObjects (BothReceived Download) Scenario.r0
       (Scenario.cfg0 None) []
  = init Scenario.twoObjects (BothReceived GetTable) Scenario.r0
         (Scenario.cfg0 None) [].
Proof.
  destruct (downloadCompressedData Scenario.twoObjects Scenario.r0
              "s3://results/") as [[dl dlErr]| |] eqn:Hdl;
    [|vm_compute in Hdl; discriminate Hdl
     |vm_compute in Hdl; discriminate Hdl].
  destruct (getTableAsync Scenario.twoObjects Scenario.r0) as [gt gtErr]
    eqn:Hgt.
  apply (proj1 (init_arrival_order Scenario.twoObjects Scenario.r0
                  (Scenario.cfg0 None) [] dl gt dlErr gtErr Hdl Hgt)).
  - vm_compute in Hdl. congruence.
  - vm_compute in Hgt. congruence.
Defined.

(** X21.  A materialization whose manifest lists no object leaves the
    buffer of the cursor unallocated: when [newRowsGzipDL] then returns
    without error, the first call of [Next] on the cursor panics with a
    nil dereference instead of answering the end of the data. *)
Theorem empty_manifest_Next_panics (store : Store) (sched : schedule)
    (cfg : rowsConfig) (manifest : string) (w w' : World)
    (r : rowsGzipDL) (Dest : Type)
    (convertRowFromTableInfo :
       list Column -> list string -> Dest -> Dest * option error)
    (dest : Dest) :
  1 <= len (cfg_OutputLocation cfg) ->
  5 <= len (trimmed (cfg_OutputLocation cfg)) ->
  readsAs store (bucketOf (cfg_OutputLocation cfg))
          (manifestKey (cfg_QueryID cfg)) manifest ->
  getObjectKeysForGzip (strings_NewReader manifest)
                       (len (trimmed (cfg_OutputLocation cfg)) + 1)
  = Some (Ok []) ->
  newRowsGzipDL store sched cfg w = (Returned (r, None), w') ->
  Next Dest convertRowFromTableInfo r dest
  = Panicked "nil pointer dereference".
Proof.
  intros H1 H5 [body [Hget Hread]] Hkeys Hnew.
  assert (Hnil : r_downloadedRows r = None).
  { revert Hnew. unfold newRowsGzipDL, init.
    rewrite downloadCompressedData_slices. cbn [r_queryID].
    replace (1 <=? len (cfg_OutputLocation cfg)) with true
      by (symmetry; apply Z.leb_le; lia).
    replace (5 <=? len (trimmed (cfg_OutputLocation cfg))) with true
      by (symmetry; apply Z.leb_le; lia).
    cbn [andb]. rewrite Hget, Hread.
    rewrite Hkeys. cbn [of_fuel obind downloadObjects].
    unfold getTableAsync. cbn [r_catalog r_db r_ctasTable].
    destruct (athena_GetTableMetadata store _ _ _) as [columns|err];
      destruct sched as [|first|first]; try destruct first;
      cbn [merge sent other]; try discriminate.
    - destruct (cfg_AfterDownload cfg) as [afterDownload|].
      + unfold bind, ret. destruct (afterDownload w) as [[e| |] w1];
          intros [= <- _ _]; reflexivity.
      + intros [= <- _]. reflexivity.
    - destruct (cfg_AfterDownload cfg) as [afterDownload|].
      + unfold bind, ret. destruct (afterDownload w) as [[e| |] w1];
          intros [= <- _ _]; reflexivity.
      + intros [= <- _]. reflexivity. }
  unfold Next, nextCTAS. now rewrite Hnil.
Qed.

Lemma empty_manifest_Next_panics_witness :
  Next (list string) Scenario.copyRow
       (set_ctasTableColumns Scenario.r0 [mkColumn (Some "id") (Some "int")])
       []
  = Panicked "nil pointer dereference".
Proof.
  apply (empty_manifest_Next_panics Scenario2.emptyManifest
           (BothReceived Download) (Scenario.cfg0 None) EmptyString [] []).
  - vm_compute. discriminate.
  - vm_compute. discriminate.
  - eexists. split; reflexivity.
  - vm_compute. reflexivity.
  - vm_compute. reflexivity.
Defined.

(** *** The materialization path of [runQuery] *)

(** X22.  A SELECT in the compressed-download mode whose output location
    needs no lookup is sent as CREATE TABLE tmp_ctas_<uuid without dashes>
    WITH (format='TEXTFILE') AS <query>; once that statement has started
    and is seen to have succeeded, [runQuery] hands [newRows] the
    identifier of that execution, the temporary table, a cleanup that
    drops that table, no header to skip, and the timeout and catalog of
    the context where it overrides those of the connection. *)
Theorem runQuery_materializes (env : Env) (Rows : Type)
    (checkOutputLocation : ResultMode -> string -> bool)
    (getOutputLocation : string -> M (string * option error))
    (newRows : rowsConfig -> M (result Rows))
    (fuel : nat) (c : conn) (ctx : context) (query : string)
    (w w1 : World) (queryID : string) :
  let table := ("tmp_ctas_" ++ remove_dashes (env_uuid env (count is_uuid w)))
               %string in
  let effective := match getCatalog ctx with
                   | Some cat => cat
                   | None => catalog c
                   end in
  let input :=
    mkStartInput ("CREATE TABLE " ++ table
                  ++ " WITH (format='TEXTFILE') AS " ++ query)%string
                 (db c)
                 (if String.eqb effective "" then None else Some effective)
                 (OutputLocation c) (workgroup c) in
  isSelectQuery query = true ->
  match getResultMode ctx with
  | Some rmode => rmode
  | None => resultMode c
  end = ResultModeGzipDL ->
  checkOutputLocation ResultModeGzipDL (OutputLocation c) = false ->
  env_StartQueryExecution env (count is_start w) input = Ok queryID ->
  waitOnQuery env fuel c ctx queryID
              (w ++ [EvNewV4; EvStartQueryExecution input])
  = (Returned None, w1) ->
  runQuery env Rows checkOutputLocation getOutputLocation newRows
           fuel c ctx query w
  = bind (newRows (mkRowsConfig queryID false ResultModeGzipDL
                     (OutputLocation c)
                     (match getTimeout ctx with
                      | Some to => to
                      | None => timeout c
                      end)
                     (Some (dropCTASTable env fuel c ctx table))
                     table (db c) effective))
         (fun rows => ret (c, rows)) w1.
Proof.
  intros table effective input Hsel Hmode Hcheck Hstart Hwait.
  unfold runQuery, runQuery_resultMode. rewrite Hsel. cbn [negb].
  assert (Hrm : match getResultMode ctx with
                | Some rmode =>
                  if negb (isValidResultMode rmode)
                  then Err ErrInvalidResultMode else Ok rmode
                | None => Ok (resultMode c)
                end = Ok ResultModeGzipDL).
  { destruct (getResultMode ctx) as [rmode|]; rewrite Hmode; reflexivity. }
  rewrite Hrm, Hcheck.
  unfold ctasBlock, isCreatingCTASTable. cbn [ResultMode_eqb andb].
  unfold bind at 1. unfold ret at 1.
  unfold bind at 1. unfold bind at 1. unfold uuid_NewV4 at 1, call at 1.
  unfold ret at 1.
  unfold bind at 1. unfold startQuery at 1, StartQueryExecution, call.
  fold table. fold effective.
  replace (count is_start (w ++ [EvNewV4])) with (count is_start w)
    by (rewrite count_app; unfold count; simpl; lia).
  fold input. rewrite Hstart.
  unfold bind at 1. rewrite <- app_assoc. cbn [app]. rewrite Hwait.
  unfold isDDLQuery, getQueryType. subst table.
  rewrite rewritten_matches_ddl. reflexivity.
Qed.

Lemma runQuery_materializes_witness :
  runQuery Scenario.quick unit Scenario.neverCheck Scenario.noLocation
           Scenario.noRows 8 Scenario.c0 Scenario.noOverride
           "SELECT 1" []
  = bind (Scenario.noRows
            (mkRowsConfig "q-1" false ResultModeGzipDL "s3://results" 60
               (Some (dropCTASTable Scenario.quick 8 Scenario.c0
                        Scenario.noOverride
                        "tmp_ctas_6ba7b8109dad11d180b400c04fd430c8"))
               "tmp_ctas_6ba7b8109dad11d180b400c04fd430c8" "default" ""))
         (fun rows => ret (Scenario.c0, rows))
         [EvNewV4;
          EvStartQueryExecution
            (mkStartInput
               "CREATE TABLE tmp_ctas_6ba7b8109dad11d180b400c04fd430c8 WITH (format='TEXTFILE') AS SELECT 1"
               "default" None "s3://results" "primary");
          EvGetQueryExecution "q-1"].
Proof.
  apply (runQuery_materializes Scenario.quick unit Scenario.neverCheck
           Scenario.noLocation Scenario.noRows 8 Scenario.c0
           Scenario.noOverride "SELECT 1" []
           [EvNewV4;
            EvStartQueryExecution
              (mkStartInput
                 "CREATE TABLE tmp_ctas_6ba7b8109dad11d180b400c04fd430c8 WITH (format='TEXTFILE') AS SELECT 1"
                 "default" None "s3://results" "primary");
            EvGetQueryExecution "q-1"] "q-1").
  - vm_compute. reflexivity.
  - reflexivity.
  - reflexivity.
  - reflexivity.
  - vm_compute. reflexivity.
Defined.

(** *** What the decoder never returns *)

(** [string(r)] is the encoding of a valid code point, U+FFFD for every
    value that is none. *)
Lemma string_of_rune_valid (r : Z) :
  exists r', utf8.string_of_rune r = utf8.string_of_rune r'
             /\ validRune r' /\ (r <> 1 -> r' <> 1).
Proof.
  destruct ((r <? 0) || (1114111 <? r) || ((55296 <=? r) && (r <=? 57343)))
    eqn:Hbad.
  - exists 65533. split; [|split].
    + unfold utf8.string_of_rune at 1. rewrite Hbad. reflexivity.
    + unfold validRune. lia.
    + lia.
  - exists r. split; [reflexivity|]. split; [|auto].
    rewrite !orb_false_iff, andb_false_iff in Hbad.
    destruct Hbad as [[H0 H1] H2].
    apply Z.ltb_ge in H0. apply Z.ltb_ge in H1. unfold validRune.
    split; [lia|]. intros [Ha Hb].
    destruct H2 as [H2|H2]; [apply Z.leb_gt in H2|apply Z.leb_gt in H2]; lia.
Qed.

Lemma separatorFree_empty : separatorFree EmptyString.
Proof. exists []. split; [reflexivity|constructor]. Qed.

Lemma separatorFree_rune (field : string) (r : Z) :
  separatorFree field -> r <> 1 ->
  separatorFree (field ++ utf8.string_of_rune r)%string.
Proof.
  intros [rs [-> Hrs]] Hr.
  destruct (string_of_rune_valid r) as [r' [Heq [Hvalid Hsep]]].
  exists (rs ++ [r']). split.
  - rewrite encodeRunes_app, Heq. unfold encodeRunes at 3.
    cbn [fold_right]. now rewrite sapp_nil_r.
  - apply Forall_app. split; [exact Hrs|]. constructor; [|constructor].
    split; auto.
Qed.

Lemma decodeRecord_separatorFree (fuel : nat) :
  forall (b field : string) (record out : list string),
    Forall separatorFree record -> separatorFree field ->
    decodeRecord fuel b field record = Some out ->
    out <> [] /\ Forall separatorFree out.
Proof.
  induction fuel as [|fuel IH]; intros b field record out Hrec Hfield;
    cbn [decodeRecord]; [discriminate|].
  destruct (utf8.DecodeRune b) as [r width].
  change (byte_val SOH) with 1.
  destruct (Z.eqb_spec r 1) as [->|Hr].
  - destruct (len b <=? width).
    + intros [= <-]. split.
      * destruct (record ++ [field]); discriminate.
      * rewrite !Forall_app. repeat split; auto.
        constructor; [apply separatorFree_empty|constructor].
    + apply IH; [|apply separatorFree_empty].
      rewrite Forall_app. split; auto.
  - destruct (len b <=? width).
    + intros [= <-]. split.
      * destruct record; discriminate.
      * rewrite Forall_app. split; auto.
        constructor; [|constructor]. now apply separatorFree_rune.
    + apply IH; [exact Hrec|]. now apply separatorFree_rune.
Qed.

Lemma recordsLoop_separatorFree (fuel : nat) :
  forall (scanner : bufio.Scanner) (records rows : list (list string)),
    Forall (fun row => row <> [] /\ Forall separatorFree row) records ->
    recordsLoop fuel scanner records = Some (Ok rows) ->
    Forall (fun row => row <> [] /\ Forall separatorFree row) rows.
Proof.
  induction fuel as [|fuel IH]; intros scanner records rows Hrec;
    cbn [recordsLoop]; [discriminate|].
  destruct (bufio.Scan scanner) as [[more scanner']|]; [|discriminate].
  destruct more; cbn [negb].
  - destruct (bufio.Err scanner'); [discriminate|].
    destruct (decodeRecord _ _ _ _) as [record|] eqn:Hdec; [|discriminate].
    apply IH. rewrite Forall_app. split; [exact Hrec|].
    constructor; [|constructor].
    apply (decodeRecord_separatorFree _ _ _ _ _ (Forall_nil _)
             separatorFree_empty Hdec).
  - intros [= <-]. exact Hrec.
Qed.

(** The rows are the records of the lines of the input, from the first
    line on. *)
Lemma recordsLoop_served (fuel : nat) :
  forall (s : bufio.Scanner) (records rows : list (list string)),
    scanning s ->
    recordsLoop fuel s records = Some (Ok rows) ->
    exists served rest,
      rows = records ++ map recordOf served
      /\ linesOf (unscanned s) = served ++ rest.
Proof.
  induction fuel as [|fuel IH]; intros s records rows Hs;
    cbn [recordsLoop]; [discriminate|].
  destruct (bufio.Scan s) as [[more s']|] eqn:Hscan; [|discriminate].
  destruct more; cbn [negb].
  - destruct (bufio.Err s'); [discriminate|].
    unfold bufio.Bytes. rewrite decodeRecord_recordOf. intros Hloop.
    destruct (Scan_true s s' Hs Hscan)
      as (Hs' & _ & _ & _ & _ & line & Htok & Hnone & Hcut).
    destruct (IH s' _ rows Hs' Hloop) as (served & rest & -> & Hlines).
    exists (bufio.sc_token s' :: served), rest. split.
    + cbn [map]. now rewrite <- app_assoc.
    + assert (Hfirst : linesOf (unscanned s)
                       = bufio.dropCR line :: linesOf (unscanned s')).
      { destruct Hcut as [(Hu & _) | (Hu & Hne & Hu' & _)].
        - rewrite Hu. unfold linesOf at 1.
          now rewrite linesFrom_line.
        - rewrite Hu, Hu'. unfold linesOf.
          rewrite linesFrom_last by exact Hnone. cbn [String.append].
          destruct line; [congruence|reflexivity]. }
      rewrite Hfirst, Hlines, Htok. reflexivity.
  - intros [= <-]. exists [], (linesOf (unscanned s)).
    cbn [map app]. now rewrite app_nil_r.
Qed.

(** X23.  What [getRecordsFromGzip] returns is read off the lines of its
    input, whatever the bytes: the rows are the records of the first
    lines, in order, the record of a line being its runes as
    [utf8.DecodeRune] reads them, U+FFFD for each ill-formed byte, cut
    into fields at U+0001 and encoded again.  So every row has at least
    one field, and every field is well-formed UTF-8 without the
    separator U+0001. *)
Theorem getRecordsFromGzip_fields_wellformed (reader : Reader)
    (rows : list (list string)) :
  getRecordsFromGzip reader = Some (Ok rows) ->
  (exists n, rows = map recordOf (firstn n (linesOf (rd_data reader))))
  /\ Forall (fun row => row <> [] /\ Forall separatorFree row) rows.
Proof.
  unfold getRecordsFromGzip. intros Hrun. split.
  - destruct (recordsLoop_served _ _ _ _ (NewScanner_scanning reader) Hrun)
      as (served & rest & -> & Hlines).
    exists (List.length served).
    change (unscanned (bufio.NewScanner reader)) with (rd_data reader)
      in Hlines.
    rewrite Hlines, firstn_app, Nat.sub_diag, firstn_all. cbn [firstn app].
    now rewrite app_nil_r.
  - revert Hrun. apply recordsLoop_separatorFree. constructor.
Qed.

Lemma getRecordsFromGzip_fields_wellformed_witness :
  (exists n,
     [[utf8.string_of_rune 65533; "b"]]
     = map recordOf
           (firstn n
              (linesOf
                 (String (byte_of 255)
                    (String SOH (String "b" (String LF EmptyString)))))))
  /\ Forall (fun row => row <> [] /\ Forall separatorFree row)
            [[utf8.string_of_rune 65533; "b"]].
Proof.
  apply (getRecordsFromGzip_fields_wellformed
           (strings_NewReader
              (String (byte_of 255)
                      (String SOH (String "b" (String LF EmptyString)))))).
  vm_compute. reflexivity.
Defined.
